(** * opyrator.ui.streamlit_ui : schema-driven form rendering

    A shallow embedding of [src/opyrator/ui/streamlit_ui.py].

    - Python values are a tree type [value]; a dict is an association list
      in insertion order, as CPython keeps it. An int is a [Z], a float a
      binary64 [float].
    - The session's input data are such a tree: no dict or list in them
      contains itself, and none sits under two keys at once. (The code
      writes through an object that two keys share; the states of the
      model are those without such sharing, and what is proved of keys
      that part from each other is proved of these.) Where the code
      changes in place an object it took out of the input data
      ([current_list.append], [current_dict[k] = v]), the change is
      written into the input data at the key the object came from.
    - A run of the script is a term of the free monad [prog]: it raises,
      asks the outside (a streamlit call, the invocation of the operation)
      or reads and writes the session state. [interp] runs it against an
      environment that answers the outside calls, and gives the outcome,
      the final session state and the calls made, in order.
    - The recursion of [_render_property] through nested schemas, and of
      [_render_single_output] through nested models, is bounded by a
      depth, at which RecursionError is raised, as the interpreter does at
      its recursion limit.
    - What lives outside the file (schema_utils, pydantic, mimetypes,
      datetime, pandas, fastapi, [str]) is taken as a record of functions;
      a [render_input_ui] or [render_output_ui] method is a program over
      the same interface.
    - The title a renderer puts into a property without one
      ([property["title"] = ...]) is put into the copy it works on; the
      code writes it into the schema object, and writes the same title
      each time. *)

From Stdlib Require Import ZArith List String Ascii Bool Lia Floats.
Import ListNotations.
Open Scope string_scope.
Set Warnings "-inexact-float,-register-all".

(* ================================================================== *)
(** ** Exceptions *)

Inductive exn_class :=
| Exception | TypeError | KeyError | ValueError | AttributeError
| OverflowError | RecursionError | ValidationError
| RerunException.

Record exn := Exn { exn_cls : exn_class; exn_msg : string }.

(** [except Exception] catches every class but streamlit's script-control
    exceptions, which derive from BaseException. *)
Definition is_Exception (e : exn) : bool :=
  match exn_cls e with
  | RerunException => false
  | _ => true
  end.

Definition is_ValidationError (e : exn) : bool :=
  match exn_cls e with
  | ValidationError => true
  | _ => false
  end.

Inductive outcome (A : Type) :=
| Ok (a : A)
| Err (e : exn).
Arguments Ok {A} a.
Arguments Err {A} e.

(* ================================================================== *)
(** ** Python values *)

Inductive value :=
| VNone
| VBool (b : bool)
| VInt (z : Z)
| VFloat (f : float)
| VStr (s : string)
| VBytes (s : string)
| VList (l : list value)
| VDict (d : list (string * value))
| VModel (cls : string) (fields : list (string * value))
| VFile (content : string)
| VExn (e : exn)
| VOpaque (tag : string) (payload : list value).

Abbreviation dict := (list (string * value)).

(** Truth value of an object, as [if x:] and [not x] take it. *)
Definition truthy (x : value) : bool :=
  match x with
  | VNone => false
  | VBool b => b
  | VInt z => negb (z =? 0)%Z
  | VFloat f => negb (PrimFloat.eqb f 0%float)
  | VStr s => negb (String.eqb s "")
  | VBytes s => negb (String.eqb s "")
  | VList l => match l with [] => false | _ => true end
  | VDict d => match d with [] => false | _ => true end
  | _ => true
  end.

Definition is_None (x : value) : bool :=
  match x with
  | VNone => true
  | _ => false
  end.

(* ------------------------------------------------------------------ *)
(** *** dict operations *)

Fixpoint dict_get (k : string) (d : dict) : option value :=
  match d with
  | [] => None
  | (k', v) :: r => if String.eqb k k' then Some v else dict_get k r
  end.

Definition dict_mem (k : string) (d : dict) : bool :=
  match dict_get k d with
  | Some _ => true
  | None => false
  end.

(** [d[k] = v]: an existing key keeps its place, a new one goes last. *)
Fixpoint dict_set (k : string) (v : value) (d : dict) : dict :=
  match d with
  | [] => [(k, v)]
  | (k', v') :: r =>
      if String.eqb k k' then (k, v) :: r else (k', v') :: dict_set k v r
  end.

(** [d.get(k)] *)
Definition dict_get_default (k : string) (d : dict) : value :=
  match dict_get k d with
  | Some v => v
  | None => VNone
  end.

Definition dict_keys (d : dict) : list string := map fst d.

(* ------------------------------------------------------------------ *)
(** *** strings *)

(** [s.split(".")] *)
Fixpoint split_dot (s : string) : list string :=
  match s with
  | EmptyString => [EmptyString]
  | String c rest =>
      if Ascii.eqb c "."%char then EmptyString :: split_dot rest
      else match split_dot rest with
           | [] => [String c EmptyString]
           | h :: t => String c h :: t
           end
  end.

Fixpoint is_prefix (p s : string) : bool :=
  match p with
  | EmptyString => true
  | String a p' =>
      match s with
      | EmptyString => false
      | String b s' => Ascii.eqb a b && is_prefix p' s'
      end
  end.

(** [p in s] on two strings *)
Fixpoint is_substring (p s : string) : bool :=
  is_prefix p s ||
  match s with
  | EmptyString => false
  | String _ s' => is_substring p s'
  end.

Definition lower_ascii (c : ascii) : ascii :=
  let n := nat_of_ascii c in
  if (65 <=? n)%nat && (n <=? 90)%nat then ascii_of_nat (n + 32) else c.

(** [s.lower()], on the ASCII letters *)
Fixpoint lower (s : string) : string :=
  match s with
  | EmptyString => EmptyString
  | String c r => String (lower_ascii c) (lower r)
  end.

(* ------------------------------------------------------------------ *)
(** *** subscripts and membership on arbitrary objects *)

Definition str_is (k : string) (y : value) : bool :=
  match y with
  | VStr s => String.eqb s k
  | _ => false
  end.

(** [k in x] for a string [k] *)
Definition py_contains (x : value) (k : string) : outcome bool :=
  match x with
  | VDict d => Ok (dict_mem k d)
  | VList l => Ok (existsb (str_is k) l)
  | VStr s => Ok (is_substring k s)
  | VModel _ _ => Ok false
  | _ => Err (Exn TypeError "argument is not iterable")
  end.

(** [x[k]] for a string [k] *)
Definition py_getitem (x : value) (k : string) : outcome value :=
  match x with
  | VDict d =>
      match dict_get k d with
      | Some v => Ok v
      | None => Err (Exn KeyError k)
      end
  | _ => Err (Exn TypeError "object is not subscriptable by a string")
  end.

(** [x[k] = v] for a string [k]; gives the object after the assignment *)
Definition py_setitem (x : value) (k : string) (v : value) : outcome value :=
  match x with
  | VDict d => Ok (VDict (dict_set k v d))
  | _ => Err (Exn TypeError "object does not support item assignment")
  end.

(** [x.get(k)] *)
Definition py_get (x : value) (k : string) : outcome value :=
  match x with
  | VDict d => Ok (dict_get_default k d)
  | _ => Err (Exn AttributeError "get")
  end.

(* ------------------------------------------------------------------ *)
(** *** the nested-key encoding of InputUI

    [data_element] walks down the session's input data; an assignment into
    the object it names is an assignment inside the session's data, so each
    step hands the object it changed back to its parent. *)

(** The loop of [_store_value] over [key_elements] from [data_element]. *)
Fixpoint store_elements (key_elements : list string) (v : value)
         (data_element : value) : outcome unit * value :=
  match key_elements with
  | [] => (Ok tt, data_element)
  | key_element :: rest =>
      match rest with
      | [] =>
          match py_setitem data_element key_element v with
          | Ok x' => (Ok tt, x')
          | Err e => (Err e, data_element)
          end
      | _ :: _ =>
          match py_contains data_element key_element with
          | Err e => (Err e, data_element)
          | Ok present =>
              match (if present then Ok data_element
                     else py_setitem data_element key_element (VDict [])) with
              | Err e => (Err e, data_element)
              | Ok x1 =>
                  match py_getitem x1 key_element with
                  | Err e => (Err e, x1)
                  | Ok child =>
                      let '(r, child') := store_elements rest v child in
                      match x1 with
                      | VDict d => (r, VDict (dict_set key_element child' d))
                      | _ => (r, x1)
                      end
                  end
              end
          end
      end
  end.

(** The loop of [_get_value]. *)
Fixpoint get_elements (key_elements : list string) (data_element : value)
  : outcome value * value :=
  match key_elements with
  | [] => (Ok VNone, data_element)
  | key_element :: rest =>
      match rest with
      | [] =>
          match py_contains data_element key_element with
          | Err e => (Err e, data_element)
          | Ok false => (Ok VNone, data_element)
          | Ok true =>
              match py_getitem data_element key_element with
              | Ok x => (Ok x, data_element)
              | Err e => (Err e, data_element)
              end
          end
      | _ :: _ =>
          match py_contains data_element key_element with
          | Err e => (Err e, data_element)
          | Ok present =>
              match (if present then Ok data_element
                     else py_setitem data_element key_element (VDict [])) with
              | Err e => (Err e, data_element)
              | Ok x1 =>
                  match py_getitem x1 key_element with
                  | Err e => (Err e, x1)
                  | Ok child =>
                      let '(r, child') := get_elements rest child in
                      match x1 with
                      | VDict d => (r, VDict (dict_set key_element child' d))
                      | _ => (r, x1)
                      end
                  end
              end
          end
      end
  end.

(** Every proper prefix of the path names a dict or nothing at all. *)
Fixpoint prefixes_ok (key_elements : list string) (x : value) : bool :=
  match key_elements with
  | [] => true
  | k :: rest =>
      match x with
      | VDict d =>
          match rest with
          | [] => true
          | _ :: _ =>
              match dict_get k d with
              | None => true
              | Some y => prefixes_ok rest y
              end
          end
      | _ => false
      end
  end.

(** The object a path names, walking through dicts only. *)
Fixpoint lookup_path (key_elements : list string) (x : value) : option value :=
  match key_elements with
  | [] => Some x
  | k :: rest =>
      match x with
      | VDict d =>
          match dict_get k d with
          | Some y => lookup_path rest y
          | None => None
          end
      | _ => None
      end
  end.

(** The dicts [_get_value] leaves behind below a missing segment: one per
    remaining intermediate segment, each holding only the next. *)
Fixpoint fresh_chain (key_elements : list string) : value :=
  match key_elements with
  | [] => VDict []
  | k :: rest => VDict [(k, fresh_chain rest)]
  end.

(* ------------------------------------------------------------------ *)
(** *** numbers

    A Python int is a [Z]; a Python float is a binary64 [float]. *)

(** int to float, rounding to nearest even *)
Definition Z2float (z : Z) : float :=
  SF2Prim (binary_normalize prec emax z 0 false).

(** The integer part of a finite float, towards zero. *)
Definition float_trunc (f : float) : option Z :=
  match Prim2SF f with
  | S754_zero _ => Some 0%Z
  | S754_finite s m e =>
      let a := if (0 <=? e)%Z then Z.shiftl (Z.pos m) e
               else Z.shiftr (Z.pos m) (- e) in
      Some (if s then (- a)%Z else a)
  | S754_infinity _ => None
  | S754_nan => None
  end.

Definition is_nan (f : float) : bool := negb (PrimFloat.eqb f f).

Definition bool_Z (b : bool) : Z := if b then 1%Z else 0%Z.

(** The value of a decimal digit. *)
Definition digit_of (c : ascii) : option Z :=
  let n := nat_of_ascii c in
  if (48 <=? n)%nat && (n <=? 57)%nat then Some (Z.of_nat (n - 48)) else None.

(** The longest run of digits at the start of [s], a single underscore
    being allowed between two digits: the number read (after [acc]), how
    many digits it has (after [n]) and what is left of [s]. *)
Fixpoint read_digits (s : string) (acc n : Z) : Z * Z * string :=
  match s with
  | EmptyString => (acc, n, s)
  | String c r =>
      match digit_of c with
      | Some d => read_digits r (10 * acc + d)%Z (n + 1)%Z
      | None =>
          if Ascii.eqb c "_"%char && (0 <? n)%Z then
            match r with
            | String c' r' =>
                match digit_of c' with
                | Some d => read_digits r' (10 * acc + d)%Z (n + 1)%Z
                | None => (acc, n, s)
                end
            | EmptyString => (acc, n, s)
            end
          else (acc, n, s)
      end
  end.

(** The whitespace [int] and [float] skip around a literal: space and
    the characters 9 to 13, and in a [str] (not in [bytes]) the separators
    28 to 31 as well. Literals are read as ASCII text. *)
Definition is_literal_space (text : bool) (c : ascii) : bool :=
  let n := nat_of_ascii c in
  (n =? 32)%nat || ((9 <=? n)%nat && (n <=? 13)%nat)
  || (text && (28 <=? n)%nat && (n <=? 31)%nat).

Fixpoint skip_spaces (text : bool) (s : string) : string :=
  match s with
  | EmptyString => EmptyString
  | String c r => if is_literal_space text c then skip_spaces text r else s
  end.

Fixpoint only_spaces (text : bool) (s : string) : bool :=
  match s with
  | EmptyString => true
  | String c r => is_literal_space text c && only_spaces text r
  end.

(** An optional sign: whether it is a minus, and what follows it. *)
Definition read_sign (s : string) : bool * string :=
  match s with
  | String "-"%char r => (true, r)
  | String "+"%char r => (false, r)
  | _ => (false, s)
  end.

(** [int(s)] on a [str] ([text]) or on [bytes], in base 10: spaces, a
    sign, digits, spaces. *)
Definition parse_int (text : bool) (s : string) : option Z :=
  let '(negative, s1) := read_sign (skip_spaces text s) in
  let '(z, n, rest) := read_digits s1 0%Z 0%Z in
  if (0 <? n)%Z && only_spaces text rest
  then Some (if negative then (- z)%Z else z)
  else None.

(** [int(x)] *)
Definition py_int (x : value) : outcome value :=
  match x with
  | VInt z => Ok (VInt z)
  | VBool b => Ok (VInt (bool_Z b))
  | VFloat f =>
      match float_trunc f with
      | Some z => Ok (VInt z)
      | None =>
          if is_nan f then Err (Exn ValueError "cannot convert float NaN to integer")
          else Err (Exn OverflowError "cannot convert float infinity to integer")
      end
  | VStr s =>
      match parse_int true s with
      | Some z => Ok (VInt z)
      | None => Err (Exn ValueError "invalid literal for int() with base 10")
      end
  | VBytes s =>
      match parse_int false s with
      | Some z => Ok (VInt z)
      | None => Err (Exn ValueError "invalid literal for int() with base 10")
      end
  | _ => Err (Exn TypeError "int() argument must be a string or a number")
  end.

Definition float_of_Z (z : Z) : outcome float :=
  let f := Z2float z in
  if PrimFloat.eqb (abs f) infinity
  then Err (Exn OverflowError "int too large to convert to float")
  else Ok f.

(** The float nearest to [n / d] (ties to even), for [0 < n] and [0 < d]:
    the quotient is taken with 64 bits or more, and one more bit tells
    whether anything is left below them. *)
Definition ratio2float (n d : Z) : float :=
  let k := Z.max 0 (64 + Z.log2 d - Z.log2 n) in
  let scaled := Z.shiftl n k in
  let q := (scaled / d)%Z in
  let sticky := if (scaled mod d =? 0)%Z then 0%Z else 1%Z in
  SF2Prim (binary_normalize prec emax (2 * q + sticky) (- k - 1) false).

(** The float nearest to [m * 10^e], for [0 <= m] with [digits] digits.
    Past 10^400 it is infinity and below 10^-400 it is zero, whatever
    the digits. *)
Definition decimal2float (m digits e : Z) : float :=
  if (m =? 0)%Z then 0%float
  else if (400 <? e)%Z then infinity
  else if (e + digits <? -400)%Z then 0%float
  else if (0 <=? e)%Z then Z2float (m * 10 ^ e)
  else ratio2float m (10 ^ (- e)).

Definition lower_is (word s : string) : bool := String.eqb (lower s) word.

(** The exponent of a float literal, if [s] starts with one: its value
    and what follows it. *)
Definition read_exponent (s : string) : option (Z * string) :=
  match s with
  | String c r =>
      if Ascii.eqb c "e"%char || Ascii.eqb c "E"%char then
        let '(negative, r1) := read_sign r in
        let '(z, n, rest) := read_digits r1 0%Z 0%Z in
        if (0 <? n)%Z then Some (if negative then (- z)%Z else z, rest) else None
      else Some (0%Z, s)
  | EmptyString => Some (0%Z, s)
  end.

(** The magnitude of a float literal: [inf], [infinity] and [nan] in any
    case of letters, or digits with an optional point and an optional
    exponent, one digit at least before the exponent. *)
Definition parse_magnitude (text : bool) (s : string) : option float :=
  let '(int_part, n1, rest1) := read_digits s 0%Z 0%Z in
  let '(mantissa, n2, rest2) :=
    match rest1 with
    | String "."%char r => read_digits r int_part 0%Z
    | _ => (int_part, 0%Z, rest1)
    end in
  if (0 <? n1 + n2)%Z then
    match read_exponent rest2 with
    | Some (e, rest3) =>
        if only_spaces text rest3
        then Some (decimal2float mantissa (n1 + n2) (e - n2))
        else None
    | None => None
    end
  else None.

Fixpoint rskip_spaces (text : bool) (s : string) : string :=
  match s with
  | EmptyString => EmptyString
  | String c r =>
      match rskip_spaces text r with
      | EmptyString => if is_literal_space text c then EmptyString else String c EmptyString
      | r' => String c r'
      end
  end.

(** [float(s)] on a [str] ([text]) or on [bytes] *)
Definition parse_float (text : bool) (s : string) : option float :=
  let '(negative, s1) := read_sign (skip_spaces text s) in
  let word := rskip_spaces text s1 in
  let magnitude :=
    if lower_is "inf" word || lower_is "infinity" word then Some infinity
    else if lower_is "nan" word then Some nan
    else parse_magnitude text s1 in
  match magnitude with
  | Some f => Some (if negative then PrimFloat.opp f else f)
  | None => None
  end.

(** [float(x)] *)
Definition py_float (x : value) : outcome value :=
  match x with
  | VInt z =>
      match float_of_Z z with
      | Ok f => Ok (VFloat f)
      | Err e => Err e
      end
  | VBool b => Ok (VFloat (Z2float (bool_Z b)))
  | VFloat f => Ok (VFloat f)
  | VStr s =>
      match parse_float true s with
      | Some f => Ok (VFloat f)
      | None => Err (Exn ValueError "could not convert string to float")
      end
  | VBytes s =>
      match parse_float false s with
      | Some f => Ok (VFloat f)
      | None => Err (Exn ValueError "could not convert string to float")
      end
  | _ => Err (Exn TypeError "float() argument must be a string or a number")
  end.

(** The operands of a binary arithmetic operator. *)
Inductive number :=
| NInt (z : Z)
| NFloat (f : float).

Definition as_number (x : value) : option number :=
  match x with
  | VInt z => Some (NInt z)
  | VBool b => Some (NInt (bool_Z b))
  | VFloat f => Some (NFloat f)
  | _ => None
  end.

Definition arith (opZ : Z -> Z -> Z) (opF : float -> float -> float)
           (a b : value) : outcome value :=
  match as_number a, as_number b with
  | Some (NInt x), Some (NInt y) => Ok (VInt (opZ x y))
  | Some (NInt x), Some (NFloat g) =>
      match float_of_Z x with
      | Ok f => Ok (VFloat (opF f g))
      | Err e => Err e
      end
  | Some (NFloat f), Some (NInt y) =>
      match float_of_Z y with
      | Ok g => Ok (VFloat (opF f g))
      | Err e => Err e
      end
  | Some (NFloat f), Some (NFloat g) => Ok (VFloat (opF f g))
  | _, _ => Err (Exn TypeError "unsupported operand type(s)")
  end.

(** [a + b] and [a - b] on numbers *)
Definition py_add : value -> value -> outcome value := arith Z.add PrimFloat.add.
Definition py_sub : value -> value -> outcome value := arith Z.sub PrimFloat.sub.

(** [a < b] on numbers; an int is compared with a float exactly. *)
Definition float_ltb_Z (f : float) (z : Z) : bool :=
  match Prim2SF f with
  | S754_zero _ => (0 <? z)%Z
  | S754_finite s m e =>
      if (0 <=? e)%Z
      then ((if s then - Z.shiftl (Z.pos m) e else Z.shiftl (Z.pos m) e) <? z)%Z
      else ((if s then - Z.pos m else Z.pos m) <? Z.shiftl z (- e))%Z
  | S754_infinity s => s
  | S754_nan => false
  end.

Definition Z_ltb_float (z : Z) (f : float) : bool :=
  match Prim2SF f with
  | S754_zero _ => (z <? 0)%Z
  | S754_finite s m e =>
      if (0 <=? e)%Z
      then (z <? (if s then - Z.shiftl (Z.pos m) e else Z.shiftl (Z.pos m) e))%Z
      else (Z.shiftl z (- e) <? (if s then - Z.pos m else Z.pos m))%Z
  | S754_infinity s => negb s
  | S754_nan => false
  end.

Definition py_lt (a b : value) : outcome bool :=
  match as_number a, as_number b with
  | Some (NInt x), Some (NInt y) => Ok (x <? y)%Z
  | Some (NInt x), Some (NFloat g) => Ok (Z_ltb_float x g)
  | Some (NFloat f), Some (NInt y) => Ok (float_ltb_Z f y)
  | Some (NFloat f), Some (NFloat g) => Ok (PrimFloat.ltb f g)
  | _, _ => Err (Exn TypeError "'<' not supported")
  end.

(** An integral finite float, as the integer it is. *)
Definition float_exact_Z (f : float) : option Z :=
  match Prim2SF f with
  | S754_zero _ => Some 0%Z
  | S754_finite s m e =>
      if (0 <=? e)%Z
      then Some (if s then - Z.shiftl (Z.pos m) e else Z.shiftl (Z.pos m) e)%Z
      else if (Z.shiftl (Z.shiftr (Z.pos m) (- e)) (- e) =? Z.pos m)%Z
           then Some (if s then - Z.shiftr (Z.pos m) (- e)
                      else Z.shiftr (Z.pos m) (- e))%Z
           else None
  | _ => None
  end.

Definition number_eqb (a b : number) : bool :=
  match a, b with
  | NInt x, NInt y => (x =? y)%Z
  | NInt x, NFloat g =>
      match float_exact_Z g with Some y => (x =? y)%Z | None => false end
  | NFloat f, NInt y =>
      match float_exact_Z f with Some x => (x =? y)%Z | None => false end
  | NFloat f, NFloat g => PrimFloat.eqb f g
  end.

Definition exn_class_eqb (a b : exn_class) : bool :=
  match a, b with
  | Exception, Exception | TypeError, TypeError | KeyError, KeyError
  | ValueError, ValueError | AttributeError, AttributeError
  | OverflowError, OverflowError | RecursionError, RecursionError
  | ValidationError, ValidationError | RerunException, RerunException => true
  | _, _ => false
  end.

(** [a == b] *)
Fixpoint py_eqb (a b : value) {struct a} : bool :=
  match a, b with
  | VNone, VNone => true
  | VStr s, VStr t => String.eqb s t
  | VBytes s, VBytes t => String.eqb s t
  | VList l1, VList l2 =>
      (fix go (l1 l2 : list value) : bool :=
         match l1, l2 with
         | [], [] => true
         | x :: r1, y :: r2 => py_eqb x y && go r1 r2
         | _, _ => false
         end) l1 l2
  | VDict d1, VDict d2 =>
      (List.length d1 =? List.length d2)%nat &&
      (fix go (d : dict) : bool :=
         match d with
         | [] => true
         | (k, v) :: r =>
             match dict_get k d2 with
             | Some w => py_eqb v w && go r
             | None => false
             end
         end) d1
  | VModel c1 f1, VModel c2 f2 =>
      String.eqb c1 c2 &&
      (List.length f1 =? List.length f2)%nat &&
      (fix go (d : dict) : bool :=
         match d with
         | [] => true
         | (k, v) :: r =>
             match dict_get k f2 with
             | Some w => py_eqb v w && go r
             | None => false
             end
         end) f1
  | VFile s, VFile t => String.eqb s t
  | VExn e1, VExn e2 =>
      exn_class_eqb (exn_cls e1) (exn_cls e2) && String.eqb (exn_msg e1) (exn_msg e2)
  | VOpaque t1 p1, VOpaque t2 p2 =>
      String.eqb t1 t2 &&
      (fix go (l1 l2 : list value) : bool :=
         match l1, l2 with
         | [], [] => true
         | x :: r1, y :: r2 => py_eqb x y && go r1 r2
         | _, _ => false
         end) p1 p2
  | _, _ =>
      match as_number a, as_number b with
      | Some x, Some y => number_eqb x y
      | _, _ => false
      end
  end.

(** [l.index(x)] *)
Fixpoint index_of (x : value) (l : list value) (i : Z) : option Z :=
  match l with
  | [] => None
  | y :: r => if py_eqb y x then Some i else index_of x r (i + 1)%Z
  end.

Definition py_index (l x : value) : outcome value :=
  match l with
  | VList items =>
      match index_of x items 0%Z with
      | Some i => Ok (VInt i)
      | None => Err (Exn ValueError "x not in list")
      end
  | _ => Err (Exn AttributeError "index")
  end.

(** [l.append(x)]; gives the list after the call *)
Definition py_append (l x : value) : outcome value :=
  match l with
  | VList items => Ok (VList (items ++ [x]))
  | _ => Err (Exn AttributeError "append")
  end.

Fixpoint chars (s : string) : list value :=
  match s with
  | EmptyString => []
  | String c r => VStr (String c EmptyString) :: chars r
  end.

Fixpoint byte_values (s : string) : list value :=
  match s with
  | EmptyString => []
  | String c r => VInt (Z.of_nat (nat_of_ascii c)) :: byte_values r
  end.

(** The items a [for] loop takes out of an object. *)
Definition py_iter (x : value) : outcome (list value) :=
  match x with
  | VList l => Ok l
  | VDict d => Ok (map (fun kv => VStr (fst kv)) d)
  | VStr s => Ok (chars s)
  | VBytes s => Ok (byte_values s)
  | VModel _ fields => Ok (map (fun kv => VList [VStr (fst kv); snd kv]) fields)
  | _ => Err (Exn TypeError "object is not iterable")
  end.

(** [a, b = x] *)
Definition unpack2 (x : value) : outcome (value * value) :=
  match py_iter x with
  | Ok [a; b] => Ok (a, b)
  | Ok _ => Err (Exn ValueError "wrong number of values to unpack")
  | Err e => Err e
  end.

(** [a + b] on two strings *)
Definition py_concat (a b : value) : outcome value :=
  match a, b with
  | VStr s, VStr t => Ok (VStr (s ++ t))
  | _, _ => Err (Exn TypeError "can only concatenate str to str")
  end.

Definition is_space (c : ascii) : bool :=
  let n := nat_of_ascii c in
  (n =? 32)%nat || ((9 <=? n)%nat && (n <=? 13)%nat).

Fixpoint lstrip (s : string) : string :=
  match s with
  | EmptyString => EmptyString
  | String c r => if is_space c then lstrip r else s
  end.

Fixpoint rstrip (s : string) : string :=
  match s with
  | EmptyString => EmptyString
  | String c r =>
      match rstrip r with
      | EmptyString => if is_space c then EmptyString else String c EmptyString
      | r' => String c r'
      end
  end.

(** [s.strip()] *)
Definition strip (s : string) : string := rstrip (lstrip s).

(** [s.replace(" ", "-")] *)
Fixpoint replace_space_dash (s : string) : string :=
  match s with
  | EmptyString => EmptyString
  | String c r =>
      String (if Ascii.eqb c " "%char then "-"%char else c) (replace_space_dash r)
  end.

(* ================================================================== *)
(** ** Session state, outside calls and programs *)

(** [streamlit_utils.SessionState], the fields the script uses. *)
Record SessionState := {
  run_id : value;
  input_data : value;
  output_data : value;
  latest_operation_input : value
}.

Definition set_input_data (s : SessionState) (d : value) : SessionState :=
  {| run_id := run_id s; input_data := d; output_data := output_data s;
     latest_operation_input := latest_operation_input s |}.

Definition set_output_data (s : SessionState) (o : value) : SessionState :=
  {| run_id := run_id s; input_data := input_data s; output_data := o;
     latest_operation_input := latest_operation_input s |}.

Definition set_latest_operation_input (s : SessionState) (i : value) : SessionState :=
  {| run_id := run_id s; input_data := input_data s; output_data := output_data s;
     latest_operation_input := i |}.

(** Where a widget goes: the page, the sidebar, or an object a former call
    returned (a column, a placeholder). *)
Inductive st_app :=
| St
| Sidebar
| Handle (h : value).

(** What the script asks of the outside. *)
Inductive call :=
| Widget (app : st_app) (method : string) (args : list value) (kwargs : dict)
| WithEnter (cm : value)
| WithExit (cm : value)
| Invoke (input : value)
| Log (message : string).

(** The outside: it answers a call with a value or raises. *)
Definition env := call -> outcome value.

Inductive prog (A : Type) : Type :=
| Ret (a : A)
| Raise (e : exn)
| Ext (c : call) (k : outcome value -> prog A)
| Get (k : SessionState -> prog A)
| Put (s : SessionState) (k : prog A).
Arguments Ret {A} a.
Arguments Raise {A} e.
Arguments Ext {A} c k.
Arguments Get {A} k.
Arguments Put {A} s k.

Fixpoint bind {A B : Type} (p : prog A) (f : A -> prog B) : prog B :=
  match p with
  | Ret a => f a
  | Raise e => Raise e
  | Ext c k => Ext c (fun r => bind (k r) f)
  | Get k => Get (fun s => bind (k s) f)
  | Put s k => Put s (bind k f)
  end.

(** The outcome of a block, with its exception held as a value. *)
Fixpoint reify {A : Type} (p : prog A) : prog (outcome A) :=
  match p with
  | Ret a => Ret (Ok a)
  | Raise e => Ret (Err e)
  | Ext c k => Ext c (fun r => reify (k r))
  | Get k => Get (fun s => reify (k s))
  | Put s k => Put s (reify k)
  end.

Definition lift {A : Type} (r : outcome A) : prog A :=
  match r with
  | Ok a => Ret a
  | Err e => Raise e
  end.

Declare Scope prog_scope.
Delimit Scope prog_scope with prog.
Notation "x <- c1 ;; c2" := (bind c1 (fun x => c2))
  (at level 61, c1 at next level, right associativity) : prog_scope.
Notation "' pat <- c1 ;; c2" := (bind c1 (fun x => match x with pat => c2 end))
  (at level 61, pat pattern, c1 at next level, right associativity) : prog_scope.
Notation "c1 ;; c2" := (bind c1 (fun _ => c2))
  (at level 61, right associativity) : prog_scope.
Open Scope prog_scope.

(** [try: body except Exception: handler] *)
Definition try_except {A : Type} (body : prog A) (handler : exn -> prog A) : prog A :=
  r <- reify body ;;
  match r with
  | Ok a => Ret a
  | Err e => if is_Exception e then handler e else Raise e
  end.

(** [try: body except ValidationError as ex: handler] *)
Definition try_except_ValidationError {A : Type} (body : prog A)
           (handler : exn -> prog A) : prog A :=
  r <- reify body ;;
  match r with
  | Ok a => Ret a
  | Err e => if is_ValidationError e then handler e else Raise e
  end.

Definition ext (c : call) : prog value := Ext c lift.

Definition widget (app : st_app) (method : string) (args : list value)
           (kwargs : dict) : prog value :=
  ext (Widget app method args kwargs).

(** [logger.exception(message)] *)
Definition log (message : string) : prog unit :=
  Ext (Log message) (fun _ => Ret tt).

(** [with cm: body] *)
Definition with_ {A : Type} (cm : value) (body : prog A) : prog A :=
  ext (WithEnter cm) ;;
  r <- reify body ;;
  ext (WithExit cm) ;;
  lift r.

Definition when (b : bool) (p : prog value) : prog unit :=
  if b then (p ;; Ret tt) else Ret tt.

Fixpoint foldM {A B : Type} (f : B -> A -> prog B) (l : list A) (acc : B) : prog B :=
  match l with
  | [] => Ret acc
  | x :: r => acc' <- f acc x ;; foldM f r acc'
  end.

(** Running a program: the outcome, the session state it leaves and the
    calls it made, in order. *)
Fixpoint interp {A : Type} (w : env) (p : prog A) (s : SessionState)
  : outcome A * SessionState * list call :=
  match p with
  | Ret a => (Ok a, s, [])
  | Raise e => (Err e, s, [])
  | Ext c k =>
      let '(r, s', t) := interp w (k (w c)) s in
      (r, s', c :: t)
  | Get k => interp w (k s) s
  | Put s' k => interp w k s'
  end.

(** Running one program after another: the second starts in the state the
    first left, and the calls add up. *)
Definition run_then {A B : Type} (x : outcome A * SessionState * list call)
           (f : A -> SessionState -> outcome B * SessionState * list call)
  : outcome B * SessionState * list call :=
  let '(r, s, t) := x in
  match r with
  | Ok a => let '(r', s', t') := f a s in (r', s', (t ++ t')%list)
  | Err e => (Err e, s, t)
  end.

Definition trace_of {A : Type} (x : outcome A * SessionState * list call) : list call :=
  snd x.

Definition state_of {A : Type} (x : outcome A * SessionState * list call) : SessionState :=
  snd (fst x).

Definition outcome_of {A : Type} (x : outcome A * SessionState * list call) : outcome A :=
  fst (fst x).

(** The same for a value computed without effects. *)
Definition obind {A B : Type} (r : outcome A) (f : A -> outcome B) : outcome B :=
  match r with
  | Ok a => f a
  | Err e => Err e
  end.

Notation "'let?' x := c1 'in' c2" := (obind c1 (fun x => c2))
  (at level 61, x name, c1 at next level, right associativity).

(* ================================================================== *)
(** ** What the module imports *)

(** [opyrator.ui.schema_utils] *)
Class SchemaUtils := {
  is_single_enum_property : dict -> value -> bool;
  is_multi_enum_property : dict -> value -> bool;
  is_single_file_property : dict -> bool;
  is_multi_file_property : dict -> bool;
  is_single_datetime_property : dict -> bool;
  is_single_boolean_property : dict -> bool;
  is_single_dict_property : dict -> bool;
  is_single_number_property : dict -> bool;
  is_single_string_property : dict -> bool;
  is_single_object : dict -> value -> bool;
  is_object_list_property : dict -> value -> bool;
  is_property_list : dict -> bool;
  is_single_reference : dict -> bool;
  resolve_reference : value -> value -> outcome value;
  get_single_reference_item : dict -> value -> outcome value
}.

(** A [render_output_ui] method: the parameter names [inspect.signature]
    reports (if it reports any) and what the method does, given the
    streamlit object and the [input] argument when it is passed. *)
Record OutputRenderer := {
  signature : option (list string);
  render_output : st_app -> option value -> prog unit
}.

(** Builtins and libraries: [str], [opyrator.core.name_to_title],
    [streamlit_utils], [mimetypes], [datetime], [fastapi], [pandas] and the
    methods of pydantic models and of the objects streamlit hands out;
    [render_output_ui x] is the method of that name of [x], if [x] has one. *)
Class Runtime := {
  py_str : value -> string;
  name_to_title : string -> string;
  CUSTOM_STREAMLIT_CSS : string;
  session_clear : SessionState -> SessionState;
  guess_extension : value -> outcome value;
  time_fromisoformat : value -> outcome value;
  date_fromisoformat : value -> outcome value;
  datetime_fromisoformat : value -> outcome value;
  datetime_date : value -> outcome value;
  datetime_time : value -> outcome value;
  datetime_combine : value -> value -> outcome value;
  jsonable_encoder : value -> outcome value;
  DataFrame : value -> outcome value;
  model_schema : value -> outcome value;
  model_dict : value -> outcome value;
  model_json : value -> outcome value;
  enum_value : value -> outcome value;
  as_bytes : value -> outcome value;
  render_output_ui : value -> option OutputRenderer
}.

(** A pydantic input class: its schema by alias, its [render_input_ui] if
    it has one, and [parse_obj_as] at this class. *)
Record InputClass := {
  schema : dict;
  render_input_ui : option (st_app -> value -> prog value);
  parse_obj_as : value -> outcome value
}.

Record Opyrator := {
  name : string;
  description : value;
  input_type : InputClass
}.

(* ================================================================== *)
(** ** The module *)

Section StreamlitUI.

Context `{SchemaUtils} `{Runtime}.

Definition function_has_named_arg (func : OutputRenderer) (parameter : string) : bool :=
  match signature func with
  | Some params => existsb (String.eqb "input") params
  | None => false
  end.

Definition has_output_ui_renderer (data_item : value) : bool :=
  match render_output_ui data_item with
  | Some _ => true
  | None => false
  end.

Definition has_input_ui_renderer (input_class : InputClass) : bool :=
  match render_input_ui input_class with
  | Some _ => true
  | None => false
  end.

Definition in_strs (x : value) (l : list string) : bool :=
  existsb (fun s => str_is s x) l.

Definition is_compatible_audio (mime_type : value) : bool :=
  in_strs mime_type ["audio/mpeg"; "audio/ogg"; "audio/wav"].

Definition is_compatible_image (mime_type : value) : bool :=
  in_strs mime_type ["image/png"; "image/jpeg"].

Definition is_compatible_video (mime_type : value) : bool :=
  in_strs mime_type ["video/mp4"].

(* ------------------------------------------------------------------ *)
(** *** InputUI *)

Record InputUI := {
  _input_class : InputClass;
  _schema_properties : value;
  _schema_references : value
}.

Definition InputUI_init (input_class : InputClass) : InputUI :=
  {| _input_class := input_class;
     _schema_properties :=
       match dict_get "properties" (schema input_class) with
       | Some v => v
       | None => VDict []
       end;
     _schema_references :=
       match dict_get "definitions" (schema input_class) with
       | Some v => v
       | None => VDict []
       end |}.

(** A value that is used as a property: [property.get] needs a dict. *)
Definition as_dict (x : value) : outcome dict :=
  match x with
  | VDict d => Ok d
  | _ => Err (Exn AttributeError "get")
  end.

(** The dict [_get_default_streamlit_input_kwargs] builds, given the
    session's run id. *)
Definition default_streamlit_input_kwargs (run_id : value) (key : string)
           (property : dict) : dict :=
  let streamlit_kwargs :=
    [("label", dict_get_default "title" property);
     ("key", VStr (py_str run_id ++ "-" ++ key))] in
  if truthy (dict_get_default "description" property)
  then dict_set "help" (dict_get_default "description" property) streamlit_kwargs
  else streamlit_kwargs.

Definition _get_default_streamlit_input_kwargs (key : string) (property : dict)
  : prog dict :=
  Get (fun s => Ret (default_streamlit_input_kwargs (run_id s) key property)).

Definition _store_value (key : string) (v : value) : prog unit :=
  Get (fun s =>
    let '(r, d) := store_elements (split_dot key) v (input_data s) in
    Put (set_input_data s d) (lift r)).

Definition _get_value (key : string) : prog value :=
  Get (fun s =>
    let '(r, d) := get_elements (split_dot key) (input_data s) in
    Put (set_input_data s d) (lift r)).

(** A change made in place to the object [_get_value key] returned: that
    object is the one inside the session's input data. *)
Definition update_stored (key : string) (v : value) : prog unit :=
  Get (fun s =>
    Put (set_input_data s (snd (store_elements (split_dot key) v (input_data s))))
        (Ret tt)).

(** What the object [_get_value key] returned looks like now: it is the
    one inside the session's input data, and shows what was changed in it
    since. *)
Definition view_stored (key : string) (stored : value) : prog value :=
  Get (fun s =>
    Ret (match lookup_path (split_dot key) (input_data s) with
         | Some x => x
         | None => stored
         end)).

(** [streamlit_kwargs["value"] = parse(property.get("default"))] under
    [try ... except Exception: pass], when the default is set *)
Definition default_from (parse : value -> outcome value) (property : dict)
           (streamlit_kwargs : dict) : prog dict :=
  if truthy (dict_get_default "default" property)
  then try_except
         (v <- lift (parse (dict_get_default "default" property)) ;;
          Ret (dict_set "value" v streamlit_kwargs))
         (fun _ => Ret streamlit_kwargs)
  else Ret streamlit_kwargs.

Definition _render_single_datetime_input (streamlit_app : st_app) (key : string)
           (property : dict) : prog value :=
  streamlit_kwargs <- _get_default_streamlit_input_kwargs key property ;;
  if str_is "time" (dict_get_default "format" property) then
    streamlit_kwargs <- default_from time_fromisoformat property streamlit_kwargs ;;
    widget streamlit_app "time_input" [] streamlit_kwargs
  else if str_is "date" (dict_get_default "format" property) then
    streamlit_kwargs <- default_from date_fromisoformat property streamlit_kwargs ;;
    widget streamlit_app "date_input" [] streamlit_kwargs
  else if str_is "date-time" (dict_get_default "format" property) then
    streamlit_kwargs <- default_from datetime_fromisoformat property streamlit_kwargs ;;
    cm <- widget St "beta_container" [] [] ;;
    with_ cm
      (widget St "subheader" [dict_get_default "label" streamlit_kwargs] [] ;;
       when (truthy (dict_get_default "description" streamlit_kwargs))
            (widget St "text" [dict_get_default "description" streamlit_kwargs] []) ;;
       cols <- widget St "beta_columns" [VInt 2] [] ;;
       '(date_col, time_col) <- lift (unpack2 cols) ;;
       selected_date <-
         with_ date_col
           (let date_kwargs := [("label", VStr "Date"); ("key", VStr (key ++ "-date-input"))] in
            date_kwargs <-
              (if truthy (dict_get_default "value" streamlit_kwargs)
               then try_except
                      (d <- lift (datetime_date (dict_get_default "value" streamlit_kwargs)) ;;
                       Ret (dict_set "value" d date_kwargs))
                      (fun _ => Ret date_kwargs)
               else Ret date_kwargs) ;;
            widget St "date_input" [] date_kwargs) ;;
       selected_time <-
         with_ time_col
           (let time_kwargs := [("label", VStr "Time"); ("key", VStr (key ++ "-time-input"))] in
            time_kwargs <-
              (if truthy (dict_get_default "value" streamlit_kwargs)
               then try_except
                      (d <- lift (datetime_time (dict_get_default "value" streamlit_kwargs)) ;;
                       Ret (dict_set "value" d time_kwargs))
                      (fun _ => Ret time_kwargs)
               else Ret time_kwargs) ;;
            widget St "time_input" [] time_kwargs) ;;
       lift (datetime_combine selected_date selected_time))
  else
    widget streamlit_app "warning"
      [VStr ("Date format is not supported: " ++ py_str (dict_get_default "format" property))] [] ;;
    Ret VNone.

(** [uploaded_file.getvalue()] and [uploaded_file.read()] *)
Definition file_bytes (uploaded_file : value) : outcome value :=
  match uploaded_file with
  | VFile content => Ok (VBytes content)
  | _ => Err (Exn AttributeError "getvalue")
  end.

Definition file_extension_of (property : dict) : prog value :=
  if dict_mem "mime_type" property
  then lift (guess_extension (dict_get_default "mime_type" property))
  else Ret VNone.

Definition _render_single_file_input (streamlit_app : st_app) (key : string)
           (property : dict) : prog value :=
  streamlit_kwargs <- _get_default_streamlit_input_kwargs key property ;;
  file_extension <- file_extension_of property ;;
  uploaded_file <-
    widget streamlit_app "file_uploader" []
      (streamlit_kwargs ++
       [("accept_multiple_files", VBool false); ("type", file_extension)]) ;;
  if is_None uploaded_file then Ret VNone
  else
    bytes <- lift (file_bytes uploaded_file) ;;
    let mime_type := dict_get_default "mime_type" property in
    (if truthy mime_type then
       when (is_compatible_audio mime_type)
            (widget streamlit_app "audio" [bytes] [("format", mime_type)]) ;;
       when (is_compatible_image mime_type)
            (widget streamlit_app "image" [bytes] []) ;;
       when (is_compatible_video mime_type)
            (widget streamlit_app "video" [bytes] [("format", mime_type)])
     else Ret tt) ;;
    Ret bytes.

Definition _render_single_string_input (streamlit_app : st_app) (key : string)
           (property : dict) : prog value :=
  streamlit_kwargs <- _get_default_streamlit_input_kwargs key property ;;
  let streamlit_kwargs :=
    if truthy (dict_get_default "default" property)
    then dict_set "value" (dict_get_default "default" property) streamlit_kwargs
    else if truthy (dict_get_default "example" property)
    then dict_set "value" (dict_get_default "example" property) streamlit_kwargs
    else streamlit_kwargs in
  let maxLength := dict_get_default "maxLength" property in
  let streamlit_kwargs :=
    if negb (is_None maxLength)
    then dict_set "max_chars" maxLength streamlit_kwargs
    else streamlit_kwargs in
  single_line <-
    (if truthy (dict_get_default "format" property) then Ret true
     else
       short <-
         (if negb (is_None maxLength)
          then n <- lift (py_int maxLength) ;; lift (py_lt n (VInt 140))
          else Ret false) ;;
       if (short : bool) then Ret true
       else Ret (truthy (dict_get_default "writeOnly" property))) ;;
  if (single_line : bool) then
    let streamlit_kwargs :=
      if truthy (dict_get_default "writeOnly" property)
      then dict_set "type" (VStr "password") streamlit_kwargs
      else streamlit_kwargs in
    widget streamlit_app "text_input" [] streamlit_kwargs
  else
    widget streamlit_app "text_area" [] streamlit_kwargs.

Section WithSelf.

Variable self : InputUI.

Definition _render_multi_enum_input (streamlit_app : st_app) (key : string)
           (property : dict) : prog value :=
  streamlit_kwargs <- _get_default_streamlit_input_kwargs key property ;;
  items <- lift (py_getitem (VDict property) "items") ;;
  ref <- lift (py_getitem items "$ref") ;;
  reference_item <- lift (resolve_reference ref (_schema_references self)) ;;
  options <- lift (py_getitem reference_item "enum") ;;
  widget streamlit_app "multiselect" [] (streamlit_kwargs ++ [("options", options)]).

Definition _render_single_enum_input (streamlit_app : st_app) (key : string)
           (property : dict) : prog value :=
  streamlit_kwargs <- _get_default_streamlit_input_kwargs key property ;;
  reference_item <- lift (get_single_reference_item property (_schema_references self)) ;;
  streamlit_kwargs <-
    (if negb (is_None (dict_get_default "default" property))
     then try_except
            (enum <- lift (py_getitem reference_item "enum") ;;
             i <- lift (py_index enum (dict_get_default "default" property)) ;;
             Ret (dict_set "index" i streamlit_kwargs))
            (fun _ => Ret streamlit_kwargs)
     else Ret streamlit_kwargs) ;;
  options <- lift (py_getitem reference_item "enum") ;;
  widget streamlit_app "selectbox" [] (streamlit_kwargs ++ [("options", options)]).

(** [value_kwargs] and the widget for a new item of the given JSON type *)
Definition new_value_input (streamlit_app : st_app) (key : string) (type : value)
  : prog value :=
  let value_kwargs := [("label", VStr "Value"); ("key", VStr (key ++ "-new-value"))] in
  if str_is "integer" type then
    widget streamlit_app "number_input" [] (dict_set "value" (VInt 0) value_kwargs)
  else if str_is "number" type then
    widget streamlit_app "number_input" []
      (dict_set "format" (VStr "%f") (dict_set "value" (VFloat 0%float) value_kwargs))
  else
    widget streamlit_app "text_input" [] (dict_set "value" (VStr "") value_kwargs).

(** [current[k] = v] for the key a text input returned *)
Definition py_setitem_value (x k v : value) : outcome value :=
  match k with
  | VStr s => py_setitem x s v
  | _ => Err (Exn TypeError "key is not a string")
  end.

Definition _render_single_dict_input (streamlit_app : st_app) (key : string)
           (property : dict) : prog value :=
  widget streamlit_app "subheader" [dict_get_default "title" property] [] ;;
  when (truthy (dict_get_default "description" property))
       (widget streamlit_app "markdown" [dict_get_default "description" property] []) ;;
  widget streamlit_app "markdown" [VStr "---"] [] ;;
  stored <- _get_value key ;;
  let current_dict := if truthy stored then stored else VDict [] in
  cols <- widget streamlit_app "beta_columns" [VInt 2] [] ;;
  '(key_col, value_col) <- lift (unpack2 cols) ;;
  updated_key <-
    with_ key_col
      (widget streamlit_app "text_input" [VStr "Key"]
         [("value", VStr ""); ("key", VStr (key ++ "-new-key"))]) ;;
  updated_value <-
    with_ value_col
      (additional <- lift (py_getitem (VDict property) "additionalProperties") ;;
       type <- lift (py_get additional "type") ;;
       new_value_input streamlit_app key type) ;;
  widget streamlit_app "markdown" [VStr "---"] [] ;;
  cm <- widget streamlit_app "beta_container" [] [] ;;
  current_dict <-
    with_ cm
      (cols <- widget streamlit_app "beta_columns" [VList [VInt 1; VInt 2]] [] ;;
       '(clear_col, add_col) <- lift (unpack2 cols) ;;
       cleared <-
         with_ clear_col
           (widget streamlit_app "button" [VStr "Clear Items"]
              [("key", VStr (key ++ "-clear-items"))]) ;;
       let current_dict := if truthy cleared then VDict [] else current_dict in
       with_ add_col
         (pressed <- widget streamlit_app "button" [VStr "Add Item"]
                       [("key", VStr (key ++ "-add-item"))] ;;
          if truthy pressed && truthy updated_key then
            current_dict' <- lift (py_setitem_value current_dict updated_key updated_value) ;;
            (if truthy stored && negb (truthy cleared)
             then update_stored key current_dict'
             else Ret tt) ;;
            Ret current_dict'
          else Ret current_dict)) ;;
  widget streamlit_app "write" [current_dict] [] ;;
  Ret current_dict.

Definition _render_multi_file_input (streamlit_app : st_app) (key : string)
           (property : dict) : prog value :=
  streamlit_kwargs <- _get_default_streamlit_input_kwargs key property ;;
  file_extension <- file_extension_of property ;;
  uploaded_files <-
    widget streamlit_app "file_uploader" []
      (streamlit_kwargs ++
       [("accept_multiple_files", VBool true); ("type", file_extension)]) ;;
  if truthy uploaded_files then
    files <- lift (py_iter uploaded_files) ;;
    uploaded_files_bytes <-
      foldM (fun (acc : list value) uploaded_file =>
               b <- lift (file_bytes uploaded_file) ;; Ret (acc ++ [b])%list)
            files [] ;;
    Ret (VList uploaded_files_bytes)
  else Ret (VList []).

Definition _render_single_boolean_input (streamlit_app : st_app) (key : string)
           (property : dict) : prog value :=
  streamlit_kwargs <- _get_default_streamlit_input_kwargs key property ;;
  let streamlit_kwargs :=
    if truthy (dict_get_default "default" property)
    then dict_set "value" (dict_get_default "default" property) streamlit_kwargs
    else streamlit_kwargs in
  widget streamlit_app "checkbox" [] streamlit_kwargs.

(** [number_transform]: [int] or [float] *)
Inductive number_transform :=
| transform_int
| transform_float.

Definition apply_transform (t : number_transform) (x : value) : outcome value :=
  match t with
  | transform_int => py_int x
  | transform_float => py_float x
  end.

Definition number_transform_of (property : dict) : number_transform :=
  if str_is "number" (dict_get_default "type" property)
  then transform_float else transform_int.

(** The step when the schema names none: 1 for [int], 0.01 for [float]. *)
Definition default_step (t : number_transform) : value :=
  match t with
  | transform_int => VInt 1
  | transform_float => VFloat 0.01%float
  end.

(** The four stages of [_render_single_number_input] on its keyword
    arguments: the step, the lower bound, the upper bound and the initial
    value. *)
Definition set_step (number_transform : number_transform) (property : dict)
           (streamlit_kwargs : dict) : outcome dict :=
  if dict_mem "multipleOf" property then
    let? step := apply_transform number_transform (dict_get_default "multipleOf" property) in
    Ok (dict_set "step" step streamlit_kwargs)
  else Ok (dict_set "step" (default_step number_transform) streamlit_kwargs).

Definition set_min_value (number_transform : number_transform) (property : dict)
           (streamlit_kwargs : dict) : outcome dict :=
  let? streamlit_kwargs :=
    (if dict_mem "minimum" property then
       let? m := apply_transform number_transform (dict_get_default "minimum" property) in
       Ok (dict_set "min_value" m streamlit_kwargs)
     else Ok streamlit_kwargs) in
  if dict_mem "exclusiveMinimum" property then
    let? step := py_getitem (VDict streamlit_kwargs) "step" in
    let? sum := py_add (dict_get_default "exclusiveMinimum" property) step in
    let? m := apply_transform number_transform sum in
    Ok (dict_set "min_value" m streamlit_kwargs)
  else Ok streamlit_kwargs.

Definition set_max_value (number_transform : number_transform) (property : dict)
           (streamlit_kwargs : dict) : outcome dict :=
  let? streamlit_kwargs :=
    (if dict_mem "maximum" property then
       let? m := apply_transform number_transform (dict_get_default "maximum" property) in
       Ok (dict_set "max_value" m streamlit_kwargs)
     else Ok streamlit_kwargs) in
  if dict_mem "exclusiveMaximum" property then
    let? step := py_getitem (VDict streamlit_kwargs) "step" in
    let? difference := py_sub (dict_get_default "exclusiveMaximum" property) step in
    let? m := apply_transform number_transform difference in
    Ok (dict_set "max_value" m streamlit_kwargs)
  else Ok streamlit_kwargs.

Definition set_initial_value (number_transform : number_transform) (property : dict)
           (streamlit_kwargs : dict) : outcome dict :=
  if negb (is_None (dict_get_default "default" property)) then
    let? v := apply_transform number_transform (dict_get_default "default" property) in
    Ok (dict_set "value" v streamlit_kwargs)
  else if dict_mem "min_value" streamlit_kwargs then
    Ok (dict_set "value" (dict_get_default "min_value" streamlit_kwargs) streamlit_kwargs)
  else
    match number_transform with
    | transform_int => Ok (dict_set "value" (VInt 0) streamlit_kwargs)
    | transform_float =>
        let? step := py_getitem (VDict streamlit_kwargs) "step" in
        let? v := apply_transform number_transform step in
        Ok (dict_set "value" v streamlit_kwargs)
    end.

(** The keyword arguments [_render_single_number_input] builds, from the
    default ones. *)
Definition number_input_kwargs (property : dict) (streamlit_kwargs : dict)
  : outcome dict :=
  let number_transform := number_transform_of property in
  let streamlit_kwargs :=
    match number_transform with
    | transform_float => dict_set "format" (VStr "%f") streamlit_kwargs
    | transform_int => streamlit_kwargs
    end in
  let? streamlit_kwargs := set_step number_transform property streamlit_kwargs in
  let? streamlit_kwargs := set_min_value number_transform property streamlit_kwargs in
  let? streamlit_kwargs := set_max_value number_transform property streamlit_kwargs in
  set_initial_value number_transform property streamlit_kwargs.

Definition _render_single_number_input (streamlit_app : st_app) (key : string)
           (property : dict) : prog value :=
  streamlit_kwargs <- _get_default_streamlit_input_kwargs key property ;;
  streamlit_kwargs <- lift (number_input_kwargs property streamlit_kwargs) ;;
  if dict_mem "min_value" streamlit_kwargs && dict_mem "max_value" streamlit_kwargs
  then widget streamlit_app "slider" [] streamlit_kwargs
  else widget streamlit_app "number_input" [] streamlit_kwargs.

(** The renderers that descend into a schema call [_render_property]
    again; [render] stands for that call. *)
Section Descend.

Variable render : st_app -> string -> dict -> prog value.

Definition with_fallback_title (property_key : string) (property : dict) : dict :=
  if negb (truthy (dict_get_default "title" property))
  then dict_set "title" (VStr (name_to_title property_key)) property
  else property.

Definition _render_object_input (streamlit_app : st_app) (key : string)
           (property : value) : prog value :=
  properties <- lift (py_getitem property "properties") ;;
  keys <- lift (py_iter properties) ;;
  object_inputs <-
    foldM (fun (object_inputs : dict) property_key =>
             match property_key with
             | VStr property_key =>
                 p <- lift (py_getitem properties property_key) ;;
                 property <- lift (as_dict p) ;;
                 let property := with_fallback_title property_key property in
                 let full_key := key ++ "." ++ property_key in
                 v <- render streamlit_app full_key property ;;
                 Ret (dict_set property_key v object_inputs)
             | _ => Raise (Exn TypeError "indices must be integers")
             end)
          keys [] ;;
  Ret (VDict object_inputs).

Definition _render_single_reference (streamlit_app : st_app) (key : string)
           (property : dict) : prog value :=
  reference_item <- lift (get_single_reference_item property (_schema_references self)) ;;
  reference_item <- lift (as_dict reference_item) ;;
  render streamlit_app key reference_item.

Definition _render_single_object_input (streamlit_app : st_app) (key : string)
           (property : dict) : prog value :=
  let title := dict_get_default "title" property in
  widget streamlit_app "subheader" [title] [] ;;
  when (truthy (dict_get_default "description" property))
       (widget streamlit_app "markdown" [dict_get_default "description" property] []) ;;
  object_reference <- lift (get_single_reference_item property (_schema_references self)) ;;
  _render_object_input streamlit_app key object_reference.

(** The buttons under a list: [Clear Items] empties it, [Add Item] appends
    [item] when [addable]. [aliased] tells that [current_list] is the list
    inside the session's input data, not a new one. *)
Definition clear_or_add (streamlit_app : st_app) (key : string)
           (aliased : bool) (current_list : value) (item : value) (addable : bool)
  : prog value :=
  cm <- widget streamlit_app "beta_container" [] [] ;;
  with_ cm
    (cols <- widget streamlit_app "beta_columns" [VList [VInt 1; VInt 2]] [] ;;
     '(clear_col, add_col) <- lift (unpack2 cols) ;;
     cleared <-
       with_ clear_col
         (widget streamlit_app "button" [VStr "Clear Items"]
            [("key", VStr (key ++ "-clear-items"))]) ;;
     let current_list := if truthy cleared then VList [] else current_list in
     with_ add_col
       (pressed <- widget streamlit_app "button" [VStr "Add Item"]
                     [("key", VStr (key ++ "-add-item"))] ;;
        if truthy pressed && addable then
          current_list' <- lift (py_append current_list item) ;;
          (if aliased && negb (truthy cleared)
           then update_stored key current_list'
           else Ret tt) ;;
          Ret current_list'
        else Ret current_list)).

Definition _render_property_list_input (streamlit_app : st_app) (key : string)
           (property : dict) : prog value :=
  widget streamlit_app "subheader" [dict_get_default "title" property] [] ;;
  when (truthy (dict_get_default "description" property))
       (widget streamlit_app "markdown" [dict_get_default "description" property] []) ;;
  widget streamlit_app "markdown" [VStr "---"] [] ;;
  stored <- _get_value key ;;
  items <- lift (py_getitem (VDict property) "items") ;;
  type <- lift (py_getitem items "type") ;;
  new_value <- new_value_input streamlit_app key type ;;
  widget streamlit_app "markdown" [VStr "---"] [] ;;
  let current_list := if truthy stored then stored else VList [] in
  current_list <-
    clear_or_add streamlit_app key (truthy stored) current_list new_value
      (negb (is_None new_value)) ;;
  widget streamlit_app "write" [current_list] [] ;;
  Ret current_list.

Definition _render_object_list_input (streamlit_app : st_app) (key : string)
           (property : dict) : prog value :=
  widget streamlit_app "subheader" [dict_get_default "title" property] [] ;;
  when (truthy (dict_get_default "description" property))
       (widget streamlit_app "markdown" [dict_get_default "description" property] []) ;;
  widget streamlit_app "markdown" [VStr "---"] [] ;;
  stored <- _get_value key ;;
  items <- lift (py_getitem (VDict property) "items") ;;
  ref <- lift (py_getitem items "$ref") ;;
  object_reference <- lift (resolve_reference ref (_schema_references self)) ;;
  input_data <- _render_object_input streamlit_app key object_reference ;;
  widget streamlit_app "markdown" [VStr "---"] [] ;;
  current_list <- (if truthy stored then view_stored key stored else Ret (VList [])) ;;
  current_list <-
    clear_or_add streamlit_app key (truthy stored) current_list input_data
      (truthy input_data) ;;
  widget streamlit_app "write" [current_list] [] ;;
  Ret current_list.

End Descend.

(** [fuel] bounds the depth of the calls of [_render_property] into
    itself, as the interpreter's recursion limit does. *)
Fixpoint _render_property (fuel : nat) (streamlit_app : st_app) (key : string)
         (property : dict) : prog value :=
  match fuel with
  | O => Raise (Exn RecursionError "maximum recursion depth exceeded")
  | S fuel =>
      if is_single_enum_property property (_schema_references self) then
        _render_single_enum_input streamlit_app key property
      else if is_multi_enum_property property (_schema_references self) then
        _render_multi_enum_input streamlit_app key property
      else if is_single_file_property property then
        _render_single_file_input streamlit_app key property
      else if is_multi_file_property property then
        _render_multi_file_input streamlit_app key property
      else if is_single_datetime_property property then
        _render_single_datetime_input streamlit_app key property
      else if is_single_boolean_property property then
        _render_single_boolean_input streamlit_app key property
      else if is_single_dict_property property then
        _render_single_dict_input streamlit_app key property
      else if is_single_number_property property then
        _render_single_number_input streamlit_app key property
      else if is_single_string_property property then
        _render_single_string_input streamlit_app key property
      else if is_single_object property (_schema_references self) then
        _render_single_object_input (_render_property fuel) streamlit_app key property
      else if is_object_list_property property (_schema_references self) then
        _render_object_list_input (_render_property fuel) streamlit_app key property
      else if is_property_list property then
        _render_property_list_input streamlit_app key property
      else if is_single_reference property then
        _render_single_reference (_render_property fuel) streamlit_app key property
      else
        widget streamlit_app "warning"
          [VStr ("The type of the following property is currently not supported: "
                 ++ py_str (dict_get_default "title" property))] [] ;;
        Raise (Exn Exception "Unsupported property")
  end.

(** What the loop of [render_ui] does under [try] for one key. *)
Definition render_and_store (fuel : nat) (streamlit_app : st_app)
           (property_key : string) (property : dict) : prog unit :=
  v <- _render_property fuel streamlit_app property_key property ;;
  _store_value property_key v.

(** One turn of the loop of [render_ui]. *)
Definition render_ui_property (fuel : nat) (required_properties : value)
           (property_key : string) : prog unit :=
  p <- lift (py_getitem (_schema_properties self) property_key) ;;
  property <- lift (as_dict p) ;;
  let property := with_fallback_title property_key property in
  required <- lift (py_contains required_properties property_key) ;;
  let streamlit_app := if (required : bool) then St else Sidebar in
  try_except
    (render_and_store fuel streamlit_app property_key property)
    (fun _ => Ret tt).

(** The [for] loop of [render_ui] over the given keys. *)
Definition render_ui_loop (fuel : nat) (required_properties : value)
           (keys : list string) : prog unit :=
  foldM (fun _ property_key => render_ui_property fuel required_properties property_key)
        keys tt.

(** [self._input_class.schema(by_alias=True).get("required", [])] *)
Definition required_properties_of : value :=
  match dict_get "required" (schema (_input_class self)) with
  | Some v => v
  | None => VList []
  end.

Definition InputUI_render_ui (fuel : nat) : prog unit :=
  match render_input_ui (_input_class self) with
  | Some render =>
      Get (fun s =>
        m <- render St (input_data s) ;;
        d <- lift (model_dict m) ;;
        Get (fun s' => Put (set_input_data s' d) (Ret tt)))
  | None =>
      let required_properties := required_properties_of in
      properties <- lift (as_dict (_schema_properties self)) ;;
      render_ui_loop fuel required_properties (dict_keys properties)
  end.

End WithSelf.

(* ------------------------------------------------------------------ *)
(** *** OutputUI *)

Record OutputUI := {
  _output_data : value;
  _input_data : value
}.

Definition is_model (x : value) : bool :=
  match x with
  | VModel _ _ => true
  | _ => false
  end.

Definition is_list (x : value) : bool :=
  match x with
  | VList _ => true
  | _ => false
  end.

(** [x.__dict__] of a model instance *)
Definition model_fields (x : value) : outcome dict :=
  match x with
  | VModel _ fields => Ok fields
  | _ => Err (Exn AttributeError "__dict__")
  end.

Definition subheader_and_description (streamlit : st_app) (property_schema : dict)
  : prog unit :=
  widget streamlit "subheader" [dict_get_default "title" property_schema] [] ;;
  when (truthy (dict_get_default "description" property_schema))
       (widget streamlit "markdown" [dict_get_default "description" property_schema] []).

Definition _render_single_text_property (streamlit : st_app) (property_schema : dict)
           (v : value) : prog unit :=
  subheader_and_description streamlit property_schema ;;
  if is_None v || str_is "" v then
    widget streamlit "info" [VStr "No value returned!"] [] ;; Ret tt
  else
    widget streamlit "code" [VStr (py_str v)] [("language", VStr "plain")] ;; Ret tt.

Definition dquote : string := String (ascii_of_nat 34) EmptyString.

Definition download_link (v : value) (filename : string) : string :=
  "<a href=" ++ dquote ++ "data:application/octet-stream;base64," ++ py_str v ++ dquote
  ++ " download=" ++ dquote ++ filename ++ dquote
  ++ "><input type=" ++ dquote ++ "button" ++ dquote
  ++ " value=" ++ dquote ++ "Download File" ++ dquote ++ "></a>".

Definition _render_single_file_property (streamlit : st_app) (property_schema : dict)
           (v : value) : prog unit :=
  subheader_and_description streamlit property_schema ;;
  if is_None v || str_is "" v then
    widget streamlit "info" [VStr "No value returned!"] [] ;; Ret tt
  else
    let finish (file_extension : value) : prog unit :=
      title <- lift (py_getitem (VDict property_schema) "title") ;;
      name <- lift (py_concat title file_extension) ;;
      match name with
      | VStr name =>
          let filename := replace_space_dash (strip (lower name)) in
          widget streamlit "markdown" [VStr (download_link v filename)]
            [("unsafe_allow_html", VBool true)] ;;
          Ret tt
      | _ => Raise (Exn AttributeError "lower")
      end in
    if dict_mem "mime_type" property_schema then
      let mime_type := dict_get_default "mime_type" property_schema in
      guessed <- lift (guess_extension mime_type) ;;
      let file_extension := if truthy guessed then guessed else VStr "" in
      if is_compatible_audio mime_type then
        b <- lift (as_bytes v) ;;
        widget streamlit "audio" [b] [("format", mime_type)] ;; Ret tt
      else if is_compatible_image mime_type then
        b <- lift (as_bytes v) ;;
        widget streamlit "image" [b] [] ;; Ret tt
      else if is_compatible_video mime_type then
        b <- lift (as_bytes v) ;;
        widget streamlit "video" [b] [("format", mime_type)] ;; Ret tt
      else finish file_extension
    else finish (VStr "").

Definition _render_single_complex_property (streamlit : st_app) (property_schema : dict)
           (v : value) : prog unit :=
  subheader_and_description streamlit property_schema ;;
  j <- lift (jsonable_encoder v) ;;
  widget streamlit "json" [j] [] ;;
  Ret tt.

Section WithOutputSelf.

Variable self : OutputUI.

(** The body of the loop of [_render_single_output], for one field;
    [render_single_output] stands for the call of the method on a nested
    model. *)
Definition render_output_field (render_single_output : st_app -> value -> prog unit)
           (streamlit : st_app) (model_properties definitions : value)
           (property_key : string) (output_property_value : value) : prog unit :=
  property_schema <- lift (py_get model_properties property_key) ;;
  title <- lift (py_get property_schema "title") ;;
  property_schema <-
    (if negb (truthy title)
     then lift (py_setitem property_schema "title" (VStr property_key))
     else Ret property_schema) ;;
  match render_output_ui output_property_value with
  | Some renderer => render_output renderer streamlit None
  | None =>
      if is_model output_property_value then
        schema <- lift (as_dict property_schema) ;;
        subheader_and_description streamlit schema ;;
        render_single_output streamlit output_property_value
      else if truthy property_schema then
        schema <- lift (as_dict property_schema) ;;
        if is_single_file_property schema then
          _render_single_file_property streamlit schema output_property_value
        else if is_single_string_property schema
                || is_single_number_property schema
                || is_single_datetime_property schema
                || is_single_boolean_property schema then
          _render_single_text_property streamlit schema output_property_value
        else if truthy definitions && is_single_enum_property schema definitions then
          v <- lift (enum_value output_property_value) ;;
          _render_single_text_property streamlit schema v
        else
          _render_single_complex_property streamlit schema output_property_value
      else Ret tt
  end.

(** [fuel] bounds the depth of nested models, as the recursion limit does. *)
Fixpoint _render_single_output (fuel : nat) (streamlit : st_app) (output_data : value)
  : prog unit :=
  match fuel with
  | O => Raise (Exn RecursionError "maximum recursion depth exceeded")
  | S fuel =>
      custom <-
        try_except
          (match render_output_ui output_data with
           | Some renderer =>
               (if function_has_named_arg renderer "input"
                then render_output renderer streamlit (Some (_input_data self))
                else render_output renderer streamlit None) ;;
               Ret true
           | None => Ret false
           end)
          (fun _ =>
             log "Failed to execute custom render_output_ui function. Using auto-generation instead" ;;
             Ret false) ;;
      if (custom : bool) then Ret tt
      else
        model_schema <- lift (model_schema output_data) ;;
        model_properties <- lift (py_get model_schema "properties") ;;
        definitions <- lift (py_get model_schema "definitions") ;;
        if truthy model_properties then
          fields <- lift (model_fields output_data) ;;
          foldM (fun _ kv =>
                   render_output_field (_render_single_output fuel) streamlit
                     model_properties definitions (fst kv) (snd kv))
                fields tt
        else
          j <- lift (jsonable_encoder output_data) ;;
          widget streamlit "json" [j] [] ;;
          Ret tt
  end.

Definition _render_list_output (streamlit : st_app) (output_data : value) : prog unit :=
  try_except
    (items <- lift (py_iter output_data) ;;
     data_items <-
       foldM (fun (data_items : list value) data_item =>
                match render_output_ui data_item with
                | Some renderer =>
                    render_output renderer streamlit None ;;
                    Ret data_items
                | None =>
                    d <- lift (model_dict data_item) ;;
                    Ret (data_items ++ [d])%list
                end)
             items [] ;;
     frame <- lift (DataFrame (VList data_items)) ;;
     widget streamlit "table" [frame] [] ;;
     Ret tt)
    (fun _ =>
       j <- lift (jsonable_encoder output_data) ;;
       widget streamlit "json" [j] [] ;;
       Ret tt).

(** The [except] branch of [render_ui]. *)
Definition render_ui_fallback (ex : exn) : prog unit :=
  widget St "exception" [VExn ex] [] ;;
  j <- lift (jsonable_encoder (_output_data self)) ;;
  widget St "json" [j] [] ;;
  Ret tt.

Definition OutputUI_render_ui (fuel : nat) : prog unit :=
  try_except
    (if is_model (_output_data self) then
       _render_single_output fuel St (_output_data self)
     else if is_list (_output_data self) then
       _render_list_output St (_output_data self)
     else Ret tt)
    render_ui_fallback.

End WithOutputSelf.

(* ------------------------------------------------------------------ *)
(** *** render_streamlit_ui *)

(** The [if execute_selected:] block. *)
Definition execute_operation (opyrator : Opyrator) : prog unit :=
  cm <- widget St "spinner" [VStr "Executing operation. Please wait..."] [] ;;
  with_ cm
    (try_except_ValidationError
       (Get (fun s =>
          input_data_obj <- lift (parse_obj_as (input_type opyrator) (input_data s)) ;;
          out <- ext (Invoke input_data_obj) ;;
          Get (fun s1 =>
          Put (set_output_data s1 out)
              (Get (fun s2 =>
               Put (set_latest_operation_input s2 input_data_obj) (Ret tt))))))
       (fun ex => widget St "error" [VExn ex] [] ;; Ret tt)).

(** The rule and the [Show JSON Output] button under the output. *)
Definition show_json_section : prog unit :=
  widget St "markdown" [VStr "---"] [] ;;
  show_json <- widget St "empty" [] [] ;;
  pressed <- widget (Handle show_json) "button" [VStr "Show JSON Output"] [] ;;
  if truthy pressed then
    Get (fun s =>
      j <- lift (model_json (output_data s)) ;;
      widget (Handle show_json) "json" [j] [] ;;
      Ret tt)
  else Ret tt.

(** The [if session_state.output_data:] block. *)
Definition render_output_section (fuel : nat) : prog unit :=
  Get (fun s =>
    if truthy (output_data s) then
      OutputUI_render_ui
        {| _output_data := output_data s; _input_data := latest_operation_input s |}
        fuel ;;
      show_json_section
    else Ret tt).

(** From the title to the rule under the input widgets. *)
Definition render_inputs (fuel : nat) (opyrator : Opyrator) : prog unit :=
  let title :=
    if negb (is_substring "opyrator" (lower (name opyrator)))
    then name opyrator ++ " - Opyrator"
    else name opyrator in
  widget St "title" [VStr title] [] ;;
  widget St "markdown" [VStr ("<style>" ++ CUSTOM_STREAMLIT_CSS ++ "</style>")]
    [("unsafe_allow_html", VBool true)] ;;
  when (truthy (description opyrator))
       (widget St "markdown" [description opyrator] []) ;;
  InputUI_render_ui (InputUI_init (input_type opyrator)) fuel ;;
  widget St "markdown" [VStr "---"] [] ;;
  Ret tt.

(** The two buttons; gives [execute_selected]. [st.experimental_rerun]
    does not return: streamlit stops the script there with a
    RerunException, which is how the outside answers the call. The
    [Raise] after the call stands for that when the outside answers
    otherwise, so that no line after the call is run. *)
Definition clear_and_execute_buttons : prog value :=
  cols <- widget St "beta_columns" [VList [VInt 1; VInt 2]] [] ;;
  '(clear_col, execute_col) <- lift (unpack2 cols) ;;
  with_ clear_col
    (pressed <- widget St "button" [VStr "Clear"] [] ;;
     if truthy pressed then
       Get (fun s => Put (session_clear s) (Ret tt)) ;;
       widget St "experimental_rerun" [] [] ;;
       Raise (Exn RerunException "rerun")
     else Ret tt) ;;
  with_ execute_col (widget St "button" [VStr "Execute"] []).

Definition render_streamlit_ui (fuel : nat) (opyrator : Opyrator) : prog unit :=
  render_inputs fuel opyrator ;;
  execute_selected <- clear_and_execute_buttons ;;
  (if truthy execute_selected then execute_operation opyrator else Ret tt) ;;
  render_output_section fuel.

End StreamlitUI.

(* ================================================================== *)
(** ** The order of the dispatch, as a table

    The thirteen shapes a property can have, in the order in which
    [_render_property] is said to try them, each with its predicate and
    its renderer. *)

Inductive shape :=
| single_enum | multi_enum | single_file | multi_file | single_datetime
| single_boolean | single_dict | single_number | single_string
| single_object | object_list | property_list | single_reference.

Definition dispatch_order : list shape :=
  [single_enum; multi_enum; single_file; multi_file; single_datetime;
   single_boolean; single_dict; single_number; single_string;
   single_object; object_list; property_list; single_reference].

Section Dispatch.

Context `{SchemaUtils} `{Runtime}.
Variable self : InputUI.

Definition shape_holds (sh : shape) (property : dict) : bool :=
  match sh with
  | single_enum => is_single_enum_property property (_schema_references self)
  | multi_enum => is_multi_enum_property property (_schema_references self)
  | single_file => is_single_file_property property
  | multi_file => is_multi_file_property property
  | single_datetime => is_single_datetime_property property
  | single_boolean => is_single_boolean_property property
  | single_dict => is_single_dict_property property
  | single_number => is_single_number_property property
  | single_string => is_single_string_property property
  | single_object => is_single_object property (_schema_references self)
  | object_list => is_object_list_property property (_schema_references self)
  | property_list => is_property_list property
  | single_reference => is_single_reference property
  end.

(** The renderer of a shape; [fuel] is what is left for the calls the
    renderer makes back into [_render_property]. *)
Definition shape_renderer (fuel : nat) (sh : shape)
  : st_app -> string -> dict -> prog value :=
  match sh with
  | single_enum => _render_single_enum_input self
  | multi_enum => _render_multi_enum_input self
  | single_file => _render_single_file_input
  | multi_file => _render_multi_file_input
  | single_datetime => _render_single_datetime_input
  | single_boolean => _render_single_boolean_input
  | single_dict => _render_single_dict_input
  | single_number => _render_single_number_input
  | single_string => _render_single_string_input
  | single_object => _render_single_object_input self (_render_property self fuel)
  | object_list => _render_object_list_input self (_render_property self fuel)
  | property_list => _render_property_list_input
  | single_reference => _render_single_reference self (_render_property self fuel)
  end.

(** The first shape of the order whose predicate holds. *)
Definition first_shape (property : dict) : option shape :=
  find (fun sh => shape_holds sh property) dispatch_order.

Definition unsupported_warning (streamlit_app : st_app) (property : dict) : call :=
  Widget streamlit_app "warning"
    [VStr ("The type of the following property is currently not supported: "
           ++ py_str (dict_get_default "title" property))] [].

End Dispatch.

(* ================================================================== *)
(** ** What a renderer may touch

    The input data is keyed at the top by the first segment of a key; a
    renderer working on a key reaches the session state only below that
    segment. *)

Definition head_segment (key : string) : string := hd "" (split_dot key).

(** The entry of a top-level key of the input data. *)
Definition top_get (k : string) (x : value) : option value :=
  match x with
  | VDict d => dict_get k d
  | _ => None
  end.

Definition is_dict (x : value) : bool :=
  match x with
  | VDict _ => true
  | _ => false
  end.

(** [s'] is [s] but for the entry [h] of the input data. *)
Definition same_but (h : string) (s s' : SessionState) : Prop :=
  run_id s' = run_id s
  /\ output_data s' = output_data s
  /\ latest_operation_input s' = latest_operation_input s
  /\ (is_dict (input_data s) = true -> is_dict (input_data s') = true)
  /\ forall k, k <> h -> top_get k (input_data s') = top_get k (input_data s).

Definition touches_only {A : Type} (h : string) (p : prog A) : Prop :=
  forall (w : env) (s : SessionState), same_but h s (state_of (interp w p s)).

(** The call that opens the spinner around the operation. *)
Definition spinner_call : call :=
  Widget St "spinner" [VStr "Executing operation. Please wait..."] [].

(* ================================================================== *)
(** ** Sample instances

    A small world to run the definitions in. *)

Definition sample_state : SessionState :=
  {| run_id := VInt 0; input_data := VDict [];
     output_data := VNone; latest_operation_input := VNone |}.

(** An outside that answers every call with [None]. *)
Definition quiet_env : env := fun _ => Ok VNone.

Definition type_is (t : string) (property : dict) : bool :=
  str_is t (dict_get_default "type" property).

(** A stand-in for schema_utils that looks at the [type] keyword only. *)
Definition sample_schema_utils : SchemaUtils :=
  {| is_single_enum_property := fun _ _ => false;
     is_multi_enum_property := fun _ _ => false;
     is_single_file_property := fun _ => false;
     is_multi_file_property := fun _ => false;
     is_single_datetime_property := fun _ => false;
     is_single_boolean_property := type_is "boolean";
     is_single_dict_property := fun _ => false;
     is_single_number_property := fun p => type_is "integer" p || type_is "number" p;
     is_single_string_property := type_is "string";
     is_single_object := fun _ _ => false;
     is_object_list_property := fun _ _ => false;
     is_property_list := fun p => type_is "array" p;
     is_single_reference := fun _ => false;
     resolve_reference := fun _ _ => Err (Exn KeyError "reference");
     get_single_reference_item := fun _ _ => Err (Exn KeyError "reference") |}.

Definition sample_str (x : value) : string :=
  match x with
  | VStr s => s
  | VNone => "None"
  | VInt 0 => "0"
  | _ => "?"
  end.

Definition sample_runtime : Runtime :=
  {| py_str := sample_str;
     name_to_title := fun s => s;
     CUSTOM_STREAMLIT_CSS := "";
     session_clear := fun s =>
       {| run_id := run_id s; input_data := VDict [];
          output_data := VNone; latest_operation_input := VNone |};
     guess_extension := fun _ => Ok VNone;
     time_fromisoformat := fun x => Ok x;
     date_fromisoformat := fun x => Ok x;
     datetime_fromisoformat := fun x => Ok x;
     datetime_date := fun x => Ok x;
     datetime_time := fun x => Ok x;
     datetime_combine := fun d t => Ok (VList [d; t]);
     jsonable_encoder := fun x => Ok x;
     DataFrame := fun x => Ok x;
     model_schema := fun _ => Ok (VDict []);
     model_dict := fun x =>
       match x with
       | VModel _ fields => Ok (VDict fields)
       | _ => Err (Exn AttributeError "dict")
       end;
     model_json := fun x => Ok x;
     enum_value := fun x => Ok x;
     as_bytes := fun x => Ok x;
     render_output_ui := fun _ => None |}.

(** An input class with a required text field, an optional bounded
    integer and a field of a type no renderer takes. *)
Definition sample_input : InputClass :=
  {| schema :=
       [("title", VStr "Input");
        ("properties",
         VDict [("text", VDict [("type", VStr "string")]);
                ("mystery", VDict [("type", VStr "null")]);
                ("count", VDict [("type", VStr "integer"); ("minimum", VInt 0);
                                 ("maximum", VInt 10)])]);
        ("required", VList [VStr "text"])];
     render_input_ui := None;
     parse_obj_as := fun d =>
       match d with
       | VDict ((k, VStr t) :: _) => Ok (VModel "Input" [(k, VStr t)])
       | _ => Err (Exn ValidationError "field required")
       end |}.

Definition sample_opyrator : Opyrator :=
  {| name := "Echo"; description := VStr "Says it back."; input_type := sample_input |}.

Definition sample_columns : value := VList [VOpaque "column" [VInt 0]; VOpaque "column" [VInt 1]].

(** A user who typed a text, moved the slider and pressed Execute; the
    operation echoes its input. *)
Definition sample_env : env := fun c =>
  match c with
  | Widget _ "button" [VStr "Execute"] _ => Ok (VBool true)
  | Widget _ "button" _ _ => Ok (VBool false)
  | Widget _ "beta_columns" _ _ => Ok sample_columns
  | Widget _ "text_area" _ _ => Ok (VStr "hello")
  | Widget _ "slider" _ _ => Ok (VInt 3)
  | Invoke (VModel _ fields) => Ok (VModel "Output" fields)
  | _ => Ok VNone
  end.

(** The same user, with an operation that gives an empty list. *)
Definition empty_list_env : env := fun c =>
  match c with
  | Invoke _ => Ok (VList [])
  | _ => sample_env c
  end.

(** The same user, who typed nothing. *)
Definition no_text_env : env := fun c =>
  match c with
  | Widget _ "text_area" _ _ => Ok VNone
  | _ => sample_env c
  end.

(** An outside that differs from [sample_env] on a call the script never
    makes. *)
Definition other_env : env := fun c =>
  match c with
  | Log _ => Err (Exn Exception "no log")
  | _ => sample_env c
  end.

(** An integer property with an exclusive lower bound. *)
Definition sample_number_property : dict :=
  [("type", VStr "integer"); ("title", VStr "count");
   ("exclusiveMinimum", VInt 0); ("maximum", VInt 10)].

(** A float property whose exclusive lower bound is 10^17. *)
Definition large_float_property : dict :=
  [("type", VStr "number"); ("title", VStr "mass");
   ("exclusiveMinimum", VFloat 1e17%float)].

(* ================================================================== *)
(** ** The calls of a run *)

(** A call of the operation. *)
Definition is_invoke (c : call) : bool :=
  match c with
  | Invoke _ => true
  | _ => false
  end.

Definition not_invoke (c : call) : bool := negb (is_invoke c).

(** A call to streamlit: a widget, or the entry or exit of a [with]
    block; not the operation and not the logger. *)
Definition is_streamlit_call (c : call) : bool :=
  match c with
  | Widget _ _ _ _ | WithEnter _ | WithExit _ => true
  | _ => false
  end.

(** Every call [p] makes, in any run, satisfies [P]. *)
Definition calls_only {A : Type} (P : call -> bool) (p : prog A) : Prop :=
  forall (w : env) (s : SessionState), forallb P (trace_of (interp w p s)) = true.

(** The calls of the operation among the calls of a run. *)
Definition invocations (t : list call) : list call := filter is_invoke t.

(** [s'] is [s] but for the input data. *)
Definition same_results (s s' : SessionState) : Prop :=
  run_id s' = run_id s
  /\ output_data s' = output_data s
  /\ latest_operation_input s' = latest_operation_input s.

Definition execute_button : call := Widget St "button" [VStr "Execute"] [].

Definition clear_button : call := Widget St "button" [VStr "Clear"] [].

(** A user who pressed Clear; [st.experimental_rerun] stops the script
    with streamlit's RerunException. *)
Definition clear_env : env := fun c =>
  match c with
  | Widget _ "button" [VStr "Clear"] _ => Ok (VBool true)
  | Widget _ "experimental_rerun" _ _ => Err (Exn RerunException "rerun")
  | _ => sample_env c
  end.

(** The sample runtime, with models whose [schema()] raises. *)
Definition broken_schema_runtime : Runtime :=
  {| py_str := sample_str;
     name_to_title := fun s => s;
     CUSTOM_STREAMLIT_CSS := "";
     session_clear := @session_clear sample_runtime;
     guess_extension := fun _ => Ok VNone;
     time_fromisoformat := fun x => Ok x;
     date_fromisoformat := fun x => Ok x;
     datetime_fromisoformat := fun x => Ok x;
     datetime_date := fun x => Ok x;
     datetime_time := fun x => Ok x;
     datetime_combine := fun d t => Ok (VList [d; t]);
     jsonable_encoder := fun x => Ok x;
     DataFrame := fun x => Ok x;
     model_schema := fun _ => Err (Exn ValueError "no schema");
     model_dict := @model_dict sample_runtime;
     model_json := fun x => Ok x;
     enum_value := fun x => Ok x;
     as_bytes := fun x => Ok x;
     render_output_ui := fun _ => None |}.

(** The user of [sample_env], with an operation that raises. *)
Definition failing_env : env := fun c =>
  match c with
  | Invoke _ => Err (Exn ValueError "operation failed")
  | _ => sample_env c
  end.

(** An outside whose text widget stops the script for a rerun. *)
Definition rerun_env : env := fun c =>
  match c with
  | Widget _ "text_area" _ _ => Err (Exn RerunException "rerun")
  | _ => sample_env c
  end.

(** An outside in which no call raises: it answers the call [c] with [h c]. *)
Definition calm (h : call -> value) : env := fun c => Ok (h c).

(** A list of two models for the output. *)
Definition sample_rows : list value :=
  [VModel "Row" [("n", VInt 1)]; VModel "Row" [("n", VInt 2)]].

(** A stand-in for schema_utils in which every reference is to an enum of
    three colours. *)
Definition colour_schema_utils : SchemaUtils :=
  {| is_single_enum_property := fun _ _ => true;
     is_multi_enum_property := fun _ _ => false;
     is_single_file_property := fun _ => false;
     is_multi_file_property := fun _ => false;
     is_single_datetime_property := fun _ => false;
     is_single_boolean_property := fun _ => false;
     is_single_dict_property := fun _ => false;
     is_single_number_property := fun _ => false;
     is_single_string_property := fun _ => false;
     is_single_object := fun _ _ => false;
     is_object_list_property := fun _ _ => false;
     is_property_list := fun _ => false;
     is_single_reference := fun _ => false;
     resolve_reference := fun _ _ => Err (Exn KeyError "reference");
     get_single_reference_item := fun _ _ =>
       Ok (VDict [("enum", VList [VStr "red"; VStr "green"; VStr "blue"])]) |}.

(** A user who touched nothing. *)
Definition idle_env : env := fun c =>
  match c with
  | Widget _ "beta_columns" _ _ => Ok sample_columns
  | _ => Ok VNone
  end.

(** A session that holds the result of a former execution. *)
Definition executed_state : SessionState :=
  {| run_id := VInt 0; input_data := VDict [];
     output_data := VModel "Output" [("text", VStr "old")];
     latest_operation_input := VModel "Input" [("text", VStr "old")] |}.

(* ================================================================== *)
(** ** Keys that part, and what a renderer may touch below its key *)

(** The path [q] parts from the path [ks]: they go together for some
    segments (maybe none) and then differ in one. *)
Definition parts (q ks : list string) : Prop :=
  exists (p : list string) (a b : string) (r r' : list string),
    ks = (p ++ a :: r)%list /\ q = (p ++ b :: r')%list /\ a <> b.

(** [s'] is [s] but for the input data, and there for what lies on the
    path [ks] or below it: the lookup of any key that parts from [ks]
    returns in [s'] what it returns in [s]. *)
Definition same_apart (ks : list string) (s s' : SessionState) : Prop :=
  run_id s' = run_id s
  /\ output_data s' = output_data s
  /\ latest_operation_input s' = latest_operation_input s
  /\ forall q, parts q ks ->
               fst (get_elements q (input_data s')) = fst (get_elements q (input_data s)).

Definition touches_apart {A : Type} (ks : list string) (p : prog A) : Prop :=
  forall (w : env) (s : SessionState), same_apart ks s (state_of (interp w p s)).

(* ================================================================== *)
(** ** Runs that do not look at what the logger returns *)

Definition is_log (c : call) : bool :=
  match c with
  | Log _ => true
  | _ => false
  end.

(** [p] runs alike against two outsides that differ only in what they
    answer to the logger. *)
Definition log_blind {A : Type} (p : prog A) : Prop :=
  forall (w w' : env) (s : SessionState),
    (forall c, is_log c = false -> w c = w' c) ->
    interp w p s = interp w' p s.

(** The sample runtime, with output models that have a [render_output_ui]
    of their own, which raises. *)
Definition failing_renderer_runtime : Runtime :=
  {| py_str := sample_str;
     name_to_title := fun s => s;
     CUSTOM_STREAMLIT_CSS := "";
     session_clear := @session_clear sample_runtime;
     guess_extension := fun _ => Ok VNone;
     time_fromisoformat := fun x => Ok x;
     date_fromisoformat := fun x => Ok x;
     datetime_fromisoformat := fun x => Ok x;
     datetime_date := fun x => Ok x;
     datetime_time := fun x => Ok x;
     datetime_combine := fun d t => Ok (VList [d; t]);
     jsonable_encoder := fun x => Ok x;
     DataFrame := fun x => Ok x;
     model_schema := fun _ => Ok (VDict []);
     model_dict := @model_dict sample_runtime;
     model_json := fun x => Ok x;
     enum_value := fun x => Ok x;
     as_bytes := fun x => Ok x;
     render_output_ui := fun _ =>
       Some {| signature := Some ["streamlit"];
               render_output := fun _ _ => Raise (Exn ValueError "no renderer") |} |}.

(** The user of [sample_env], with an operation that answers otherwise. *)
Definition other_operation_env : env := fun c =>
  match c with
  | Invoke _ => Ok (VModel "Output" [("text", VStr "something else")])
  | _ => sample_env c
  end.

(* ================================================================== *)
(** * Properties *)

Open Scope list_scope.

(** ** Dicts and key paths *)

Lemma dict_get_set_eq (k : string) (v : value) (d : dict) :
  dict_get k (dict_set k v d) = Some v.
Proof.
  induction d as [|[k' v'] r IH]; simpl.
  - now rewrite String.eqb_refl.
  - destruct (String.eqb k k') eqn:E; simpl.
    + now rewrite String.eqb_refl.
    + now rewrite E.
Qed.

Lemma dict_get_set_ne (k k' : string) (v : value) (d : dict) :
  k <> k' -> dict_get k' (dict_set k v d) = dict_get k' d.
Proof.
  intros Hne. induction d as [|[k0 v0] r IH]; simpl.
  - destruct (String.eqb k' k) eqn:E; [|reflexivity].
    apply String.eqb_eq in E. congruence.
  - destruct (String.eqb k k0) eqn:E; simpl.
    + apply String.eqb_eq in E. subst k0.
      destruct (String.eqb k' k) eqn:E'; [|reflexivity].
      apply String.eqb_eq in E'. congruence.
    + now rewrite IH.
Qed.

Lemma dict_set_set (k : string) (u v : value) (d : dict) :
  dict_set k v (dict_set k u d) = dict_set k v d.
Proof.
  induction d as [|[k' v'] r IH]; simpl.
  - now rewrite String.eqb_refl.
  - destruct (String.eqb k k') eqn:E; simpl.
    + now rewrite String.eqb_refl.
    + now rewrite E, IH.
Qed.

Lemma dict_set_same (k : string) (v : value) (d : dict) :
  dict_get k d = Some v -> dict_set k v d = d.
Proof.
  induction d as [|[k' v'] r IH]; simpl; [discriminate|].
  destruct (String.eqb k k') eqn:E.
  - apply String.eqb_eq in E. subst k'. intros [= ->]. reflexivity.
  - intros Hg. now rewrite IH.
Qed.

Lemma dict_mem_set (k : string) (v : value) (d : dict) :
  dict_mem k (dict_set k v d) = true.
Proof. unfold dict_mem. now rewrite dict_get_set_eq. Qed.

Lemma split_dot_nonempty (s : string) : split_dot s <> [].
Proof.
  destruct s as [|c r]; simpl; [discriminate|].
  destruct (Ascii.eqb c "."%char); [discriminate|].
  destruct (split_dot r); discriminate.
Qed.

Lemma prefixes_ok_empty_dict (ks : list string) : prefixes_ok ks (VDict []) = true.
Proof. destruct ks as [|k [|k2 r]]; reflexivity. Qed.

Lemma store_elements_step (k k2 : string) (rest : list string) (v x : value) :
  store_elements (k :: k2 :: rest) v x =
  match py_contains x k with
  | Err e => (Err e, x)
  | Ok present =>
      match (if present then Ok x else py_setitem x k (VDict [])) with
      | Err e => (Err e, x)
      | Ok x1 =>
          match py_getitem x1 k with
          | Err e => (Err e, x1)
          | Ok child =>
              let '(r, child') := store_elements (k2 :: rest) v child in
              match x1 with
              | VDict d => (r, VDict (dict_set k child' d))
              | _ => (r, x1)
              end
          end
      end
  end.
Proof. reflexivity. Qed.

Lemma get_elements_step (k k2 : string) (rest : list string) (x : value) :
  get_elements (k :: k2 :: rest) x =
  match py_contains x k with
  | Err e => (Err e, x)
  | Ok present =>
      match (if present then Ok x else py_setitem x k (VDict [])) with
      | Err e => (Err e, x)
      | Ok x1 =>
          match py_getitem x1 k with
          | Err e => (Err e, x1)
          | Ok child =>
              let '(r, child') := get_elements (k2 :: rest) child in
              match x1 with
              | VDict d => (r, VDict (dict_set k child' d))
              | _ => (r, x1)
              end
          end
      end
  end.
Proof. reflexivity. Qed.

(** On a path whose prefixes are dicts, the store succeeds and a lookup
    of the same path in the result gives the value back and changes
    nothing. *)
Lemma store_get_elements (ks : list string) (v : value) :
  forall x, ks <> [] -> prefixes_ok ks x = true ->
  exists x', store_elements ks v x = (Ok tt, x')
             /\ get_elements ks x' = (Ok v, x').
Proof.
  induction ks as [|k rest IH]; intros x Hne Hok; [congruence|].
  destruct x; simpl in Hok; try discriminate.
  destruct rest as [|k2 rest].
  - eexists. split; [reflexivity|].
    simpl. rewrite dict_mem_set, dict_get_set_eq. reflexivity.
  - rewrite store_elements_step. cbn [py_contains].
    unfold dict_mem. destruct (dict_get k d) as [y|] eqn:Hg.
    + destruct (IH y ltac:(discriminate) Hok) as (y' & Hs & Hgt).
      cbn [py_getitem]. rewrite Hg, Hs.
      eexists. split; [reflexivity|].
      rewrite get_elements_step. cbn [py_contains]. rewrite dict_mem_set.
      cbn [py_getitem]. rewrite dict_get_set_eq, Hgt, dict_set_set. reflexivity.
    + destruct (IH (VDict []) ltac:(discriminate) (prefixes_ok_empty_dict _))
        as (y' & Hs & Hgt).
      cbn [py_setitem py_getitem]. rewrite dict_get_set_eq, Hs.
      eexists. split; [reflexivity|].
      rewrite get_elements_step. cbn [py_contains]. rewrite dict_mem_set.
      cbn [py_getitem]. rewrite dict_get_set_eq, Hgt, dict_set_set. reflexivity.
Qed.

(** ** C2 *)

(** C2. Round trip of the nested-key encoding: when every proper prefix of
    the dot-separated key names a dict or nothing in the session's input
    data, [_store_value key v] returns normally and [_get_value key], run
    on the state it leaves, returns exactly [v] (and leaves that state as
    it is). Neither makes an outside call. *)
Theorem store_value_get_value_roundtrip (w : env) (key : string) (v : value)
        (s : SessionState) :
  prefixes_ok (split_dot key) (input_data s) = true ->
  exists s',
    interp w (_store_value key v) s = (Ok tt, s', [])
    /\ interp w (_get_value key) s' = (Ok v, s', []).
Proof.
  intros Hok.
  destruct (store_get_elements (split_dot key) v (input_data s)
              (split_dot_nonempty key) Hok) as (x' & Hs & Hg).
  exists (set_input_data s x'). split.
  - unfold _store_value. simpl. rewrite Hs. reflexivity.
  - unfold _get_value. simpl. rewrite Hg. reflexivity.
Qed.

Lemma store_value_get_value_roundtrip_witness :
  exists s',
    interp quiet_env (_store_value "a.b" (VInt 7)) sample_state = (Ok tt, s', [])
    /\ interp quiet_env (_get_value "a.b") s' = (Ok (VInt 7), s', []).
Proof.
  apply (store_value_get_value_roundtrip quiet_env "a.b" (VInt 7) sample_state).
  reflexivity.
Defined.

(** ** C8 *)

Lemma get_elements_fresh (ks : list string) :
  ks <> [] ->
  get_elements ks (VDict []) = (Ok VNone, fresh_chain (removelast ks)).
Proof.
  induction ks as [|k rest IH]; intros Hne; [congruence|].
  destruct rest as [|k2 rest]; [reflexivity|].
  rewrite get_elements_step.
  change (py_contains (VDict []) k) with (@Ok bool false).
  cbn iota. cbn [py_setitem py_getitem].
  rewrite dict_get_set_eq, IH by discriminate.
  rewrite dict_set_set. reflexivity.
Qed.

Lemma removelast_app_cons (a : string) (p q : list string) :
  q <> [] -> removelast ((a :: p) ++ q) = a :: removelast (p ++ q).
Proof.
  intros Hq. simpl. destruct (p ++ q) eqn:E; [|reflexivity].
  apply app_eq_nil in E. tauto.
Qed.

Lemma lookup_path_fresh_chain (p q : list string) :
  q <> [] ->
  lookup_path p (fresh_chain (removelast (p ++ q))) = Some (fresh_chain (removelast q)).
Proof.
  intros Hq. induction p as [|a p IH]; [reflexivity|].
  rewrite removelast_app_cons by assumption.
  simpl. rewrite String.eqb_refl. exact IH.
Qed.

(** What [get_elements] does on a path whose prefixes are dicts. *)
Lemma get_elements_spec (ks : list string) :
  forall x, ks <> [] -> prefixes_ok ks x = true ->
  exists r x',
    get_elements ks x = (Ok r, x')
    /\ (lookup_path ks x = None -> r = VNone)
    /\ (forall y, lookup_path ks x = Some y -> r = y /\ x' = x)
    /\ (forall p q, ks = (p ++ q)%list -> q <> [] -> lookup_path p x = None ->
        lookup_path p x' = Some (fresh_chain (removelast q)))
    /\ (forall p q, ks = (p ++ q)%list -> q <> [] ->
        exists d, lookup_path p x' = Some (VDict d)).
Proof.
  induction ks as [|k rest IH]; intros x Hne Hok; [congruence|].
  destruct x; simpl in Hok; try discriminate.
  destruct rest as [|k2 rest].
  - (* the last segment *)
    simpl. unfold dict_mem. destruct (dict_get k d) as [y|] eqn:Hg.
    + exists y, (VDict d). repeat split; try congruence.
      * intros p q E Hq Hn. destruct p as [|a p]; [discriminate|].
        injection E as -> E. destruct p; [|discriminate]. simpl in E. subst q. congruence.
      * intros p q E Hq. destruct p as [|a p]; [simpl; eauto|].
        injection E as -> E. destruct p; [|discriminate]. simpl in E. subst q. congruence.
    + exists VNone, (VDict d). repeat split; try congruence.
      * intros p q E Hq Hn. destruct p as [|a p]; [discriminate|].
        injection E as -> E. destruct p; [|discriminate]. simpl in E. subst q. congruence.
      * intros p q E Hq. destruct p as [|a p]; [simpl; eauto|].
        injection E as -> E. destruct p; [|discriminate]. simpl in E. subst q. congruence.
  - rewrite get_elements_step. cbn [py_contains]. unfold dict_mem.
    change (lookup_path (k :: k2 :: rest) (VDict d))
      with (match dict_get k d with
            | Some y => lookup_path (k2 :: rest) y
            | None => None
            end).
    destruct (dict_get k d) as [y|] eqn:Hg.
    + (* the segment is there: go down *)
      destruct (IH y ltac:(discriminate) Hok) as (r & y' & Hget & Hnone & Hsome & Hnew & Hdict).
      cbn [py_getitem]. rewrite Hg, Hget.
      exists r, (VDict (dict_set k y' d)). split; [reflexivity|].
      split; [exact Hnone|]. split.
      * intros z Hz. destruct (Hsome z Hz) as [-> ->].
        split; [reflexivity|]. now rewrite (dict_set_same _ _ _ Hg).
      * split.
        -- intros p q E Hq Hn. destruct p as [|a p]; [discriminate|].
           injection E as -> E. simpl in Hn. rewrite Hg in Hn.
           simpl. rewrite dict_get_set_eq. eauto.
        -- intros p q E Hq. destruct p as [|a p]; [simpl; eauto|].
           injection E as -> E. simpl. rewrite dict_get_set_eq. eauto.
    + (* the segment is missing: an empty dict goes in, and the rest of
         the walk runs inside it *)
      cbn [py_setitem py_getitem]. rewrite dict_get_set_eq.
      rewrite get_elements_fresh by discriminate.
      exists VNone, (VDict (dict_set k (fresh_chain (removelast (k2 :: rest)))
                              (dict_set k (VDict []) d))).
      split; [reflexivity|]. split; [reflexivity|]. split; [discriminate|]. split.
      * intros p q E Hq Hn. destruct p as [|a p]; [discriminate|].
        injection E as -> E. cbn [lookup_path]. rewrite dict_get_set_eq, E.
        now apply lookup_path_fresh_chain.
      * intros p q E Hq. destruct p as [|a p]; [simpl; eauto|].
        injection E as -> E. cbn [lookup_path]. rewrite dict_get_set_eq, E.
        rewrite lookup_path_fresh_chain by assumption.
        destruct (removelast q); simpl; eauto.
Qed.

Lemma set_input_data_same (s : SessionState) : set_input_data s (input_data s) = s.
Proof. now destruct s. Qed.



(** The lookup of ["a.b.c"] in empty input data leaves [{"a": {"b": {}}}]. *)
Example get_value_absent_nested :
  interp quiet_env (_get_value "a.b.c") sample_state
  = (Ok VNone,
     set_input_data sample_state (VDict [("a", VDict [("b", VDict [])])]),
     []).
Proof. reflexivity. Qed.

(** ** Running programs *)

Lemma interp_bind {A B : Type} (w : env) (p : prog A) (f : A -> prog B) :
  forall s, interp w (bind p f) s = run_then (interp w p s) (fun a s' => interp w (f a) s').
Proof.
  induction p as [a|e|c k IH|k IH|s0 k IH]; intros s; simpl.
  - now destruct (interp w (f a) s) as [[r s'] t].
  - reflexivity.
  - rewrite IH. destruct (interp w (k (w c)) s) as [[r s'] t].
    destruct r as [a|e]; simpl; [|reflexivity].
    now destruct (interp w (f a) s') as [[r' s''] t'].
  - apply IH.
  - apply IH.
Qed.

Lemma interp_reify {A : Type} (w : env) (p : prog A) :
  forall s, interp w (reify p) s =
            let '(r, s', t) := interp w p s in (Ok r, s', t).
Proof.
  induction p as [a|e|c k IH|k IH|s0 k IH]; intros s; simpl; try reflexivity.
  - rewrite IH. now destruct (interp w (k (w c)) s) as [[r s'] t].
  - apply IH.
  - apply IH.
Qed.

Lemma interp_lift {A : Type} (w : env) (r : outcome A) (s : SessionState) :
  interp w (lift r) s = (r, s, []).
Proof. now destruct r. Qed.

Lemma interp_ext (w : env) (c : call) (s : SessionState) :
  interp w (ext c) s = (w c, s, [c]).
Proof. unfold ext. simpl. now rewrite interp_lift. Qed.

Lemma interp_widget (w : env) (app : st_app) (m : string) (args : list value)
      (kw : dict) (s : SessionState) :
  interp w (widget app m args kw) s = (w (Widget app m args kw), s, [Widget app m args kw]).
Proof. apply interp_ext. Qed.

Lemma interp_try_except {A : Type} (w : env) (body : prog A) (handler : exn -> prog A)
      (s : SessionState) :
  interp w (try_except body handler) s =
  let '(r, s', t) := interp w body s in
  match r with
  | Ok a => (Ok a, s', t)
  | Err e =>
      if is_Exception e
      then let '(r', s'', t') := interp w (handler e) s' in (r', s'', t ++ t')
      else (Err e, s', t)
  end.
Proof.
  unfold try_except. rewrite interp_bind, interp_reify.
  destruct (interp w body s) as [[r s'] t]. simpl.
  destruct r as [a|e]; simpl; [now rewrite app_nil_r|].
  destruct (is_Exception e); simpl; [reflexivity|now rewrite app_nil_r].
Qed.

Lemma interp_try_except_ValidationError {A : Type} (w : env) (body : prog A)
      (handler : exn -> prog A) (s : SessionState) :
  interp w (try_except_ValidationError body handler) s =
  let '(r, s', t) := interp w body s in
  match r with
  | Ok a => (Ok a, s', t)
  | Err e =>
      if is_ValidationError e
      then let '(r', s'', t') := interp w (handler e) s' in (r', s'', t ++ t')
      else (Err e, s', t)
  end.
Proof.
  unfold try_except_ValidationError. rewrite interp_bind, interp_reify.
  destruct (interp w body s) as [[r s'] t]. simpl.
  destruct r as [a|e]; simpl; [now rewrite app_nil_r|].
  destruct (is_ValidationError e); simpl; [reflexivity|now rewrite app_nil_r].
Qed.

Lemma interp_with {A : Type} (w : env) (cm : value) (body : prog A) (s : SessionState) :
  interp w (with_ cm body) s =
  match w (WithEnter cm) with
  | Err e => (Err e, s, [WithEnter cm])
  | Ok _ =>
      let '(r, s', t) := interp w body s in
      match w (WithExit cm) with
      | Err e => (Err e, s', WithEnter cm :: t ++ [WithExit cm])
      | Ok _ => (r, s', WithEnter cm :: t ++ [WithExit cm])
      end
  end.
Proof.
  unfold with_. rewrite interp_bind, interp_ext. cbn [run_then].
  destruct (w (WithEnter cm)) as [v|e]; [|reflexivity].
  rewrite interp_bind, interp_reify.
  destruct (interp w body s) as [[r s'] t]. cbn [run_then].
  rewrite interp_bind, interp_ext. cbn [run_then].
  destruct (w (WithExit cm)) as [v'|e]; [|reflexivity].
  rewrite interp_lift. reflexivity.
Qed.

Lemma interp_when (w : env) (b : bool) (p : prog value) (s : SessionState) :
  interp w (when b p) s =
  if b then let '(r, s', t) := interp w p s in
            (match r with Ok _ => Ok tt | Err e => Err e end, s', t)
  else (Ok tt, s, []).
Proof.
  unfold when. destruct b; [|reflexivity].
  rewrite interp_bind. destruct (interp w p s) as [[r s'] t]. simpl.
  destruct r; simpl; [now rewrite app_nil_r|reflexivity].
Qed.

(** ** Runs against two outsides *)

(** A run depends on the outside only through the answers to the calls
    it makes. *)
Lemma interp_agree {A : Type} (p : prog A) :
  forall (w1 w2 : env) (s : SessionState),
    (forall c, In c (trace_of (interp w1 p s)) -> w1 c = w2 c) ->
    interp w1 p s = interp w2 p s.
Proof.
  induction p as [a|e|c k IH|k IH|s0 k IH]; intros w1 w2 s Hagree; simpl in *;
    try reflexivity.
  - assert (Hc : w1 c = w2 c).
    { apply Hagree. destruct (interp w1 (k (w1 c)) s) as [[r s'] t]. now left. }
    rewrite <- Hc.
    rewrite (IH (w1 c) w1 w2 s); [reflexivity|].
    intros c' Hin. apply Hagree.
    destruct (interp w1 (k (w1 c)) s) as [[r s'] t]. now right.
  - now apply IH.
  - now apply IH.
Qed.


(** ** C4 *)

Ltac dispatch_case before after :=
  split; [reflexivity|split; [assumption|]];
  exists before, after; split; [reflexivity|];
  intros sh' Hin; simpl in Hin;
  repeat (destruct Hin as [<-|Hin]; [assumption|]); contradiction.

(** C4. [_render_property], with any depth left, does what the renderer
    of the first shape of [dispatch_order] whose predicate holds does, and
    that shape is the only one it tries whose predicate holds; when no
    predicate holds it makes one call, the warning, and raises. *)
Theorem render_property_dispatch `{SchemaUtils} `{Runtime} (self : InputUI)
        (fuel : nat) (streamlit_app : st_app) (key : string) (property : dict) :
  match first_shape self property with
  | Some sh =>
      _render_property self (S fuel) streamlit_app key property
      = shape_renderer self fuel sh streamlit_app key property
      /\ shape_holds self sh property = true
      /\ exists before after,
           dispatch_order = before ++ sh :: after
           /\ forall sh', In sh' before -> shape_holds self sh' property = false
  | None =>
      (forall sh, shape_holds self sh property = false)
      /\ forall w s, exists e,
           interp w (_render_property self (S fuel) streamlit_app key property) s
           = (Err e, s, [unsupported_warning streamlit_app property])
           /\ (forall v, w (unsupported_warning streamlit_app property) = Ok v ->
               e = Exn Exception "Unsupported property")
  end.
Proof.
  unfold first_shape, dispatch_order. cbn [find shape_holds].
  cbn [_render_property].
  destruct (is_single_enum_property property (_schema_references self)) eqn:E1.
  { dispatch_case (@nil shape) (tl dispatch_order). }
  destruct (is_multi_enum_property property (_schema_references self)) eqn:E2.
  { dispatch_case [single_enum] (skipn 2 dispatch_order). }
  destruct (is_single_file_property property) eqn:E3.
  { dispatch_case (firstn 2 dispatch_order) (skipn 3 dispatch_order). }
  destruct (is_multi_file_property property) eqn:E4.
  { dispatch_case (firstn 3 dispatch_order) (skipn 4 dispatch_order). }
  destruct (is_single_datetime_property property) eqn:E5.
  { dispatch_case (firstn 4 dispatch_order) (skipn 5 dispatch_order). }
  destruct (is_single_boolean_property property) eqn:E6.
  { dispatch_case (firstn 5 dispatch_order) (skipn 6 dispatch_order). }
  destruct (is_single_dict_property property) eqn:E7.
  { dispatch_case (firstn 6 dispatch_order) (skipn 7 dispatch_order). }
  destruct (is_single_number_property property) eqn:E8.
  { dispatch_case (firstn 7 dispatch_order) (skipn 8 dispatch_order). }
  destruct (is_single_string_property property) eqn:E9.
  { dispatch_case (firstn 8 dispatch_order) (skipn 9 dispatch_order). }
  destruct (is_single_object property (_schema_references self)) eqn:E10.
  { dispatch_case (firstn 9 dispatch_order) (skipn 10 dispatch_order). }
  destruct (is_object_list_property property (_schema_references self)) eqn:E11.
  { dispatch_case (firstn 10 dispatch_order) (skipn 11 dispatch_order). }
  destruct (is_property_list property) eqn:E12.
  { dispatch_case (firstn 11 dispatch_order) (skipn 12 dispatch_order). }
  destruct (is_single_reference property) eqn:E13.
  { dispatch_case (firstn 12 dispatch_order) (skipn 13 dispatch_order). }
  split.
  - intros sh. destruct sh; assumption.
  - intros w s. rewrite interp_bind, interp_widget. unfold unsupported_warning.
    destruct (w _) as [v|e] eqn:Ew; cbn [run_then].
    + eexists. split; [reflexivity|]. reflexivity.
    + exists e. split; [reflexivity|]. intros v. discriminate.
Qed.

(** ** C3 *)

Lemma dict_mem_set_ne (k k' : string) (v : value) (d : dict) :
  k <> k' -> dict_mem k' (dict_set k v d) = dict_mem k' d.
Proof. intros Hne. unfold dict_mem. now rewrite dict_get_set_ne. Qed.

Lemma obind_ok {A B : Type} (r : outcome A) (f : A -> outcome B) (b : B) :
  obind r f = Ok b -> exists a, r = Ok a /\ f a = Ok b.
Proof. destruct r as [a|e]; simpl; [eauto|discriminate]. Qed.

Ltac ok_inv H :=
  match type of H with
  | obind _ _ = Ok _ =>
      let a := fresh "a" in
      let Ha := fresh "Ha" in
      apply obind_ok in H; destruct H as (a & Ha & H); ok_inv H
  | Ok _ = Ok _ => injection H as H
  | _ => idtac
  end.

Lemma set_step_ok (t : number_transform) (property kw kw1 : dict) :
  set_step t property kw = Ok kw1 ->
  exists step,
    kw1 = dict_set "step" step kw
    /\ if dict_mem "multipleOf" property
       then apply_transform t (dict_get_default "multipleOf" property) = Ok step
       else step = default_step t.
Proof.
  unfold set_step. destruct (dict_mem "multipleOf" property); intros Hs; ok_inv Hs.
  - eauto.
  - eauto.
Qed.

Lemma set_min_value_ok (t : number_transform) (property kw kw1 : dict) :
  set_min_value t property kw = Ok kw1 ->
  (forall k, k <> "min_value" -> dict_get k kw1 = dict_get k kw)
  /\ if dict_mem "exclusiveMinimum" property
     then exists step sum m,
            dict_get "step" kw = Some step
            /\ py_add (dict_get_default "exclusiveMinimum" property) step = Ok sum
            /\ apply_transform t sum = Ok m
            /\ dict_get "min_value" kw1 = Some m
     else if dict_mem "minimum" property
     then exists m,
            apply_transform t (dict_get_default "minimum" property) = Ok m
            /\ dict_get "min_value" kw1 = Some m
     else kw1 = kw.
Proof.
  unfold set_min_value. intros Hs. apply obind_ok in Hs. destruct Hs as (kwa & Ha & Hs).
  assert (Hka : forall k, k <> "min_value" -> dict_get k kwa = dict_get k kw).
  { intros k Hk. destruct (dict_mem "minimum" property); ok_inv Ha; subst kwa;
      [apply dict_get_set_ne; congruence|reflexivity]. }
  destruct (dict_mem "exclusiveMinimum" property).
  - ok_inv Hs. subst kw1. split.
    + intros k Hk. rewrite dict_get_set_ne by congruence. now apply Hka.
    + unfold py_getitem in Ha0. destruct (dict_get "step" kwa) as [st|] eqn:Est; [|discriminate].
      injection Ha0 as ->. exists a, a0, a1.
      rewrite <- (Hka "step") by discriminate.
      repeat split; try assumption. apply dict_get_set_eq.
  - ok_inv Hs. subst kw1. split; [exact Hka|].
    destruct (dict_mem "minimum" property); ok_inv Ha; subst kwa; [|reflexivity].
    eexists. split; [eassumption|apply dict_get_set_eq].
Qed.

Lemma set_max_value_ok (t : number_transform) (property kw kw1 : dict) :
  set_max_value t property kw = Ok kw1 ->
  (forall k, k <> "max_value" -> dict_get k kw1 = dict_get k kw)
  /\ if dict_mem "exclusiveMaximum" property
     then exists step difference m,
            dict_get "step" kw = Some step
            /\ py_sub (dict_get_default "exclusiveMaximum" property) step = Ok difference
            /\ apply_transform t difference = Ok m
            /\ dict_get "max_value" kw1 = Some m
     else if dict_mem "maximum" property
     then exists m,
            apply_transform t (dict_get_default "maximum" property) = Ok m
            /\ dict_get "max_value" kw1 = Some m
     else kw1 = kw.
Proof.
  unfold set_max_value. intros Hs. apply obind_ok in Hs. destruct Hs as (kwa & Ha & Hs).
  assert (Hka : forall k, k <> "max_value" -> dict_get k kwa = dict_get k kw).
  { intros k Hk. destruct (dict_mem "maximum" property); ok_inv Ha; subst kwa;
      [apply dict_get_set_ne; congruence|reflexivity]. }
  destruct (dict_mem "exclusiveMaximum" property).
  - ok_inv Hs. subst kw1. split.
    + intros k Hk. rewrite dict_get_set_ne by congruence. now apply Hka.
    + unfold py_getitem in Ha0. destruct (dict_get "step" kwa) as [st|] eqn:Est; [|discriminate].
      injection Ha0 as ->. exists a, a0, a1.
      rewrite <- (Hka "step") by discriminate.
      repeat split; try assumption. apply dict_get_set_eq.
  - ok_inv Hs. subst kw1. split; [exact Hka|].
    destruct (dict_mem "maximum" property); ok_inv Ha; subst kwa; [|reflexivity].
    eexists. split; [eassumption|apply dict_get_set_eq].
Qed.

Lemma set_initial_value_ok (t : number_transform) (property kw kw1 : dict) :
  set_initial_value t property kw = Ok kw1 ->
  (forall k, k <> "value" -> dict_get k kw1 = dict_get k kw)
  /\ if negb (is_None (dict_get_default "default" property))
     then exists v,
            apply_transform t (dict_get_default "default" property) = Ok v
            /\ dict_get "value" kw1 = Some v
     else if dict_mem "min_value" kw
     then dict_get "value" kw1 = dict_get "min_value" kw
     else match t with
          | transform_int => dict_get "value" kw1 = Some (VInt 0)
          | transform_float =>
              exists step v,
                dict_get "step" kw = Some step
                /\ py_float step = Ok v
                /\ dict_get "value" kw1 = Some v
          end.
Proof.
  unfold set_initial_value. intros Hs.
  destruct (negb (is_None (dict_get_default "default" property))).
  - ok_inv Hs. subst kw1. split; [intros k Hk; apply dict_get_set_ne; congruence|].
    eexists. split; [eassumption|apply dict_get_set_eq].
  - unfold dict_mem in *. destruct (dict_get "min_value" kw) as [m|] eqn:Em.
    + ok_inv Hs. subst kw1. split; [intros k Hk; apply dict_get_set_ne; congruence|].
      rewrite dict_get_set_eq. unfold dict_get_default. now rewrite Em.
    + destruct t.
      * ok_inv Hs. subst kw1. split; [intros k Hk; apply dict_get_set_ne; congruence|].
        apply dict_get_set_eq.
      * ok_inv Hs. subst kw1. split; [intros k Hk; apply dict_get_set_ne; congruence|].
        unfold py_getitem in Ha. destruct (dict_get "step" kw) as [st|]; [|discriminate].
        injection Ha as ->. exists a, a0. repeat split; try assumption.
        apply dict_get_set_eq.
Qed.

Lemma py_int_is_int (x v : value) : py_int x = Ok v -> exists z, v = VInt z.
Proof.
  destruct x; simpl; try discriminate.
  - intros [= <-]. eauto.
  - intros [= <-]. eauto.
  - destruct (float_trunc f); [intros [= <-]; eauto|].
    destruct (is_nan f); discriminate.
  - destruct (parse_int true s); [intros [= <-]; eauto|discriminate].
  - destruct (parse_int false s); [intros [= <-]; eauto|discriminate].
Qed.

Lemma default_kwargs_no_bounds `{Runtime} (rid : value) (key : string) (property : dict) :
  dict_get "min_value" (default_streamlit_input_kwargs rid key property) = None
  /\ dict_get "max_value" (default_streamlit_input_kwargs rid key property) = None.
Proof.
  unfold default_streamlit_input_kwargs.
  destruct (truthy (dict_get_default "description" property)); split; reflexivity.
Qed.

Lemma interp_get_default_kwargs `{Runtime} (w : env) (key : string) (property : dict)
      (s : SessionState) :
  interp w (_get_default_streamlit_input_kwargs key property) s
  = (Ok (default_streamlit_input_kwargs (run_id s) key property), s, []).
Proof. reflexivity. Qed.

(** C3, as the code has it. When [_render_single_number_input] gets its
    keyword arguments [kw] built,
    - the step is [number_transform(multipleOf)] when the schema has
      [multipleOf], else 1 for [int] and 0.01 for [float];
    - [min_value] is [number_transform(exclusiveMinimum + step)] when the
      schema has [exclusiveMinimum], else [number_transform(minimum)] when
      it has [minimum], else it is not set; [max_value] likewise with
      [exclusiveMaximum - step] and [maximum];
    - with no default in the schema and [min_value] set, the initial
      value is [min_value];
    - for an [int] property with an int [exclusiveMinimum], [min_value] is
      their exact sum, above [exclusiveMinimum] for a positive step; and
      with an int [exclusiveMaximum], [max_value] is the exact difference,
      below it;
    - the one call made is [slider] if both [min_value] and [max_value]
      are set and [number_input] otherwise, with [kw]. *)
Theorem number_input_configuration `{Runtime} (w : env) (streamlit_app : st_app)
        (key : string) (property : dict) (s : SessionState) (kw : dict) :
  number_input_kwargs property (default_streamlit_input_kwargs (run_id s) key property)
  = Ok kw ->
  exists step,
    dict_get "step" kw = Some step
    /\ (if dict_mem "multipleOf" property
        then apply_transform (number_transform_of property)
               (dict_get_default "multipleOf" property) = Ok step
        else step = default_step (number_transform_of property))
    /\ (if dict_mem "exclusiveMinimum" property
        then exists sum m,
               py_add (dict_get_default "exclusiveMinimum" property) step = Ok sum
               /\ apply_transform (number_transform_of property) sum = Ok m
               /\ dict_get "min_value" kw = Some m
        else if dict_mem "minimum" property
        then exists m,
               apply_transform (number_transform_of property)
                 (dict_get_default "minimum" property) = Ok m
               /\ dict_get "min_value" kw = Some m
        else dict_get "min_value" kw = None)
    /\ (if dict_mem "exclusiveMaximum" property
        then exists difference m,
               py_sub (dict_get_default "exclusiveMaximum" property) step = Ok difference
               /\ apply_transform (number_transform_of property) difference = Ok m
               /\ dict_get "max_value" kw = Some m
        else if dict_mem "maximum" property
        then exists m,
               apply_transform (number_transform_of property)
                 (dict_get_default "maximum" property) = Ok m
               /\ dict_get "max_value" kw = Some m
        else dict_get "max_value" kw = None)
    /\ (is_None (dict_get_default "default" property) = true ->
        dict_mem "min_value" kw = true ->
        dict_get "value" kw = dict_get "min_value" kw)
    /\ (number_transform_of property = transform_int ->
        exists st,
          step = VInt st
          /\ (forall m, dict_get "exclusiveMinimum" property = Some (VInt m) ->
              dict_get "min_value" kw = Some (VInt (m + st))
              /\ (0 < st -> m < m + st)%Z)
          /\ (forall m, dict_get "exclusiveMaximum" property = Some (VInt m) ->
              dict_get "max_value" kw = Some (VInt (m - st))
              /\ (0 < st -> m - st < m)%Z))
    /\ interp w (_render_single_number_input streamlit_app key property) s
       = let c := Widget streamlit_app
                    (if dict_mem "min_value" kw && dict_mem "max_value" kw
                     then "slider" else "number_input") [] kw in
         (w c, s, [c]).
Proof.
  intros Hk.
  assert (Hrun : interp w (_render_single_number_input streamlit_app key property) s
                 = let c := Widget streamlit_app
                              (if dict_mem "min_value" kw && dict_mem "max_value" kw
                               then "slider" else "number_input") [] kw in
                   (w c, s, [c])).
  { unfold _render_single_number_input.
    rewrite interp_bind, interp_get_default_kwargs. cbn [run_then].
    rewrite interp_bind, interp_lift, Hk. cbn [run_then].
    destruct (dict_mem "min_value" kw && dict_mem "max_value" kw);
      rewrite interp_widget; reflexivity. }
  destruct (default_kwargs_no_bounds (run_id s) key property) as [Hmin0 Hmax0].
  unfold number_input_kwargs in Hk.
  set (t := number_transform_of property) in *.
  set (kw0 := match t with
              | transform_int => default_streamlit_input_kwargs (run_id s) key property
              | transform_float =>
                  dict_set "format" (VStr "%f")
                    (default_streamlit_input_kwargs (run_id s) key property)
              end) in *.
  assert (Hmin0' : dict_get "min_value" kw0 = None).
  { subst kw0. destruct t; [assumption|]. rewrite dict_get_set_ne by discriminate. assumption. }
  assert (Hmax0' : dict_get "max_value" kw0 = None).
  { subst kw0. destruct t; [assumption|]. rewrite dict_get_set_ne by discriminate. assumption. }
  clearbody kw0.
  apply obind_ok in Hk. destruct Hk as (kw1 & H1 & Hk).
  apply obind_ok in Hk. destruct Hk as (kw2 & H2 & Hk).
  apply obind_ok in Hk. destruct Hk as (kw3 & H3 & H4).
  apply set_step_ok in H1. destruct H1 as (step & -> & Hstep).
  apply set_min_value_ok in H2. destruct H2 as (F2 & M2).
  apply set_max_value_ok in H3. destruct H3 as (F3 & M3).
  apply set_initial_value_ok in H4. destruct H4 as (F4 & M4).
  assert (Sstep : dict_get "step" kw = Some step).
  { rewrite F4, F3, F2 by discriminate. apply dict_get_set_eq. }
  assert (Smin : dict_get "min_value" kw = dict_get "min_value" kw2).
  { rewrite F4, F3 by discriminate. reflexivity. }
  assert (Smax : dict_get "max_value" kw = dict_get "max_value" kw3).
  { rewrite F4 by discriminate. reflexivity. }
  rewrite dict_get_set_eq in M2.
  rewrite F2, dict_get_set_eq in M3 by discriminate.
  assert (Cmin : if dict_mem "exclusiveMinimum" property
        then exists sum m,
               py_add (dict_get_default "exclusiveMinimum" property) step = Ok sum
               /\ apply_transform t sum = Ok m
               /\ dict_get "min_value" kw = Some m
        else if dict_mem "minimum" property
        then exists m,
               apply_transform t (dict_get_default "minimum" property) = Ok m
               /\ dict_get "min_value" kw = Some m
        else dict_get "min_value" kw = None).
  { rewrite Smin. destruct (dict_mem "exclusiveMinimum" property).
    - destruct M2 as (st & sum & m & [= <-] & Hadd & Ht & Hm). eauto.
    - destruct (dict_mem "minimum" property); [exact M2|].
      subst kw2. rewrite dict_get_set_ne by discriminate. assumption. }
  assert (Cmax : if dict_mem "exclusiveMaximum" property
        then exists difference m,
               py_sub (dict_get_default "exclusiveMaximum" property) step = Ok difference
               /\ apply_transform t difference = Ok m
               /\ dict_get "max_value" kw = Some m
        else if dict_mem "maximum" property
        then exists m,
               apply_transform t (dict_get_default "maximum" property) = Ok m
               /\ dict_get "max_value" kw = Some m
        else dict_get "max_value" kw = None).
  { rewrite Smax. destruct (dict_mem "exclusiveMaximum" property).
    - destruct M3 as (st & sum & m & [= <-] & Hadd & Ht & Hm). eauto.
    - destruct (dict_mem "maximum" property); [exact M3|].
      subst kw3. rewrite F2, dict_get_set_ne by discriminate. assumption. }
  exists step. split; [exact Sstep|]. split; [exact Hstep|].
  split; [exact Cmin|]. split; [exact Cmax|]. split; [|split; [|exact Hrun]].
  - (* the initial value *)
    intros Hnone Hmem. rewrite Hnone in M4. cbn [negb] in M4.
    assert (Hmem3 : dict_mem "min_value" kw3 = true).
    { unfold dict_mem in *. rewrite <- F4 by discriminate. exact Hmem. }
    rewrite Hmem3 in M4. rewrite M4. rewrite F4 by discriminate. reflexivity.
  - (* exact arithmetic on ints *)
    intros Hint. rewrite Hint in *.
    assert (Hst : exists st, step = VInt st).
    { destruct (dict_mem "multipleOf" property).
      - simpl in Hstep. now apply py_int_is_int in Hstep.
      - subst step. simpl. eauto. }
    destruct Hst as (st & ->). exists st. split; [reflexivity|]. split.
    + intros m Hm. unfold dict_mem, dict_get_default in Cmin. rewrite Hm in Cmin.
      destruct Cmin as (sum & m' & Hadd & Ht & Hget).
      cbn in Hadd. injection Hadd as <-. cbn in Ht. injection Ht as <-.
      split; [exact Hget|lia].
    + intros m Hm. unfold dict_mem, dict_get_default in Cmax. rewrite Hm in Cmax.
      destruct Cmax as (sum & m' & Hsub & Ht & Hget).
      cbn in Hsub. injection Hsub as <-. cbn in Ht. injection Ht as <-.
      split; [exact Hget|lia].
Qed.

Lemma number_input_configuration_witness :
  exists kw step,
    number_input_kwargs sample_number_property
      (@default_streamlit_input_kwargs sample_runtime (VInt 0) "count" sample_number_property)
    = Ok kw
    /\ dict_get "step" kw = Some step
    /\ trace_of (interp quiet_env
                   (@_render_single_number_input sample_runtime St "count"
                      sample_number_property) sample_state)
       = [Widget St "slider" [] kw].
Proof.
  eexists. 
  destruct (@number_input_configuration sample_runtime quiet_env St "count"
              sample_number_property sample_state _ eq_refl)
    as (step & Hstep & _ & _ & _ & _ & _ & Hrun).
  exists step. split; [reflexivity|]. split; [exact Hstep|].
  rewrite Hrun. reflexivity.
Defined.

(** With a float bound of 10^17 and the default step 0.01 the sum rounds
    back to the bound: [min_value] is the exclusive minimum itself. *)
Lemma number_input_float_min_value_not_above_bound :
  exists kw,
    number_input_kwargs large_float_property
      (@default_streamlit_input_kwargs sample_runtime (VInt 0) "mass" large_float_property)
    = Ok kw
    /\ dict_get "step" kw = Some (VFloat 0.01%float)
    /\ py_lt (VInt 0) (VFloat 0.01%float) = Ok true
    /\ dict_get "min_value" kw = Some (VFloat 1e17%float)
    /\ py_lt (dict_get_default "exclusiveMinimum" large_float_property)
             (VFloat 1e17%float) = Ok false.
Proof.
  eexists. split; [vm_compute; reflexivity|].
  repeat split; vm_compute; reflexivity.
Qed.

(** ** The run of [render_streamlit_ui], part by part *)

Lemma clear_and_execute_buttons_state `{Runtime} (w : env) (s s' : SessionState)
      (v : value) (t : list call) :
  interp w clear_and_execute_buttons s = (Ok v, s', t) -> s' = s.
Proof.
  unfold clear_and_execute_buttons.
  rewrite interp_bind, interp_widget. cbn [run_then].
  destruct (w _) as [cols|e]; [|discriminate].
  rewrite interp_bind, interp_lift. cbn [run_then].
  destruct (unpack2 cols) as [[clear_col execute_col]|e]; [|discriminate].
  rewrite interp_bind, interp_with.
  destruct (w (WithEnter clear_col)) as [x|e]; [|discriminate].
  rewrite interp_bind, interp_widget. cbn [run_then].
  destruct (w (Widget St "button" [VStr "Clear"] [])) as [pressed|e].
  - destruct (truthy pressed).
    + rewrite interp_bind. cbn [interp run_then].
      rewrite interp_bind, interp_widget. cbn [run_then].
      destruct (w (Widget St "experimental_rerun" [] [])); cbn [interp];
        destruct (w (WithExit clear_col)); discriminate.
    + cbn [interp]. destruct (w (WithExit clear_col)); [|discriminate].
      cbn [run_then]. rewrite interp_with.
      destruct (w (WithEnter execute_col)); [|discriminate].
      rewrite interp_widget.
      destruct (w (WithExit execute_col)); [|discriminate].
      destruct (w (Widget St "button" [VStr "Execute"] [])); intros [= _ <- _]; reflexivity.
  - destruct (w (WithExit clear_col)); discriminate.
Qed.

Lemma interp_render_streamlit_ui `{SchemaUtils} `{Runtime} (w : env) (fuel : nat)
      (opyrator : Opyrator) (s0 s1 s1' : SessionState) (t1 t2 : list call)
      (execute_selected : value) :
  interp w (render_inputs fuel opyrator) s0 = (Ok tt, s1, t1) ->
  interp w clear_and_execute_buttons s1 = (Ok execute_selected, s1', t2) ->
  interp w (render_streamlit_ui fuel opyrator) s0
  = let '(r, s2, t3) :=
      interp w (if truthy execute_selected then execute_operation opyrator else Ret tt) s1 in
    match r with
    | Ok _ =>
        let '(r', s3, t4) := interp w (render_output_section fuel) s2 in
        (r', s3, t1 ++ t2 ++ t3 ++ t4)
    | Err e => (Err e, s2, t1 ++ t2 ++ t3)
    end.
Proof.
  intros Hin Hb. pose proof (clear_and_execute_buttons_state _ _ _ _ _ Hb) as ->.
  unfold render_streamlit_ui.
  rewrite interp_bind, Hin. cbn [run_then].
  rewrite interp_bind, Hb. cbn [run_then].
  rewrite interp_bind.
  destruct (interp w (if truthy execute_selected then execute_operation opyrator else Ret tt) s1)
    as [[r s2] t3].
  cbn [run_then]. destruct r as [u|e].
  - destruct (interp w (render_output_section fuel) s2) as [[r' s3] t4].
    now rewrite !app_assoc.
  - now rewrite !app_assoc.
Qed.

Lemma interp_render_output_section `{SchemaUtils} `{Runtime} (w : env) (fuel : nat)
      (s : SessionState) :
  interp w (render_output_section fuel) s
  = if truthy (output_data s)
    then run_then
           (interp w (OutputUI_render_ui
                        {| _output_data := output_data s;
                           _input_data := latest_operation_input s |} fuel) s)
           (fun _ s' => interp w show_json_section s')
    else (Ok tt, s, []).
Proof.
  unfold render_output_section. cbn [interp].
  destruct (truthy (output_data s)); [|reflexivity].
  apply interp_bind.
Qed.

(** ** C10 *)

(** C10. When the block under [if execute_selected:] runs and
    [parse_obj_as] raises a ValidationError on the collected input data,
    the error is shown inside the spinner, the operation is not invoked
    and the session state is left exactly as it was; in a run of
    [render_streamlit_ui] where Execute was selected, the output section
    then starts from the state the input widgets left. *)
Theorem execute_invalid_input_keeps_session `{SchemaUtils} `{Runtime} (w : env)
        (opyrator : Opyrator) (s : SessionState) (cm x1 x2 x3 : value) (e : exn) :
  w spinner_call = Ok cm ->
  w (WithEnter cm) = Ok x1 ->
  w (WithExit cm) = Ok x2 ->
  parse_obj_as (input_type opyrator) (input_data s) = Err e ->
  is_ValidationError e = true ->
  w (Widget St "error" [VExn e] []) = Ok x3 ->
  interp w (execute_operation opyrator) s
  = (Ok tt, s, [spinner_call; WithEnter cm; Widget St "error" [VExn e] []; WithExit cm])
  /\ forall fuel s0 t1 s' t2 execute_selected,
       interp w (render_inputs fuel opyrator) s0 = (Ok tt, s, t1) ->
       interp w clear_and_execute_buttons s = (Ok execute_selected, s', t2) ->
       truthy execute_selected = true ->
       interp w (render_streamlit_ui fuel opyrator) s0
       = let '(r, s3, t4) := interp w (render_output_section fuel) s in
         (r, s3,
          t1 ++ t2
          ++ [spinner_call; WithEnter cm; Widget St "error" [VExn e] []; WithExit cm]
          ++ t4).
Proof.
  intros Hspin Henter Hexit Hparse Hval Herr.
  assert (Hblock : interp w (execute_operation opyrator) s
    = (Ok tt, s, [spinner_call; WithEnter cm; Widget St "error" [VExn e] []; WithExit cm])).
  { unfold execute_operation. fold spinner_call.
    rewrite interp_bind. unfold spinner_call at 1. rewrite interp_widget.
    fold spinner_call. rewrite Hspin. cbn [run_then].
    rewrite interp_with, Henter, interp_try_except_ValidationError.
    cbn [interp]. rewrite interp_bind, interp_lift, Hparse. cbn [run_then].
    rewrite Hval, interp_bind, interp_widget, Herr. cbn [run_then interp].
    rewrite Hexit. reflexivity. }
  split; [exact Hblock|].
  intros fuel s0 t1 s' t2 execute_selected Hin Hb Hsel.
  rewrite (interp_render_streamlit_ui _ _ _ _ _ _ _ _ _ Hin Hb), Hsel, Hblock.
  destruct (interp w (render_output_section fuel) s) as [[r s3] t4]. reflexivity.
Qed.

Lemma execute_invalid_input_keeps_session_witness :
  let s := set_input_data sample_state (VDict [("text", VNone); ("count", VInt 3)]) in
  interp no_text_env (execute_operation sample_opyrator) s
  = (Ok tt, s,
     [spinner_call; WithEnter VNone;
      Widget St "error" [VExn (Exn ValidationError "field required")] [];
      WithExit VNone]).
Proof.
  intros s.
  apply (@execute_invalid_input_keeps_session sample_schema_utils sample_runtime
           no_text_env sample_opyrator s VNone VNone VNone VNone
           (Exn ValidationError "field required"));
    reflexivity.
Defined.

(** ** C1 *)

(** C1, as the code has it. When the block under [if execute_selected:]
    runs, the collected input data parses to [input_data_obj] and the
    operation, invoked on it, returns [out]: the block makes that one
    invocation and leaves [out] as the session's output data and
    [input_data_obj] as its latest operation input. The output section,
    started from that state, hands [out] (with [input_data_obj]) to
    [OutputUI.render_ui] and goes on with the JSON button when [out] is
    truthy; when [out] is falsy it makes no call at all. A run of
    [render_streamlit_ui] in which Execute was selected is these two in a
    row after the input widgets and the buttons. *)
Theorem execute_stores_result_and_renders_truthy `{SchemaUtils} `{Runtime} (w : env)
        (opyrator : Opyrator) (s : SessionState) (cm x1 x2 : value)
        (input_data_obj out : value) :
  w spinner_call = Ok cm ->
  w (WithEnter cm) = Ok x1 ->
  w (WithExit cm) = Ok x2 ->
  parse_obj_as (input_type opyrator) (input_data s) = Ok input_data_obj ->
  w (Invoke input_data_obj) = Ok out ->
  let s2 := set_latest_operation_input (set_output_data s out) input_data_obj in
  interp w (execute_operation opyrator) s
  = (Ok tt, s2, [spinner_call; WithEnter cm; Invoke input_data_obj; WithExit cm])
  /\ (forall fuel,
        interp w (render_output_section fuel) s2
        = if truthy out
          then run_then
                 (interp w (OutputUI_render_ui
                              {| _output_data := out; _input_data := input_data_obj |}
                              fuel) s2)
                 (fun _ s3 => interp w show_json_section s3)
          else (Ok tt, s2, []))
  /\ forall fuel s0 t1 s' t2 execute_selected,
       interp w (render_inputs fuel opyrator) s0 = (Ok tt, s, t1) ->
       interp w clear_and_execute_buttons s = (Ok execute_selected, s', t2) ->
       truthy execute_selected = true ->
       interp w (render_streamlit_ui fuel opyrator) s0
       = let '(r, s3, t4) := interp w (render_output_section fuel) s2 in
         (r, s3,
          t1 ++ t2
          ++ [spinner_call; WithEnter cm; Invoke input_data_obj; WithExit cm]
          ++ t4).
Proof.
  intros Hspin Henter Hexit Hparse Hinv s2.
  assert (Hblock : interp w (execute_operation opyrator) s
    = (Ok tt, s2, [spinner_call; WithEnter cm; Invoke input_data_obj; WithExit cm])).
  { unfold execute_operation. fold spinner_call.
    rewrite interp_bind. unfold spinner_call at 1. rewrite interp_widget.
    fold spinner_call. rewrite Hspin. cbn [run_then].
    rewrite interp_with, Henter, interp_try_except_ValidationError.
    cbn [interp]. rewrite interp_bind, interp_lift, Hparse. cbn [run_then].
    rewrite interp_bind, interp_ext, Hinv. cbn [run_then interp].
    rewrite Hexit. reflexivity. }
  split; [exact Hblock|]. split.
  - intros fuel. rewrite interp_render_output_section. reflexivity.
  - intros fuel s0 t1 s' t2 execute_selected Hin Hb Hsel.
    rewrite (interp_render_streamlit_ui _ _ _ _ _ _ _ _ _ Hin Hb), Hsel, Hblock.
    destruct (interp w (render_output_section fuel) s2) as [[r s3] t4]. reflexivity.
Qed.

Lemma execute_stores_result_and_renders_truthy_witness :
  let s := set_input_data sample_state (VDict [("text", VStr "hello"); ("count", VInt 3)]) in
  let obj := VModel "Input" [("text", VStr "hello")] in
  let out := VModel "Output" [("text", VStr "hello")] in
  interp sample_env (execute_operation sample_opyrator) s
  = (Ok tt, set_latest_operation_input (set_output_data s out) obj,
     [spinner_call; WithEnter VNone; Invoke obj; WithExit VNone]).
Proof.
  intros s obj out.
  apply (@execute_stores_result_and_renders_truthy sample_schema_utils sample_runtime
           sample_env sample_opyrator s VNone VNone VNone obj out);
    reflexivity.
Defined.

(** Execute selected, the input valid, the operation returning an empty
    list: the list is stored, and nothing is drawn after the spinner
    closes. *)
Lemma execute_empty_list_result_not_rendered :
  exists s' before,
    interp empty_list_env
      (@render_streamlit_ui sample_schema_utils sample_runtime 5 sample_opyrator)
      sample_state
    = (Ok tt, s',
       before ++ [spinner_call; WithEnter VNone;
                  Invoke (VModel "Input" [("text", VStr "hello")]); WithExit VNone])
    /\ output_data s' = VList []
    /\ latest_operation_input s' = VModel "Input" [("text", VStr "hello")].
Proof.
  eexists. eexists (_ :: _ :: _ :: _ :: _ :: _ :: _ :: _ :: _ :: _ :: _ :: _ :: _ :: _ :: []).
  split; [vm_compute; reflexivity|]. split; reflexivity.
Qed.

(** ** C5 *)

(** C5, as the code has it. [OutputUI.render_ui] runs
    [_render_single_output] on a pydantic model instance and
    [_render_list_output] on a list. When that returns, or raises what is
    not an Exception, so does [render_ui], with the same calls and state.
    When it raises an Exception [e], [render_ui] goes on with
    [st.exception(e)] and then [st.json] on [jsonable_encoder] of the
    output data, and returns; should one of these three fail, it ends
    with that failure. On a value of any other type it makes no call and
    returns. *)
Theorem output_render_ui_by_type `{SchemaUtils} `{Runtime} (w : env) (self : OutputUI)
        (fuel : nat) (s : SessionState) :
  let shown (x : outcome unit * SessionState * list call) :=
    let '(r, s', t) := x in
    match r with
    | Ok a => (Ok a, s', t)
    | Err e =>
        if is_Exception e then
          match w (Widget St "exception" [VExn e] []) with
          | Err e1 => (Err e1, s', t ++ [Widget St "exception" [VExn e] []])
          | Ok _ =>
              match jsonable_encoder (_output_data self) with
              | Err e2 => (Err e2, s', t ++ [Widget St "exception" [VExn e] []])
              | Ok j =>
                  (match w (Widget St "json" [j] []) with
                   | Ok _ => Ok tt
                   | Err e3 => Err e3
                   end,
                   s',
                   t ++ [Widget St "exception" [VExn e] []; Widget St "json" [j] []])
              end
          end
        else (Err e, s', t)
    end in
  interp w (OutputUI_render_ui self fuel) s
  = if is_model (_output_data self) then
      shown (interp w (_render_single_output self fuel St (_output_data self)) s)
    else if is_list (_output_data self) then
      shown (interp w (_render_list_output St (_output_data self)) s)
    else (Ok tt, s, []).
Proof.
  intros shown.
  assert (Hshown : forall body : prog unit,
             interp w (try_except body (render_ui_fallback self)) s
             = shown (interp w body s)).
  { intros body. rewrite interp_try_except. subst shown. cbv beta.
    destruct (interp w body s) as [[r s'] t].
    destruct r as [a|e]; [reflexivity|].
    destruct (is_Exception e); [|reflexivity].
    unfold render_ui_fallback.
    rewrite interp_bind, interp_widget.
    destruct (w (Widget St "exception" [VExn e] [])) as [x|e1]; cbn [run_then];
      [|reflexivity].
    rewrite interp_bind, interp_lift.
    destruct (jsonable_encoder (_output_data self)) as [j|e2]; cbn [run_then];
      [|reflexivity].
    rewrite interp_bind, interp_widget.
    destruct (w (Widget St "json" [j] [])) as [y|e3]; reflexivity. }
  unfold OutputUI_render_ui.
  destruct (is_model (_output_data self)); [apply Hshown|].
  destruct (is_list (_output_data self)); [apply Hshown|].
  rewrite interp_try_except. reflexivity.
Qed.

(** A dict the operation returned, truthy as it is, draws nothing. *)
Lemma output_render_ui_skips_a_dict :
  let out := VDict [("answer", VInt 42)] in
  truthy out = true
  /\ interp sample_env
       (@OutputUI_render_ui sample_schema_utils sample_runtime
          {| _output_data := out; _input_data := VNone |} 5)
       sample_state
     = (Ok tt, sample_state, []).
Proof. split; reflexivity. Qed.

(** ** What a renderer may touch *)

Lemma same_but_refl (h : string) (s : SessionState) : same_but h s s.
Proof. unfold same_but. auto. Qed.

Lemma same_but_trans (h : string) (s1 s2 s3 : SessionState) :
  same_but h s1 s2 -> same_but h s2 s3 -> same_but h s1 s3.
Proof.
  intros (A1 & A2 & A3 & A4 & A5) (B1 & B2 & B3 & B4 & B5).
  unfold same_but. repeat split; try congruence; auto.
  intros k Hk. rewrite B5, A5; auto.
Qed.

Lemma touches_ret {A : Type} (h : string) (a : A) : touches_only h (Ret a).
Proof. intros w s. apply same_but_refl. Qed.

Lemma touches_raise {A : Type} (h : string) (e : exn) : touches_only h (@Raise A e).
Proof. intros w s. apply same_but_refl. Qed.

Lemma touches_lift {A : Type} (h : string) (r : outcome A) : touches_only h (lift r).
Proof. destruct r; [apply touches_ret|apply touches_raise]. Qed.

Lemma touches_Ext {A : Type} (h : string) (c : call) (k : outcome value -> prog A) :
  (forall r, touches_only h (k r)) -> touches_only h (Ext c k).
Proof.
  intros Hk w s. specialize (Hk (w c) w s). unfold state_of in *. simpl.
  now destruct (interp w (k (w c)) s) as [[r s'] t].
Qed.

Lemma touches_Get {A : Type} (h : string) (k : SessionState -> prog A) :
  (forall s, touches_only h (k s)) -> touches_only h (Get k).
Proof. intros Hk w s. apply (Hk s w s). Qed.

Lemma touches_widget (h : string) (app : st_app) (m : string) (args : list value)
      (kw : dict) :
  touches_only h (widget app m args kw).
Proof. apply touches_Ext. intros r. apply touches_lift. Qed.

Lemma touches_bind {A B : Type} (h : string) (p : prog A) (f : A -> prog B) :
  touches_only h p -> (forall a, touches_only h (f a)) -> touches_only h (bind p f).
Proof.
  intros Hp Hf w s. rewrite interp_bind. specialize (Hp w s). unfold state_of in *.
  destruct (interp w p s) as [[r s1] t1]. simpl in *. destruct r as [a|e]; [|exact Hp].
  specialize (Hf a w s1). destruct (interp w (f a) s1) as [[r2 s2] t2]. simpl in *.
  eapply same_but_trans; eassumption.
Qed.

Lemma touches_reify {A : Type} (h : string) (p : prog A) :
  touches_only h p -> touches_only h (reify p).
Proof.
  intros Hp w s. rewrite interp_reify. specialize (Hp w s). unfold state_of in *.
  now destruct (interp w p s) as [[r s1] t1].
Qed.

Lemma touches_try_except {A : Type} (h : string) (p : prog A) (handler : exn -> prog A) :
  touches_only h p -> (forall e, touches_only h (handler e)) ->
  touches_only h (try_except p handler).
Proof.
  intros Hp Hh. unfold try_except. apply touches_bind; [now apply touches_reify|].
  intros [a|e]; [apply touches_ret|].
  destruct (is_Exception e); [apply Hh|apply touches_raise].
Qed.

Lemma touches_with {A : Type} (h : string) (cm : value) (body : prog A) :
  touches_only h body -> touches_only h (with_ cm body).
Proof.
  intros Hb. unfold with_, ext.
  apply touches_bind; [apply touches_Ext; intros; apply touches_lift|]. intros _.
  apply touches_bind; [now apply touches_reify|]. intros r.
  apply touches_bind; [apply touches_Ext; intros; apply touches_lift|]. intros _.
  apply touches_lift.
Qed.

Lemma touches_when (h : string) (b : bool) (p : prog value) :
  touches_only h p -> touches_only h (when b p).
Proof.
  intros Hp. unfold when. destruct b; [|apply touches_ret].
  apply touches_bind; [exact Hp|]. intros _. apply touches_ret.
Qed.

Lemma touches_foldM {A B : Type} (h : string) (f : B -> A -> prog B) (l : list A) :
  (forall acc x, touches_only h (f acc x)) -> forall acc, touches_only h (foldM f l acc).
Proof.
  intros Hf. induction l as [|x l IH]; intros acc; simpl; [apply touches_ret|].
  apply touches_bind; [apply Hf|]. intros acc'. apply IH.
Qed.

(** The two walks change the top level at their first segment only. *)
Lemma get_elements_top (ks : list string) (x : value) (k : string) :
  k <> hd "" ks -> top_get k (snd (get_elements ks x)) = top_get k x.
Proof.
  intros Hk. destruct ks as [|k0 [|k1 rest]]; [reflexivity| |].
  - simpl. destruct (py_contains x k0) as [[|]|]; try reflexivity.
    destruct (py_getitem x k0); reflexivity.
  - rewrite get_elements_step. cbn [hd] in Hk.
    destruct x as [| b | z | f | str | str | l | d | cls fields | content | ex | tag payload];
      cbn [py_contains py_setitem py_getitem]; try reflexivity.
    + destruct (is_substring k0 str); reflexivity.
    + destruct (existsb (str_is k0) l); reflexivity.
    + unfold dict_mem. destruct (dict_get k0 d) as [y|] eqn:Hg.
      * cbn [py_getitem py_setitem]. rewrite Hg. destruct (get_elements (k1 :: rest) y). cbn [snd top_get].
        apply dict_get_set_ne. congruence.
      * cbn [py_getitem py_setitem]. rewrite dict_get_set_eq. destruct (get_elements (k1 :: rest) (VDict [])).
        cbn [snd top_get]. rewrite !dict_get_set_ne by congruence. reflexivity.
Qed.

Lemma get_elements_is_dict (ks : list string) (x : value) :
  is_dict x = true -> is_dict (snd (get_elements ks x)) = true.
Proof.
  intros Hd. destruct x as [| b | z | f | str | str | l | d | cls fields | content | ex | tag payload]; try discriminate.
  destruct ks as [|k0 [|k1 rest]]; [reflexivity| |].
  - simpl. destruct (dict_mem k0 d); [|reflexivity].
    destruct (dict_get k0 d); reflexivity.
  - rewrite get_elements_step. cbn [py_contains py_setitem py_getitem]. unfold dict_mem.
    destruct (dict_get k0 d) as [y|] eqn:Hg.
    + cbn [py_getitem py_setitem]. rewrite Hg. now destruct (get_elements (k1 :: rest) y).
    + cbn [py_getitem py_setitem]. rewrite dict_get_set_eq. now destruct (get_elements (k1 :: rest) (VDict [])).
Qed.

Lemma store_elements_top (ks : list string) (v x : value) (k : string) :
  k <> hd "" ks -> top_get k (snd (store_elements ks v x)) = top_get k x.
Proof.
  intros Hk. destruct ks as [|k0 [|k1 rest]]; [reflexivity| |].
  - simpl in *. destruct x as [| b | z | f | str | str | l | d | cls fields | content | ex | tag payload]; simpl; try reflexivity.
    apply dict_get_set_ne. congruence.
  - rewrite store_elements_step. cbn [hd] in Hk.
    destruct x as [| b | z | f | str | str | l | d | cls fields | content | ex | tag payload];
      cbn [py_contains py_setitem py_getitem]; try reflexivity.
    + destruct (is_substring k0 str); reflexivity.
    + destruct (existsb (str_is k0) l); reflexivity.
    + unfold dict_mem. destruct (dict_get k0 d) as [y|] eqn:Hg.
      * cbn [py_getitem py_setitem]. rewrite Hg. destruct (store_elements (k1 :: rest) v y). cbn [snd top_get].
        apply dict_get_set_ne. congruence.
      * cbn [py_getitem py_setitem]. rewrite dict_get_set_eq. destruct (store_elements (k1 :: rest) v (VDict [])).
        cbn [snd top_get]. rewrite !dict_get_set_ne by congruence. reflexivity.
Qed.

Lemma store_elements_is_dict (ks : list string) (v x : value) :
  is_dict x = true -> is_dict (snd (store_elements ks v x)) = true.
Proof.
  intros Hd. destruct x as [| b | z | f | str | str | l | d | cls fields | content | ex | tag payload]; try discriminate.
  destruct ks as [|k0 [|k1 rest]]; [reflexivity|reflexivity|].
  rewrite store_elements_step. cbn [py_contains py_setitem py_getitem]. unfold dict_mem.
  destruct (dict_get k0 d) as [y|] eqn:Hg.
  - cbn [py_getitem py_setitem]. rewrite Hg. now destruct (store_elements (k1 :: rest) v y).
  - cbn [py_getitem py_setitem]. rewrite dict_get_set_eq. now destruct (store_elements (k1 :: rest) v (VDict [])).
Qed.

Lemma touches_get_value (key : string) : touches_only (head_segment key) (_get_value key).
Proof.
  intros w s. unfold _get_value, state_of. simpl.
  pose proof (get_elements_top (split_dot key) (input_data s)) as Htop.
  pose proof (get_elements_is_dict (split_dot key) (input_data s)) as Hdict.
  destruct (get_elements (split_dot key) (input_data s)) as [r d]. simpl in *.
  rewrite interp_lift. simpl. unfold same_but. simpl. repeat split; auto.
Qed.

Lemma touches_store_value (key : string) (v : value) :
  touches_only (head_segment key) (_store_value key v).
Proof.
  intros w s. unfold _store_value, state_of. simpl.
  pose proof (store_elements_top (split_dot key) v (input_data s)) as Htop.
  pose proof (store_elements_is_dict (split_dot key) v (input_data s)) as Hdict.
  destruct (store_elements (split_dot key) v (input_data s)) as [r d]. simpl in *.
  rewrite interp_lift. simpl. unfold same_but. simpl. repeat split; auto.
Qed.

Lemma touches_update_stored (key : string) (v : value) :
  touches_only (head_segment key) (update_stored key v).
Proof.
  intros w s. unfold update_stored, state_of. simpl.
  unfold same_but. simpl. repeat split.
  - apply store_elements_is_dict.
  - intros k Hk. now apply store_elements_top.
Qed.

Lemma touches_view_stored (h key : string) (stored : value) :
  touches_only h (view_stored key stored).
Proof. intros w s. apply same_but_refl. Qed.

Lemma touches_default_kwargs `{Runtime} (h key : string) (property : dict) :
  touches_only h (_get_default_streamlit_input_kwargs key property).
Proof. intros w s. apply same_but_refl. Qed.

Ltac touch_step :=
  match goal with
  | |- touches_only _ (bind _ _) => apply touches_bind; [|intros]
  | |- touches_only _ (Ret _) => apply touches_ret
  | |- touches_only _ (Raise _) => apply touches_raise
  | |- touches_only _ (lift _) => apply touches_lift
  | |- touches_only _ (widget _ _ _ _) => apply touches_widget
  | |- touches_only _ (when _ _) => apply touches_when
  | |- touches_only _ (with_ _ _) => apply touches_with
  | |- touches_only _ (try_except _ _) => apply touches_try_except; [|intros]
  | |- touches_only _ (foldM _ _ _) => apply touches_foldM; intros
  | |- touches_only _ (_get_default_streamlit_input_kwargs _ _) =>
      apply touches_default_kwargs
  | |- touches_only _ (_get_value _) => apply touches_get_value
  | |- touches_only _ (update_stored _ _) => apply touches_update_stored
  | |- touches_only _ (view_stored _ _) => apply touches_view_stored
  | |- touches_only _ (if ?b then _ else _) => destruct b
  | |- touches_only _ (match ?x with _ => _ end) => destruct x
  | |- touches_only _ _ => progress cbv beta zeta
  end.

Ltac touch := repeat touch_step.

Section Touches.

Context `{SchemaUtils} `{Runtime}.
Variable self : InputUI.

Lemma touches_single_datetime (app : st_app) (key : string) (property : dict) :
  touches_only (head_segment key) (_render_single_datetime_input app key property).
Proof. unfold _render_single_datetime_input, default_from. touch. Qed.

Lemma touches_single_file (app : st_app) (key : string) (property : dict) :
  touches_only (head_segment key) (_render_single_file_input app key property).
Proof. unfold _render_single_file_input, file_extension_of. touch. Qed.

Lemma touches_single_string (app : st_app) (key : string) (property : dict) :
  touches_only (head_segment key) (_render_single_string_input app key property).
Proof. unfold _render_single_string_input. touch. Qed.

Lemma touches_multi_enum (app : st_app) (key : string) (property : dict) :
  touches_only (head_segment key) (_render_multi_enum_input self app key property).
Proof. unfold _render_multi_enum_input. touch. Qed.

Lemma touches_single_enum (app : st_app) (key : string) (property : dict) :
  touches_only (head_segment key) (_render_single_enum_input self app key property).
Proof. unfold _render_single_enum_input. touch. Qed.

Lemma touches_single_dict (app : st_app) (key : string) (property : dict) :
  touches_only (head_segment key) (_render_single_dict_input app key property).
Proof. unfold _render_single_dict_input, new_value_input. touch. Qed.

Lemma touches_multi_file (app : st_app) (key : string) (property : dict) :
  touches_only (head_segment key) (_render_multi_file_input app key property).
Proof. unfold _render_multi_file_input, file_extension_of. touch. Qed.

Lemma touches_single_boolean (app : st_app) (key : string) (property : dict) :
  touches_only (head_segment key) (_render_single_boolean_input app key property).
Proof. unfold _render_single_boolean_input. touch. Qed.

Lemma touches_single_number (app : st_app) (key : string) (property : dict) :
  touches_only (head_segment key) (_render_single_number_input app key property).
Proof. unfold _render_single_number_input. touch. Qed.

Lemma touches_property_list (app : st_app) (key : string) (property : dict) :
  touches_only (head_segment key) (_render_property_list_input app key property).
Proof. unfold _render_property_list_input, new_value_input, clear_or_add. touch. Qed.

End Touches.

Lemma split_dot_cons (c : ascii) (s : string) :
  hd "" (split_dot (String c s))
  = if Ascii.eqb c "."%char then "" else String c (hd "" (split_dot s)).
Proof.
  simpl. destruct (Ascii.eqb c "."%char); [reflexivity|].
  pose proof (split_dot_nonempty s). destruct (split_dot s); [congruence|reflexivity].
Qed.

(** A nested key starts with the first segment of the key above it. *)
Lemma head_segment_nested (key property_key : string) :
  head_segment (key ++ "." ++ property_key)%string = head_segment key.
Proof.
  unfold head_segment. induction key as [|c key IH].
  - reflexivity.
  - change ((String c key ++ "." ++ property_key)%string)
      with (String c (key ++ "." ++ property_key)%string).
    rewrite !split_dot_cons, IH. reflexivity.
Qed.

Section TouchesDescend.

Context `{SchemaUtils} `{Runtime}.
Variable self : InputUI.
Variable render : st_app -> string -> dict -> prog value.
Hypothesis touches_render :
  forall app key property, touches_only (head_segment key) (render app key property).

Lemma touches_object_input (app : st_app) (key : string) (property : value) :
  touches_only (head_segment key) (_render_object_input render app key property).
Proof.
  unfold _render_object_input. touch.
  rewrite <- (head_segment_nested key s). apply touches_render.
Qed.

Lemma touches_single_reference (app : st_app) (key : string) (property : dict) :
  touches_only (head_segment key) (_render_single_reference self render app key property).
Proof. unfold _render_single_reference. touch. apply touches_render. Qed.

Lemma touches_single_object (app : st_app) (key : string) (property : dict) :
  touches_only (head_segment key) (_render_single_object_input self render app key property).
Proof. unfold _render_single_object_input. touch. apply touches_object_input. Qed.

Lemma touches_object_list (app : st_app) (key : string) (property : dict) :
  touches_only (head_segment key) (_render_object_list_input self render app key property).
Proof.
  unfold _render_object_list_input, clear_or_add. touch;
    apply touches_object_input.
Qed.

End TouchesDescend.

Section TouchesProperty.

Context `{SchemaUtils} `{Runtime}.
Variable self : InputUI.

(** Rendering a property reaches the session state only below the first
    segment of its key. *)
Lemma touches_render_property (fuel : nat) :
  forall app key property,
    touches_only (head_segment key) (_render_property self fuel app key property).
Proof.
  induction fuel as [|fuel IH]; intros app key property; cbn [_render_property].
  - apply touches_raise.
  - destruct (is_single_enum_property _ _); [apply touches_single_enum|].
    destruct (is_multi_enum_property _ _); [apply touches_multi_enum|].
    destruct (is_single_file_property _); [apply touches_single_file|].
    destruct (is_multi_file_property _); [apply touches_multi_file|].
    destruct (is_single_datetime_property _); [apply touches_single_datetime|].
    destruct (is_single_boolean_property _); [apply touches_single_boolean|].
    destruct (is_single_dict_property _); [apply touches_single_dict|].
    destruct (is_single_number_property _); [apply touches_single_number|].
    destruct (is_single_string_property _); [apply touches_single_string|].
    destruct (is_single_object _ _); [now apply touches_single_object|].
    destruct (is_object_list_property _ _); [now apply touches_object_list|].
    destruct (is_property_list _); [apply touches_property_list|].
    destruct (is_single_reference _); [now apply touches_single_reference|].
    touch.
Qed.

Lemma touches_render_and_store (fuel : nat) (app : st_app) (key : string) (property : dict) :
  touches_only (head_segment key) (render_and_store self fuel app key property).
Proof.
  unfold render_and_store. apply touches_bind; [apply touches_render_property|].
  intros v. apply touches_store_value.
Qed.

Lemma touches_render_ui_property (fuel : nat) (required : value) (key : string) :
  touches_only (head_segment key) (render_ui_property self fuel required key).
Proof.
  unfold render_ui_property. touch. apply touches_render_and_store.
Qed.

(** The loop leaves alone every top-level entry that is the first segment
    of none of its keys. *)
Lemma render_ui_loop_top (w : env) (fuel : nat) (required : value) (k : string)
      (keys : list string) :
  (forall k', In k' keys -> head_segment k' <> k) ->
  forall s,
    top_get k (input_data (state_of (interp w (render_ui_loop self fuel required keys) s)))
    = top_get k (input_data s).
Proof.
  unfold render_ui_loop.
  induction keys as [|k0 keys IH]; intros Hne s; [reflexivity|].
  cbn [foldM]. rewrite interp_bind.
  pose proof (touches_render_ui_property fuel required k0 w s) as Hs.
  unfold state_of in *.
  destruct (interp w (render_ui_property self fuel required k0) s) as [[r s1] t1].
  cbn [run_then fst snd] in *.
  assert (Hk : top_get k (input_data s1) = top_get k (input_data s)).
  { destruct Hs as (_ & _ & _ & _ & Htop). apply Htop.
    intros ->. apply (Hne k0); [now left|reflexivity]. }
  destruct r as [[]|e]; [|exact Hk].
  specialize (IH (fun k' Hin => Hne k' (or_intror Hin)) s1).
  destruct (interp w (foldM _ keys tt) s1) as [[r2 s2] t2].
  cbn [fst snd] in *. congruence.
Qed.

End TouchesProperty.

(** ** A store that raises *)

(** A store that raises has changed nothing, and what it raises is an
    Exception. *)
Lemma store_elements_err (ks : list string) (v : value) :
  forall x e x', store_elements ks v x = (Err e, x') -> x' = x /\ is_Exception e = true.
Proof.
  induction ks as [|k rest IH]; intros x e x'; [discriminate|].
  destruct rest as [|k2 rest].
  - simpl. destruct x; simpl; try discriminate; now intros [= <- <-].
  - rewrite store_elements_step.
    destruct (py_contains x k) as [present|e0] eqn:Hc.
    2:{ intros [= <- <-]. split; [reflexivity|]. destruct x; simpl in Hc; try discriminate;
        now injection Hc as <-. }
    destruct present.
    + destruct (py_getitem x k) as [child|e0] eqn:Hg.
      2:{ intros [= <- <-]. split; [reflexivity|].
          destruct x; simpl in Hg; try (now injection Hg as <-).
          destruct (dict_get k d); [discriminate|now injection Hg as <-]. }
      destruct (store_elements (k2 :: rest) v child) as [r child'] eqn:Hs.
      destruct x; try (cbn [py_getitem] in Hg; discriminate).
      intros [= -> <-]. apply IH in Hs. destruct Hs as [-> He]. split; [|exact He].
      cbn [py_getitem] in Hg. destruct (dict_get k d) eqn:Hd; [|discriminate].
      injection Hg as ->. now rewrite (dict_set_same _ _ _ Hd).
    + destruct (py_setitem x k (VDict [])) as [x1|e0] eqn:Hset.
      2:{ intros [= <- <-]. split; [reflexivity|].
          destruct x; simpl in Hset; try discriminate; now injection Hset as <-. }
      destruct x; try discriminate. cbn [py_setitem] in Hset. injection Hset as <-.
      cbn [py_getitem]. rewrite dict_get_set_eq.
      destruct (store_get_elements (k2 :: rest) v (VDict []) ltac:(discriminate)
                  (prefixes_ok_empty_dict _)) as (y & Hy & _).
      rewrite Hy. discriminate.
Qed.

(** ** C6 *)

Section RenderAndStore.

Context `{SchemaUtils} `{Runtime}.

(** Without a custom renderer, [InputUI.render_ui] is the loop over the
    keys of the schema's properties. *)
Lemma InputUI_render_ui_is_loop (self : InputUI) (fuel : nat) (properties : dict) :
  render_input_ui (_input_class self) = None ->
  as_dict (_schema_properties self) = Ok properties ->
  InputUI_render_ui self fuel
  = render_ui_loop self fuel (required_properties_of self) (dict_keys properties).
Proof.
  intros Hnone Hprops. unfold InputUI_render_ui. rewrite Hnone, Hprops. reflexivity.
Qed.


End RenderAndStore.


(** ** The sample run *)

(** A run on the sample: the text goes on the page, the unsupported
    field leaves a warning in the sidebar, the bounded integer gets a
    slider, the operation is invoked inside the spinner and its result
    drawn. *)
Example sample_run :
  interp sample_env
    (@render_streamlit_ui sample_schema_utils sample_runtime 5 sample_opyrator)
    sample_state
  = (Ok tt,
     {| run_id := VInt 0;
        input_data := VDict [("text", VStr "hello"); ("count", VInt 3)];
        output_data := VModel "Output" [("text", VStr "hello")];
        latest_operation_input := VModel "Input" [("text", VStr "hello")] |},
     [Widget St "title" [VStr "Echo - Opyrator"] [];
      Widget St "markdown" [VStr "<style></style>"] [("unsafe_allow_html", VBool true)];
      Widget St "markdown" [VStr "Says it back."] [];
      Widget St "text_area" [] [("label", VStr "text"); ("key", VStr "0-text")];
      Widget Sidebar "warning"
        [VStr "The type of the following property is currently not supported: mystery"] [];
      Widget Sidebar "slider" []
        [("label", VStr "count"); ("key", VStr "0-count"); ("step", VInt 1);
         ("min_value", VInt 0); ("max_value", VInt 10); ("value", VInt 0)];
      Widget St "markdown" [VStr "---"] [];
      Widget St "beta_columns" [VList [VInt 1; VInt 2]] [];
      WithEnter (VOpaque "column" [VInt 0]);
      Widget St "button" [VStr "Clear"] [];
      WithExit (VOpaque "column" [VInt 0]);
      WithEnter (VOpaque "column" [VInt 1]);
      Widget St "button" [VStr "Execute"] [];
      WithExit (VOpaque "column" [VInt 1]);
      spinner_call;
      WithEnter VNone;
      Invoke (VModel "Input" [("text", VStr "hello")]);
      WithExit VNone;
      Widget St "json" [VModel "Output" [("text", VStr "hello")]] [];
      Widget St "markdown" [VStr "---"] [];
      Widget St "empty" [] [];
      Widget (Handle VNone) "button" [VStr "Show JSON Output"] []]).
Proof. vm_compute. reflexivity. Qed.

(** Storing under ["a.b"] in empty input data builds [{"a": {"b": 7}}]. *)
Example store_value_nested :
  interp quiet_env (_store_value "a.b" (VInt 7)) sample_state
  = (Ok tt, set_input_data sample_state (VDict [("a", VDict [("b", VInt 7)])]), []).
Proof. reflexivity. Qed.

(** Under a key that names an int the store raises and changes nothing. *)
Example store_value_below_an_int :
  let s := set_input_data sample_state (VDict [("a", VInt 5)]) in
  exists e, interp quiet_env (_store_value "a.b" (VInt 7)) s = (Err e, s, [])
            /\ exn_cls e = TypeError.
Proof. eexists. split; reflexivity. Qed.

(* ================================================================== *)
(** * Further properties of the module *)

(** ** The nested-key store: failure, overwriting, independence *)

Lemma py_contains_err (x : value) (k : string) (e : exn) :
  py_contains x k = Err e -> exn_cls e = TypeError.
Proof. destruct x; simpl; try discriminate; now intros [= <-]. Qed.

Lemma py_setitem_err (x : value) (k : string) (v : value) (e : exn) :
  py_setitem x k v = Err e -> exn_cls e = TypeError.
Proof. destruct x; simpl; try discriminate; now intros [= <-]. Qed.

Lemma py_getitem_err_present (x : value) (k : string) (e : exn) :
  py_contains x k = Ok true -> py_getitem x k = Err e -> exn_cls e = TypeError.
Proof.
  destruct x; simpl; try discriminate; try (now intros _ [= <-]).
  unfold dict_mem. destruct (dict_get k d); [discriminate|]. discriminate.
Qed.

Lemma store_elements_err_class (ks : list string) (v : value) :
  forall x e x', store_elements ks v x = (Err e, x') -> exn_cls e = TypeError.
Proof.
  induction ks as [|k rest IH]; intros x e x'; [discriminate|].
  destruct rest as [|k2 rest].
  - simpl. destruct (py_setitem x k v) eqn:Hs; [discriminate|].
    intros [= <- _]. eapply py_setitem_err; eassumption.
  - rewrite store_elements_step.
    destruct (py_contains x k) as [present|e0] eqn:Hc.
    2:{ intros [= <- _]. eapply py_contains_err; eassumption. }
    destruct present.
    + destruct (py_getitem x k) as [child|e0] eqn:Hg.
      2:{ intros [= <- _]. eapply py_getitem_err_present; eassumption. }
      destruct (store_elements (k2 :: rest) v child) as [r child'] eqn:Hs.
      destruct x; intros [= -> _]; eapply IH; eassumption.
    + destruct (py_setitem x k (VDict [])) as [x1|e0] eqn:Hset.
      2:{ intros [= <- _]. eapply py_setitem_err; eassumption. }
      destruct x; try discriminate. cbn [py_setitem] in Hset. injection Hset as <-.
      cbn [py_getitem]. rewrite dict_get_set_eq.
      destruct (store_elements (k2 :: rest) v (VDict [])) as [r child'] eqn:Hs.
      intros [= -> _]. eapply IH; eassumption.
Qed.

(** X1. A [_store_value] that raises has raised a TypeError, made no
    call and left the session state as it was. *)
Theorem store_value_failure_is_clean (w : env) (key : string) (v : value)
        (s s' : SessionState) (e : exn) (t : list call) :
  interp w (_store_value key v) s = (Err e, s', t) ->
  s' = s /\ t = [] /\ exn_cls e = TypeError.
Proof.
  unfold _store_value. cbn [interp].
  destruct (store_elements (split_dot key) v (input_data s)) as [r d] eqn:Hs.
  cbn [interp]. rewrite interp_lift. destruct r as [[]|e0]; [discriminate|].
  intros [= <- <- <-].
  pose proof (store_elements_err_class _ _ _ _ _ Hs) as Hc.
  apply store_elements_err in Hs. destruct Hs as [-> _].
  now rewrite set_input_data_same.
Qed.

Lemma store_value_failure_is_clean_witness :
  let s := set_input_data sample_state (VDict [("a", VInt 5)]) in
  s = s /\ @nil call = [] /\ exn_cls (Exn TypeError "object does not support item assignment") = TypeError.
Proof.
  intros s.
  apply (store_value_failure_is_clean quiet_env "a.b" (VInt 7) s s
           (Exn TypeError "object does not support item assignment") []).
  reflexivity.
Defined.

(** A lookup that raises has changed nothing, and raises a TypeError. *)
Lemma get_elements_err (ks : list string) :
  forall x e x', get_elements ks x = (Err e, x') -> x' = x /\ exn_cls e = TypeError.
Proof.
  induction ks as [|k rest IH]; intros x e x'; [discriminate|].
  destruct rest as [|k2 rest].
  - simpl. destruct (py_contains x k) as [[|]|e0] eqn:Hc.
    + destruct (py_getitem x k) eqn:Hg; [discriminate|].
      intros [= <- <-]. split; [reflexivity|]. eapply py_getitem_err_present; eassumption.
    + discriminate.
    + intros [= <- <-]. split; [reflexivity|]. eapply py_contains_err; eassumption.
  - rewrite get_elements_step.
    destruct (py_contains x k) as [present|e0] eqn:Hc.
    2:{ intros [= <- <-]. split; [reflexivity|]. eapply py_contains_err; eassumption. }
    destruct present.
    + destruct (py_getitem x k) as [child|e0] eqn:Hg.
      2:{ intros [= <- <-]. split; [reflexivity|].
          eapply py_getitem_err_present; eassumption. }
      destruct (get_elements (k2 :: rest) child) as [r child'] eqn:Hs.
      destruct x; try (cbn [py_getitem] in Hg; discriminate).
      intros [= -> <-]. apply IH in Hs. destruct Hs as [-> He]. split; [|exact He].
      cbn [py_getitem] in Hg. destruct (dict_get k d) eqn:Hd; [|discriminate].
      injection Hg as ->. now rewrite (dict_set_same _ _ _ Hd).
    + destruct (py_setitem x k (VDict [])) as [x1|e0] eqn:Hset.
      2:{ intros [= <- <-]. split; [reflexivity|]. eapply py_setitem_err; eassumption. }
      destruct x; try discriminate. cbn [py_setitem] in Hset. injection Hset as <-.
      cbn [py_getitem]. rewrite dict_get_set_eq.
      rewrite get_elements_fresh by discriminate. discriminate.
Qed.

(** X2. A [_get_value] that raises has raised a TypeError, made no call
    and left the session state as it was: the dicts it puts in for
    missing segments never come with a failure. *)
Theorem get_value_failure_is_clean (w : env) (key : string)
        (s s' : SessionState) (e : exn) (t : list call) :
  interp w (_get_value key) s = (Err e, s', t) ->
  s' = s /\ t = [] /\ exn_cls e = TypeError.
Proof.
  unfold _get_value. cbn [interp].
  destruct (get_elements (split_dot key) (input_data s)) as [r d] eqn:Hs.
  cbn [interp]. rewrite interp_lift. destruct r as [x|e0]; [discriminate|].
  intros [= <- <- <-].
  apply get_elements_err in Hs. destruct Hs as [-> Hc].
  now rewrite set_input_data_same.
Qed.

Lemma get_value_failure_is_clean_witness :
  let s := set_input_data sample_state (VDict [("a", VInt 5)]) in
  s = s /\ @nil call = [] /\ exn_cls (Exn TypeError "argument is not iterable") = TypeError.
Proof.
  intros s.
  apply (get_value_failure_is_clean quiet_env "a.b" s s
           (Exn TypeError "argument is not iterable") []).
  reflexivity.
Defined.

(** Whenever the store returns, the lookup of the same path gives the
    value back and changes nothing. *)
Lemma store_ok_get (ks : list string) (v : value) :
  forall x x', ks <> [] -> store_elements ks v x = (Ok tt, x') ->
               get_elements ks x' = (Ok v, x').
Proof.
  induction ks as [|k rest IH]; intros x x' Hne; [congruence|].
  destruct rest as [|k2 rest].
  - simpl. destruct x; simpl; try discriminate. intros [= <-].
    simpl. rewrite dict_mem_set, dict_get_set_eq. reflexivity.
  - rewrite store_elements_step.
    destruct (py_contains x k) as [present|e0] eqn:Hc; [|discriminate].
    destruct present.
    + destruct (py_getitem x k) as [child|e0] eqn:Hg; [|discriminate].
      destruct (store_elements (k2 :: rest) v child) as [r child'] eqn:Hs.
      destruct x; try (cbn [py_getitem] in Hg; discriminate).
      intros [= -> <-]. apply IH in Hs; [|discriminate].
      rewrite get_elements_step. cbn [py_contains]. rewrite dict_mem_set.
      cbn [py_getitem]. rewrite dict_get_set_eq, Hs, dict_set_set. reflexivity.
    + destruct (py_setitem x k (VDict [])) as [x1|e0] eqn:Hset; [|discriminate].
      destruct x; try discriminate. cbn [py_setitem] in Hset. injection Hset as <-.
      cbn [py_getitem]. rewrite dict_get_set_eq.
      destruct (store_elements (k2 :: rest) v (VDict [])) as [r child'] eqn:Hs.
      intros [= -> <-]. apply IH in Hs; [|discriminate].
      rewrite get_elements_step. cbn [py_contains]. rewrite dict_mem_set.
      cbn [py_getitem]. rewrite dict_get_set_eq, Hs, dict_set_set. reflexivity.
Qed.

(** A second store on the same path undoes the first: from the result of
    the first it does what it does from the start; and where the first
    raises, so does the second, with the same exception. *)
Lemma store_elements_twice (ks : list string) (v1 v2 : value) :
  forall x r1 x1,
    store_elements ks v1 x = (r1, x1) ->
    match r1 with
    | Ok _ => store_elements ks v2 x1 = store_elements ks v2 x
    | Err e => store_elements ks v2 x = (Err e, x)
    end.
Proof.
  induction ks as [|k rest IH]; intros x r1 x1.
  - simpl. intros [= <- <-]. reflexivity.
  - destruct rest as [|k2 rest].
    + simpl. destruct x; simpl; try (now intros [= <- <-]).
      intros [= <- <-]. simpl. now rewrite dict_set_set.
    + intros H0. rewrite store_elements_step in H0.
      destruct (py_contains x k) as [present|e0] eqn:Hc.
      2:{ injection H0 as <- <-. now rewrite store_elements_step, Hc. }
      destruct present.
      * destruct (py_getitem x k) as [child|e0] eqn:Hg.
        2:{ injection H0 as <- <-. now rewrite store_elements_step, Hc, Hg. }
        destruct (store_elements (k2 :: rest) v1 child) as [r child'] eqn:Hs.
        destruct x; try (cbn [py_getitem] in Hg; discriminate).
        cbn [py_getitem] in Hg. destruct (dict_get k d) eqn:Hd; [|discriminate].
        injection Hg as ->. injection H0 as <- <-.
        apply IH in Hs. destruct r as [[]|e].
        -- rewrite !store_elements_step. cbn [py_contains] in *.
           injection Hc as Hc. rewrite dict_mem_set, Hc.
           cbn [py_getitem]. rewrite dict_get_set_eq, Hd, Hs.
           destruct (store_elements (k2 :: rest) v2 child) as [r2 c2].
           now rewrite dict_set_set.
        -- rewrite store_elements_step, Hc. cbn [py_getitem]. rewrite Hd, Hs.
           now rewrite (dict_set_same _ _ _ Hd).
      * destruct (py_setitem x k (VDict [])) as [x1'|e0] eqn:Hset.
        2:{ injection H0 as <- <-. now rewrite store_elements_step, Hc, Hset. }
        destruct x; try discriminate. cbn [py_setitem] in Hset. injection Hset as <-.
        cbn [py_getitem] in H0. rewrite dict_get_set_eq in H0.
        destruct (store_elements (k2 :: rest) v1 (VDict [])) as [r child'] eqn:Hs.
        injection H0 as <- <-. destruct r as [[]|e].
        -- apply IH in Hs.
           rewrite !store_elements_step. cbn [py_contains] in *.
           injection Hc as Hc. rewrite dict_mem_set, Hc.
           cbn [py_setitem py_getitem]. rewrite !dict_get_set_eq, Hs.
           destruct (store_elements (k2 :: rest) v2 (VDict [])) as [r2 c2].
           now rewrite !dict_set_set.
        -- destruct (store_get_elements (k2 :: rest) v1 (VDict []) ltac:(discriminate)
                       (prefixes_ok_empty_dict _)) as (y & Hy & _).
           rewrite Hy in Hs. discriminate.
Qed.

(** X3. The last store wins: storing [v1] and then [v2] under one key
    is storing [v2]; and whenever a store returns, the lookup of the key
    gives the stored value back and leaves the state as it is. *)
Theorem store_value_last_write_wins (w : env) (key : string) (v1 v2 : value)
        (s : SessionState) :
  interp w (_store_value key v1 ;; _store_value key v2) s
  = interp w (_store_value key v2) s
  /\ forall s', interp w (_store_value key v2) s = (Ok tt, s', []) ->
                interp w (_get_value key) s' = (Ok v2, s', []).
Proof.
  split.
  - rewrite interp_bind. unfold _store_value. cbn [interp].
    destruct (store_elements (split_dot key) v1 (input_data s)) as [r1 x1] eqn:H1.
    pose proof (store_elements_twice _ _ v2 _ _ _ H1) as H2.
    cbn [interp]. rewrite interp_lift. cbn [run_then]. destruct r1 as [[]|e].
    + cbn [interp]. simpl input_data. rewrite H2.
      destruct (store_elements (split_dot key) v2 (input_data s)) as [r2 x2].
      cbn [interp]. rewrite !interp_lift. destruct s; reflexivity.
    + rewrite H2. cbn [interp]. apply store_elements_err in H1. destruct H1 as [-> _].
      reflexivity.
  - intros s'. unfold _store_value, _get_value. cbn [interp].
    destruct (store_elements (split_dot key) v2 (input_data s)) as [r x'] eqn:Hs.
    cbn [interp]. rewrite interp_lift. destruct r as [[]|e]; [|discriminate].
    intros [= <-]. simpl input_data.
    rewrite (store_ok_get _ _ _ _ (split_dot_nonempty key) Hs).
    cbn [interp]. destruct s; reflexivity.
Qed.

(** What a lookup returns from a dict depends on the entry of the first
    segment alone. *)
Lemma get_elements_fst_dict (b : string) (r : list string) (d d' : dict) :
  dict_get b d = dict_get b d' ->
  fst (get_elements (b :: r) (VDict d)) = fst (get_elements (b :: r) (VDict d')).
Proof.
  intros Hbd. destruct r as [|k2 r].
  - simpl. unfold dict_mem. rewrite Hbd. destruct (dict_get b d'); reflexivity.
  - rewrite !get_elements_step. cbn [py_contains]. unfold dict_mem. rewrite Hbd.
    destruct (dict_get b d') as [y|] eqn:Hg.
    + cbn [py_getitem]. rewrite Hbd, Hg.
      destruct (get_elements (k2 :: r) y). reflexivity.
    + cbn [py_setitem py_getitem]. rewrite !dict_get_set_eq.
      destruct (get_elements (k2 :: r) (VDict [])). reflexivity.
Qed.

(** Two paths that part at some segment: a store under the one leaves
    what a lookup of the other returns as it was. *)
Lemma store_elements_apart (p : list string) (a b : string) (r r' : list string)
      (v : value) :
  a <> b ->
  forall x,
    fst (get_elements (p ++ b :: r') (snd (store_elements (p ++ a :: r) v x)))
    = fst (get_elements (p ++ b :: r') x).
Proof.
  intros Hab. induction p as [|c p IH]; intros x.
  - cbn [app].
    pose proof (store_elements_top (a :: r) v x b ltac:(simpl; congruence)) as Htop.
    pose proof (store_elements_is_dict (a :: r) v x) as Hd.
    destruct (store_elements (a :: r) v x) as [[[]|e] x'] eqn:Hs.
    + cbn [snd] in *.
      destruct x as [| bb | z | f | str | str | l | d | cls fields | content | ex | tag payload];
        try (destruct r; [discriminate Hs|rewrite store_elements_step in Hs; cbn [py_contains py_setitem py_getitem] in Hs; try discriminate Hs]).
      * destruct (is_substring a str); discriminate.
      * destruct (existsb (str_is a) l); discriminate.
      * specialize (Hd eq_refl). destruct x'; try discriminate.
        apply get_elements_fst_dict. exact Htop.
    + apply store_elements_err in Hs. destruct Hs as [-> _]. reflexivity.
  - change ((c :: p) ++ a :: r) with (c :: (p ++ a :: r)).
    change ((c :: p) ++ b :: r') with (c :: (p ++ b :: r')).
    destruct (p ++ a :: r) as [|k2 rest] eqn:Hp; [now destruct p|].
    destruct (p ++ b :: r') as [|k3 rest'] eqn:Hq; [now destruct p|].
    rewrite store_elements_step.
    destruct x as [| bb | z | f | str | str | l | d | cls fields | content | ex | tag payload];
      cbn [py_contains py_setitem py_getitem snd]; try reflexivity.
    + destruct (is_substring c str); reflexivity.
    + destruct (existsb (str_is c) l); reflexivity.
    + unfold dict_mem. destruct (dict_get c d) as [y|] eqn:Hg.
      * cbn [py_getitem]. rewrite Hg. specialize (IH y).
        destruct (store_elements (k2 :: rest) v y) as [r0 y']. cbn [snd] in *.
        rewrite !get_elements_step. cbn [py_contains]. unfold dict_mem.
        rewrite dict_get_set_eq, Hg. cbn [py_getitem]. rewrite dict_get_set_eq, Hg.
        destruct (get_elements (k3 :: rest') y') as [g1 y1].
        destruct (get_elements (k3 :: rest') y) as [g2 y2]. exact IH.
      * cbn [py_setitem py_getitem]. rewrite dict_get_set_eq. specialize (IH (VDict [])).
        destruct (store_elements (k2 :: rest) v (VDict [])) as [r0 y']. cbn [snd] in *.
        rewrite !get_elements_step. cbn [py_contains]. unfold dict_mem.
        rewrite dict_get_set_eq, Hg. cbn [py_setitem py_getitem]. rewrite !dict_get_set_eq.
        destruct (get_elements (k3 :: rest') y') as [g1 y1].
        destruct (get_elements (k3 :: rest') (VDict [])) as [g2 y2]. exact IH.
Qed.

(** X4. Keys that part at some segment are independent, in input data
    that hold no object under two keys (the states of this model): a
    store under one of them, whether it returns or raises, leaves what
    the lookup of the other returns as it was. *)
Theorem store_value_leaves_other_keys
        (w : env) (key key' : string) (p r r' : list string) (a b : string)
        (v : value) (s : SessionState) :
  split_dot key = p ++ a :: r ->
  split_dot key' = p ++ b :: r' ->
  a <> b ->
  outcome_of (interp w (_get_value key') (state_of (interp w (_store_value key v) s)))
  = outcome_of (interp w (_get_value key') s).
Proof.
  intros Hk Hk' Hab.
  pose proof (store_elements_apart p a b r r' v Hab (input_data s)) as Hap.
  unfold _store_value, _get_value. cbn [interp]. rewrite Hk, Hk'.
  destruct (store_elements (p ++ a :: r) v (input_data s)) as [r1 x1].
  cbn [interp snd] in *. rewrite interp_lift. cbn [state_of fst snd interp].
  simpl input_data.
  destruct (get_elements (p ++ b :: r') x1) as [g1 y1].
  destruct (get_elements (p ++ b :: r') (input_data s)) as [g2 y2].
  cbn [fst] in Hap. subst g2. cbn [interp]. rewrite !interp_lift. reflexivity.
Qed.

Lemma store_value_leaves_other_keys_witness :
  outcome_of (interp quiet_env (_get_value "a.c")
                (state_of (interp quiet_env (_store_value "a.b" (VInt 7))
                             (set_input_data sample_state
                                (VDict [("a", VDict [("c", VStr "kept")])])))))
  = outcome_of (interp quiet_env (_get_value "a.c")
                  (set_input_data sample_state
                     (VDict [("a", VDict [("c", VStr "kept")])]))).
Proof.
  apply (store_value_leaves_other_keys quiet_env "a.b" "a.c" ["a"] [] [] "b" "c");
    [reflexivity | reflexivity | discriminate].
Defined.

(** A lookup run again returns the same and changes nothing more. *)
Lemma get_elements_twice (ks : list string) :
  forall x r x', get_elements ks x = (r, x') -> get_elements ks x' = (r, x').
Proof.
  induction ks as [|k rest IH]; intros x r x'.
  - simpl. intros [= <- <-]. reflexivity.
  - destruct rest as [|k2 rest].
    + simpl. destruct (py_contains x k) as [[|]|e0] eqn:Hc.
      * destruct (py_getitem x k) eqn:Hg; intros [= <- <-]; now rewrite Hc, Hg.
      * intros [= <- <-]. now rewrite Hc.
      * intros [= <- <-]. now rewrite Hc.
    + intros H0. rewrite get_elements_step in H0.
      destruct (py_contains x k) as [present|e0] eqn:Hc.
      2:{ injection H0 as <- <-. now rewrite get_elements_step, Hc. }
      destruct present.
      * destruct (py_getitem x k) as [child|e0] eqn:Hg.
        2:{ injection H0 as <- <-. now rewrite get_elements_step, Hc, Hg. }
        destruct (get_elements (k2 :: rest) child) as [r0 child'] eqn:Hs.
        destruct x; try (cbn [py_getitem] in Hg; discriminate).
        injection H0 as <- <-. apply IH in Hs.
        rewrite get_elements_step. cbn [py_contains]. rewrite dict_mem_set.
        cbn [py_getitem]. rewrite dict_get_set_eq, Hs, dict_set_set. reflexivity.
      * destruct (py_setitem x k (VDict [])) as [x1|e0] eqn:Hset.
        2:{ injection H0 as <- <-. now rewrite get_elements_step, Hc, Hset. }
        destruct x; try discriminate. cbn [py_setitem] in Hset. injection Hset as <-.
        cbn [py_getitem] in H0. rewrite dict_get_set_eq in H0.
        destruct (get_elements (k2 :: rest) (VDict [])) as [r0 child'] eqn:Hs.
        injection H0 as <- <-. apply IH in Hs.
        rewrite get_elements_step. cbn [py_contains]. rewrite dict_mem_set.
        cbn [py_getitem]. rewrite dict_get_set_eq, Hs, !dict_set_set. reflexivity.
Qed.

(** X5. Looking a key up twice is looking it up once: the dicts the
    first lookup inserts are found by the second, which returns the same
    value (or raises the same exception) and leaves the state of the first. *)
Theorem get_value_twice (w : env) (key : string) (s : SessionState) :
  interp w (_get_value key ;; _get_value key) s = interp w (_get_value key) s.
Proof.
  rewrite interp_bind. unfold _get_value. cbn [interp].
  destruct (get_elements (split_dot key) (input_data s)) as [r1 x1] eqn:H1.
  pose proof (get_elements_twice _ _ _ _ H1) as H2.
  cbn [interp]. rewrite interp_lift. cbn [run_then]. destruct r1 as [y|e].
  - cbn [interp]. simpl input_data. rewrite H2.
    cbn [interp]. rewrite !interp_lift. destruct s; reflexivity.
  - reflexivity.
Qed.

Lemma get_elements_not_dict (ks : list string) (x : value) :
  is_dict x = false -> snd (get_elements ks x) = x.
Proof.
  intros Hx. destruct ks as [|k [|k2 rest]]; [reflexivity| |].
  - simpl. destruct (py_contains x k) as [[|]|]; try reflexivity.
    destruct (py_getitem x k); reflexivity.
  - rewrite get_elements_step.
    destruct x as [| bb | z | f | str | str | l | d | cls fields | content | ex | tag payload];
      cbn [py_contains py_setitem py_getitem]; try reflexivity; try discriminate.
    + destruct (is_substring k str); reflexivity.
    + destruct (existsb (str_is k) l); reflexivity.
Qed.

(** A lookup under one of two paths that part leaves what a lookup of the
    other returns as it was. *)
Lemma get_elements_apart (p : list string) (a b : string) (r r' : list string) :
  a <> b ->
  forall x,
    fst (get_elements (p ++ b :: r') (snd (get_elements (p ++ a :: r) x)))
    = fst (get_elements (p ++ b :: r') x).
Proof.
  intros Hab. induction p as [|c p IH]; intros x.
  - cbn [app].
    pose proof (get_elements_top (a :: r) x b ltac:(simpl; congruence)) as Htop.
    pose proof (get_elements_is_dict (a :: r) x) as Hd.
    destruct (is_dict x) eqn:Hx.
    + specialize (Hd eq_refl).
      destruct (snd (get_elements (a :: r) x)); try discriminate.
      destruct x; try discriminate.
      apply get_elements_fst_dict. exact Htop.
    + now rewrite get_elements_not_dict.
  - change ((c :: p) ++ a :: r) with (c :: (p ++ a :: r)).
    change ((c :: p) ++ b :: r') with (c :: (p ++ b :: r')).
    destruct (p ++ a :: r) as [|k2 rest] eqn:Hp; [now destruct p|].
    destruct (p ++ b :: r') as [|k3 rest'] eqn:Hq; [now destruct p|].
    destruct (is_dict x) eqn:Hx; [|now rewrite get_elements_not_dict].
    destruct x; try discriminate.
    rewrite (get_elements_step c k2). cbn [py_contains py_setitem py_getitem snd].
    unfold dict_mem. destruct (dict_get c d) as [y|] eqn:Hg.
    + cbn [py_getitem]. rewrite Hg. specialize (IH y).
      destruct (get_elements (k2 :: rest) y) as [r0 y']. cbn [snd] in *.
      rewrite !get_elements_step. cbn [py_contains]. unfold dict_mem.
      rewrite dict_get_set_eq, Hg. cbn [py_getitem]. rewrite dict_get_set_eq, Hg.
      destruct (get_elements (k3 :: rest') y') as [g1 y1].
      destruct (get_elements (k3 :: rest') y) as [g2 y2]. exact IH.
    + cbn [py_setitem py_getitem]. rewrite dict_get_set_eq. specialize (IH (VDict [])).
      destruct (get_elements (k2 :: rest) (VDict [])) as [r0 y']. cbn [snd] in *.
      rewrite !get_elements_step. cbn [py_contains]. unfold dict_mem.
      rewrite dict_get_set_eq, Hg. cbn [py_setitem py_getitem]. rewrite !dict_get_set_eq.
      destruct (get_elements (k3 :: rest') y') as [g1 y1].
      destruct (get_elements (k3 :: rest') (VDict [])) as [g2 y2]. exact IH.
Qed.

(** X6. A lookup changes the state (it inserts the dicts that are
    missing on its way), yet, in input data that hold no object under
    two keys (the states of this model), never what a key that parts from
    it returns: the lookup of [key'] gives the same after a lookup of
    [key] as before. *)
Theorem get_value_leaves_other_keys
        (w : env) (key key' : string) (p r r' : list string) (a b : string)
        (s : SessionState) :
  split_dot key = p ++ a :: r ->
  split_dot key' = p ++ b :: r' ->
  a <> b ->
  outcome_of (interp w (_get_value key') (state_of (interp w (_get_value key) s)))
  = outcome_of (interp w (_get_value key') s).
Proof.
  intros Hk Hk' Hab.
  pose proof (get_elements_apart p a b r r' Hab (input_data s)) as Hap.
  unfold _get_value. cbn [interp]. rewrite Hk, Hk'.
  destruct (get_elements (p ++ a :: r) (input_data s)) as [r1 x1].
  cbn [interp snd] in *. rewrite interp_lift. cbn [state_of fst snd interp].
  simpl input_data.
  destruct (get_elements (p ++ b :: r') x1) as [g1 y1].
  destruct (get_elements (p ++ b :: r') (input_data s)) as [g2 y2].
  cbn [fst] in Hap. subst g2. cbn [interp]. rewrite !interp_lift. reflexivity.
Qed.

Lemma get_value_leaves_other_keys_witness :
  outcome_of (interp quiet_env (_get_value "a.c")
                (state_of (interp quiet_env (_get_value "a.b.d")
                             (set_input_data sample_state
                                (VDict [("a", VDict [("c", VStr "kept")])])))))
  = outcome_of (interp quiet_env (_get_value "a.c")
                  (set_input_data sample_state
                     (VDict [("a", VDict [("c", VStr "kept")])]))).
Proof.
  apply (get_value_leaves_other_keys quiet_env "a.b.d" "a.c" ["a"] ["d"] [] "b" "c");
    [reflexivity | reflexivity | discriminate].
Defined.

(** ** The calls a program makes *)

Lemma forallb_app_true {A : Type} (P : A -> bool) (l1 l2 : list A) :
  forallb P l1 = true -> forallb P l2 = true -> forallb P (l1 ++ l2) = true.
Proof. intros H1 H2. rewrite forallb_app, H1, H2. reflexivity. Qed.

Section Calls.

Variable P : call -> bool.
Hypothesis P_widget : forall app m args kw, P (Widget app m args kw) = true.
Hypothesis P_enter : forall cm, P (WithEnter cm) = true.
Hypothesis P_exit : forall cm, P (WithExit cm) = true.

Lemma calls_ret {A : Type} (a : A) : calls_only P (Ret a).
Proof. intros w s. reflexivity. Qed.

Lemma calls_raise {A : Type} (e : exn) : calls_only P (@Raise A e).
Proof. intros w s. reflexivity. Qed.

Lemma calls_lift {A : Type} (r : outcome A) : calls_only P (lift r).
Proof. intros w s. now rewrite interp_lift. Qed.

Lemma calls_Get {A : Type} (k : SessionState -> prog A) :
  (forall s, calls_only P (k s)) -> calls_only P (Get k).
Proof. intros Hk w s. apply (Hk s w s). Qed.

Lemma calls_Put {A : Type} (s0 : SessionState) (k : prog A) :
  calls_only P k -> calls_only P (Put s0 k).
Proof. intros Hk w s. apply (Hk w s0). Qed.

Lemma calls_Ext {A : Type} (c : call) (k : outcome value -> prog A) :
  P c = true -> (forall r, calls_only P (k r)) -> calls_only P (Ext c k).
Proof.
  intros Hc Hk w s. specialize (Hk (w c) w s). unfold trace_of in *. simpl.
  destruct (interp w (k (w c)) s) as [[r s'] t]. simpl in *. now rewrite Hc.
Qed.

Lemma calls_widget (app : st_app) (m : string) (args : list value) (kw : dict) :
  calls_only P (widget app m args kw).
Proof. apply calls_Ext; [apply P_widget|]. intros r. apply calls_lift. Qed.

Lemma calls_bind {A B : Type} (p : prog A) (f : A -> prog B) :
  calls_only P p -> (forall a, calls_only P (f a)) -> calls_only P (bind p f).
Proof.
  intros Hp Hf w s. rewrite interp_bind. specialize (Hp w s). unfold trace_of in *.
  destruct (interp w p s) as [[r s1] t1]. simpl in *. destruct r as [a|e]; [|exact Hp].
  specialize (Hf a w s1). destruct (interp w (f a) s1) as [[r2 s2] t2]. simpl in *.
  now apply forallb_app_true.
Qed.

Lemma calls_reify {A : Type} (p : prog A) :
  calls_only P p -> calls_only P (reify p).
Proof.
  intros Hp w s. rewrite interp_reify. specialize (Hp w s). unfold trace_of in *.
  now destruct (interp w p s) as [[r s1] t1].
Qed.

Lemma calls_try_except {A : Type} (p : prog A) (handler : exn -> prog A) :
  calls_only P p -> (forall e, calls_only P (handler e)) ->
  calls_only P (try_except p handler).
Proof.
  intros Hp Hh. unfold try_except. apply calls_bind; [now apply calls_reify|].
  intros [a|e]; [apply calls_ret|].
  destruct (is_Exception e); [apply Hh|apply calls_raise].
Qed.

Lemma calls_try_except_ValidationError {A : Type} (p : prog A) (handler : exn -> prog A) :
  calls_only P p -> (forall e, calls_only P (handler e)) ->
  calls_only P (try_except_ValidationError p handler).
Proof.
  intros Hp Hh. unfold try_except_ValidationError.
  apply calls_bind; [now apply calls_reify|].
  intros [a|e]; [apply calls_ret|].
  destruct (is_ValidationError e); [apply Hh|apply calls_raise].
Qed.

Lemma calls_with {A : Type} (cm : value) (body : prog A) :
  calls_only P body -> calls_only P (with_ cm body).
Proof.
  intros Hb. unfold with_, ext.
  apply calls_bind; [apply calls_Ext; [apply P_enter|intros; apply calls_lift]|]. intros _.
  apply calls_bind; [now apply calls_reify|]. intros r.
  apply calls_bind; [apply calls_Ext; [apply P_exit|intros; apply calls_lift]|]. intros _.
  apply calls_lift.
Qed.

Lemma calls_when (b : bool) (p : prog value) :
  calls_only P p -> calls_only P (when b p).
Proof.
  intros Hp. unfold when. destruct b; [|apply calls_ret].
  apply calls_bind; [exact Hp|]. intros _. apply calls_ret.
Qed.

Lemma calls_foldM {A B : Type} (f : B -> A -> prog B) (l : list A) :
  (forall acc x, calls_only P (f acc x)) -> forall acc, calls_only P (foldM f l acc).
Proof.
  intros Hf. induction l as [|x l IH]; intros acc; simpl; [apply calls_ret|].
  apply calls_bind; [apply Hf|]. intros acc'. apply IH.
Qed.

Lemma calls_get_value (key : string) : calls_only P (_get_value key).
Proof.
  intros w s. unfold _get_value, trace_of. simpl.
  destruct (get_elements (split_dot key) (input_data s)) as [r d]. simpl.
  now rewrite interp_lift.
Qed.

Lemma calls_store_value (key : string) (v : value) : calls_only P (_store_value key v).
Proof.
  intros w s. unfold _store_value, trace_of. simpl.
  destruct (store_elements (split_dot key) v (input_data s)) as [r d]. simpl.
  now rewrite interp_lift.
Qed.

Lemma calls_update_stored (key : string) (v : value) : calls_only P (update_stored key v).
Proof. intros w s. reflexivity. Qed.

Lemma calls_view_stored (key : string) (stored : value) :
  calls_only P (view_stored key stored).
Proof. intros w s. reflexivity. Qed.

Lemma calls_default_kwargs `{Runtime} (key : string) (property : dict) :
  calls_only P (_get_default_streamlit_input_kwargs key property).
Proof. intros w s. reflexivity. Qed.

Ltac calls_step :=
  match goal with
  | |- calls_only _ (bind _ _) => apply calls_bind; [|intros]
  | |- calls_only _ (Ret _) => apply calls_ret
  | |- calls_only _ (Raise _) => apply calls_raise
  | |- calls_only _ (lift _) => apply calls_lift
  | |- calls_only _ (widget _ _ _ _) => apply calls_widget
  | |- calls_only _ (when _ _) => apply calls_when
  | |- calls_only _ (with_ _ _) => apply calls_with
  | |- calls_only _ (try_except _ _) => apply calls_try_except; [|intros]
  | |- calls_only _ (try_except_ValidationError _ _) =>
      apply calls_try_except_ValidationError; [|intros]
  | |- calls_only _ (foldM _ _ _) => apply calls_foldM; intros
  | |- calls_only _ (Get _) => apply calls_Get; intros
  | |- calls_only _ (Put _ _) => apply calls_Put
  | |- calls_only _ (_get_default_streamlit_input_kwargs _ _) =>
      apply calls_default_kwargs
  | |- calls_only _ (_get_value _) => apply calls_get_value
  | |- calls_only _ (_store_value _ _) => apply calls_store_value
  | |- calls_only _ (update_stored _ _) => apply calls_update_stored
  | |- calls_only _ (view_stored _ _) => apply calls_view_stored
  | |- calls_only _ (if ?b then _ else _) => destruct b
  | |- calls_only _ (match ?x with _ => _ end) => destruct x
  | |- calls_only _ _ => progress cbv beta zeta
  end.

Ltac calls := repeat calls_step.

Context `{SchemaUtils} `{Runtime}.

Lemma calls_single_datetime (app : st_app) (key : string) (property : dict) :
  calls_only P (_render_single_datetime_input app key property).
Proof. unfold _render_single_datetime_input, default_from. calls. Qed.

Lemma calls_single_file (app : st_app) (key : string) (property : dict) :
  calls_only P (_render_single_file_input app key property).
Proof. unfold _render_single_file_input, file_extension_of. calls. Qed.

Lemma calls_single_string (app : st_app) (key : string) (property : dict) :
  calls_only P (_render_single_string_input app key property).
Proof. unfold _render_single_string_input. calls. Qed.

Lemma calls_multi_enum (self : InputUI) (app : st_app) (key : string) (property : dict) :
  calls_only P (_render_multi_enum_input self app key property).
Proof. unfold _render_multi_enum_input. calls. Qed.

Lemma calls_single_enum (self : InputUI) (app : st_app) (key : string) (property : dict) :
  calls_only P (_render_single_enum_input self app key property).
Proof. unfold _render_single_enum_input. calls. Qed.

Lemma calls_single_dict (app : st_app) (key : string) (property : dict) :
  calls_only P (_render_single_dict_input app key property).
Proof. unfold _render_single_dict_input, new_value_input. calls. Qed.

Lemma calls_multi_file (app : st_app) (key : string) (property : dict) :
  calls_only P (_render_multi_file_input app key property).
Proof. unfold _render_multi_file_input, file_extension_of. calls. Qed.

Lemma calls_single_boolean (app : st_app) (key : string) (property : dict) :
  calls_only P (_render_single_boolean_input app key property).
Proof. unfold _render_single_boolean_input. calls. Qed.

Lemma calls_single_number (app : st_app) (key : string) (property : dict) :
  calls_only P (_render_single_number_input app key property).
Proof. unfold _render_single_number_input. calls. Qed.

Lemma calls_property_list (app : st_app) (key : string) (property : dict) :
  calls_only P (_render_property_list_input app key property).
Proof. unfold _render_property_list_input, new_value_input, clear_or_add. calls. Qed.

Section CallsDescend.

Variable self : InputUI.
Variable render : st_app -> string -> dict -> prog value.
Hypothesis calls_render : forall app key property, calls_only P (render app key property).

Lemma calls_object_input (app : st_app) (key : string) (property : value) :
  calls_only P (_render_object_input render app key property).
Proof. unfold _render_object_input. calls. apply calls_render. Qed.

Lemma calls_single_reference (app : st_app) (key : string) (property : dict) :
  calls_only P (_render_single_reference self render app key property).
Proof. unfold _render_single_reference. calls. apply calls_render. Qed.

Lemma calls_single_object (app : st_app) (key : string) (property : dict) :
  calls_only P (_render_single_object_input self render app key property).
Proof. unfold _render_single_object_input. calls. apply calls_object_input. Qed.

Lemma calls_object_list (app : st_app) (key : string) (property : dict) :
  calls_only P (_render_object_list_input self render app key property).
Proof.
  unfold _render_object_list_input, clear_or_add. calls;
    apply calls_object_input.
Qed.

End CallsDescend.

Lemma calls_render_property (self : InputUI) (fuel : nat) :
  forall app key property, calls_only P (_render_property self fuel app key property).
Proof.
  induction fuel as [|fuel IH]; intros app key property; cbn [_render_property].
  - apply calls_raise.
  - destruct (is_single_enum_property _ _); [apply calls_single_enum|].
    destruct (is_multi_enum_property _ _); [apply calls_multi_enum|].
    destruct (is_single_file_property _); [apply calls_single_file|].
    destruct (is_multi_file_property _); [apply calls_multi_file|].
    destruct (is_single_datetime_property _); [apply calls_single_datetime|].
    destruct (is_single_boolean_property _); [apply calls_single_boolean|].
    destruct (is_single_dict_property _); [apply calls_single_dict|].
    destruct (is_single_number_property _); [apply calls_single_number|].
    destruct (is_single_string_property _); [apply calls_single_string|].
    destruct (is_single_object _ _); [now apply calls_single_object|].
    destruct (is_object_list_property _ _); [now apply calls_object_list|].
    destruct (is_property_list _); [apply calls_property_list|].
    destruct (is_single_reference _); [now apply calls_single_reference|].
    calls.
Qed.

Lemma calls_render_ui_loop (self : InputUI) (fuel : nat) (required : value) (keys : list string) :
  calls_only P (render_ui_loop self fuel required keys).
Proof.
  unfold render_ui_loop, render_ui_property, render_and_store. calls.
  apply calls_render_property.
Qed.

Lemma calls_clear_and_execute_buttons : calls_only P clear_and_execute_buttons.
Proof. unfold clear_and_execute_buttons. calls. Qed.

Lemma calls_render_inputs (fuel : nat) (opyrator : Opyrator) :
  render_input_ui (input_type opyrator) = None ->
  calls_only P (render_inputs fuel opyrator).
Proof.
  intros Hnone. unfold render_inputs, InputUI_render_ui. cbn [InputUI_init _input_class].
  rewrite Hnone. calls. apply calls_render_ui_loop.
Qed.

Section CallsOutput.

Hypothesis P_log : forall m, P (Log m) = true.
Hypothesis calls_custom_output :
  forall x r app i, render_output_ui x = Some r -> calls_only P (render_output r app i).

Lemma calls_log (m : string) : calls_only P (log m).
Proof. apply calls_Ext; [apply P_log|]. intros r. apply calls_ret. Qed.

Ltac calls_out_step :=
  match goal with
  | |- calls_only _ (log _) => apply calls_log
  | |- calls_only _ (render_output _ _ _) => eapply calls_custom_output; eassumption
  | |- calls_only _ (match render_output_ui ?v with _ => _ end) =>
      destruct (render_output_ui v) eqn:?
  | |- _ => calls_step
  end.

Ltac calls_out := repeat calls_out_step.

Lemma calls_subheader_and_description (app : st_app) (property_schema : dict) :
  calls_only P (subheader_and_description app property_schema).
Proof. unfold subheader_and_description. calls. Qed.

Lemma calls_single_text_property (app : st_app) (property_schema : dict) (v : value) :
  calls_only P (_render_single_text_property app property_schema v).
Proof.
  unfold _render_single_text_property.
  apply calls_bind; [apply calls_subheader_and_description|]. intros _. calls.
Qed.

Lemma calls_single_file_property (app : st_app) (property_schema : dict) (v : value) :
  calls_only P (_render_single_file_property app property_schema v).
Proof.
  unfold _render_single_file_property.
  apply calls_bind; [apply calls_subheader_and_description|]. intros _. calls.
Qed.

Lemma calls_single_complex_property (app : st_app) (property_schema : dict) (v : value) :
  calls_only P (_render_single_complex_property app property_schema v).
Proof.
  unfold _render_single_complex_property.
  apply calls_bind; [apply calls_subheader_and_description|]. intros _. calls.
Qed.

Lemma calls_render_output_field (render_single_output : st_app -> value -> prog unit)
      (app : st_app) (model_properties definitions : value) (property_key : string)
      (v : value) :
  (forall app' x, calls_only P (render_single_output app' x)) ->
  calls_only P (render_output_field render_single_output app model_properties
                  definitions property_key v).
Proof.
  intros Hrec. unfold render_output_field.
  calls_out;
    try apply calls_subheader_and_description;
    try apply calls_single_file_property;
    try apply calls_single_text_property;
    try apply calls_single_complex_property;
    try apply Hrec.
Qed.

Lemma calls_single_output (out : OutputUI) (fuel : nat) :
  forall app x, calls_only P (_render_single_output out fuel app x).
Proof.
  induction fuel as [|fuel IH]; intros app x; cbn [_render_single_output].
  - apply calls_raise.
  - calls_out. apply calls_render_output_field. exact IH.
Qed.

Lemma calls_list_output (app : st_app) (x : value) :
  calls_only P (_render_list_output app x).
Proof. unfold _render_list_output. calls_out. Qed.

Lemma calls_output_render_ui (out : OutputUI) (fuel : nat) :
  calls_only P (OutputUI_render_ui out fuel).
Proof.
  unfold OutputUI_render_ui, render_ui_fallback. calls_out;
    [apply calls_single_output|apply calls_list_output].
Qed.

Lemma calls_show_json_section : calls_only P show_json_section.
Proof. unfold show_json_section. calls. Qed.

Lemma calls_render_output_section (fuel : nat) :
  calls_only P (render_output_section fuel).
Proof.
  unfold render_output_section. calls;
    [apply calls_output_render_ui|apply calls_show_json_section].
Qed.

End CallsOutput.

End Calls.

(** ** The input form only draws *)

Lemma not_invoke_streamlit (t : list call) :
  forallb is_streamlit_call t = true -> forallb not_invoke t = true.
Proof.
  induction t as [|c t IH]; [reflexivity|]. simpl.
  intros Hc. apply andb_true_iff in Hc. destruct Hc as [Hc Ht].
  rewrite (IH Ht). now destruct c.
Qed.

Lemma invocations_none (t : list call) :
  forallb not_invoke t = true -> invocations t = [].
Proof.
  induction t as [|c t IH]; [reflexivity|]. simpl.
  intros Hc. apply andb_true_iff in Hc. destruct Hc as [Hc Ht].
  unfold not_invoke in Hc. destruct (is_invoke c); [discriminate|]. now apply IH.
Qed.

Lemma invocations_app (t1 t2 : list call) :
  invocations (t1 ++ t2) = invocations t1 ++ invocations t2.
Proof. apply filter_app. Qed.

Lemma same_results_refl (s : SessionState) : same_results s s.
Proof. repeat split. Qed.

Lemma same_results_trans (s1 s2 s3 : SessionState) :
  same_results s1 s2 -> same_results s2 s3 -> same_results s1 s3.
Proof. unfold same_results. intros (? & ? & ?) (? & ? & ?). repeat split; congruence. Qed.

Lemma same_but_results (h : string) (s s' : SessionState) :
  same_but h s s' -> same_results s s'.
Proof. intros (? & ? & ? & _). repeat split; assumption. Qed.

(** The loop of [render_ui] leaves everything but the input data alone. *)
Lemma render_ui_loop_results `{SchemaUtils} `{Runtime} (w : env) (self : InputUI)
      (fuel : nat) (required : value) (keys : list string) :
  forall s, same_results s (state_of (interp w (render_ui_loop self fuel required keys) s)).
Proof.
  unfold render_ui_loop.
  induction keys as [|k0 keys IH]; intros s; [apply same_results_refl|].
  cbn [foldM]. rewrite interp_bind.
  pose proof (touches_render_ui_property self fuel required k0 w s) as Hs.
  apply same_but_results in Hs. unfold state_of in *.
  destruct (interp w (render_ui_property self fuel required k0) s) as [[r s1] t1].
  cbn [run_then fst snd] in *.
  destruct r as [[]|e]; [|exact Hs].
  specialize (IH s1).
  destruct (interp w (foldM _ keys tt) s1) as [[r2 s2] t2].
  cbn [fst snd] in *. eapply same_results_trans; eassumption.
Qed.

(** X7. The form [InputUI.render_ui] generates from the schema only
    draws: whatever the schema holds and whatever the widgets answer,
    every call it makes is a call to streamlit (it never invokes the
    operation and never logs, not even when a property fails), and it
    changes nothing of the session but the input data. *)
Theorem input_ui_only_draws `{SchemaUtils} `{Runtime} (w : env) (self : InputUI)
        (fuel : nat) (s : SessionState) :
  render_input_ui (_input_class self) = None ->
  forallb is_streamlit_call (trace_of (interp w (InputUI_render_ui self fuel) s)) = true
  /\ same_results s (state_of (interp w (InputUI_render_ui self fuel) s)).
Proof.
  intros Hnone. unfold InputUI_render_ui. rewrite Hnone.
  rewrite interp_bind, interp_lift.
  destruct (as_dict (_schema_properties self)) as [properties|e]; cbn [run_then].
  - pose proof (calls_render_ui_loop is_streamlit_call
                  (fun _ _ _ _ => eq_refl) (fun _ => eq_refl) (fun _ => eq_refl)
                  self fuel (required_properties_of self) (dict_keys properties) w s) as Hc.
    pose proof (render_ui_loop_results w self fuel (required_properties_of self)
                  (dict_keys properties) s) as Hs.
    unfold trace_of, state_of in *.
    destruct (interp w (render_ui_loop self fuel (required_properties_of self)
                          (dict_keys properties)) s) as [[r s1] t1].
    cbn [fst snd] in *. split; assumption.
  - split; [reflexivity|apply same_results_refl].
Qed.

Lemma input_ui_only_draws_witness :
  forallb is_streamlit_call
    (trace_of (interp sample_env
                 (@InputUI_render_ui sample_schema_utils sample_runtime
                    (InputUI_init sample_input) 5) sample_state)) = true
  /\ same_results sample_state
       (state_of (interp sample_env
                    (@InputUI_render_ui sample_schema_utils sample_runtime
                       (InputUI_init sample_input) 5) sample_state)).
Proof.
  apply (@input_ui_only_draws sample_schema_utils sample_runtime sample_env
           (InputUI_init sample_input) 5 sample_state).
  reflexivity.
Defined.

(** ** The block under [if execute_selected:] *)

(** What the block can do, over every outside: it leaves the session as
    it was, having invoked the operation not at all or once in vain; or
    the input data parsed, the one invocation returned, and the result
    and the parsed input are both in the session. *)
Lemma execute_operation_cases (w : env) (opyrator : Opyrator) (s : SessionState) :
  (state_of (interp w (execute_operation opyrator) s) = s
   /\ (invocations (trace_of (interp w (execute_operation opyrator) s)) = []
       \/ exists obj e,
            parse_obj_as (input_type opyrator) (input_data s) = Ok obj
            /\ w (Invoke obj) = Err e
            /\ invocations (trace_of (interp w (execute_operation opyrator) s))
               = [Invoke obj]))
  \/ exists obj out,
       parse_obj_as (input_type opyrator) (input_data s) = Ok obj
       /\ w (Invoke obj) = Ok out
       /\ state_of (interp w (execute_operation opyrator) s)
          = set_latest_operation_input (set_output_data s out) obj
       /\ invocations (trace_of (interp w (execute_operation opyrator) s)) = [Invoke obj].
Proof.
  unfold execute_operation.
  rewrite interp_bind, interp_widget.
  destruct (w (Widget St "spinner" _ _)) as [cm|e0]; cbn [run_then];
    [|left; split; [reflexivity|left; reflexivity]].
  rewrite interp_with.
  destruct (w (WithEnter cm)) as [x1|e0];
    [|left; split; [reflexivity|left; reflexivity]].
  rewrite interp_try_except_ValidationError. cbn [interp].
  rewrite interp_bind, interp_lift.
  destruct (parse_obj_as (input_type opyrator) (input_data s)) as [obj|e] eqn:Hparse;
    cbn [run_then].
  - rewrite interp_bind, interp_ext.
    destruct (w (Invoke obj)) as [out|e] eqn:Hinv; cbn [run_then interp].
    + right. exists obj, out.
      destruct (w (WithExit cm)); repeat split; assumption.
    + left. destruct (is_ValidationError e).
      * rewrite interp_bind, interp_widget.
        destruct (w (Widget St "error" _ _)); cbn [run_then interp];
          destruct (w (WithExit cm)); (split; [reflexivity|right; exists obj, e; repeat split; assumption]).
      * destruct (w (WithExit cm)); (split; [reflexivity|right; exists obj, e; repeat split; assumption]).
  - left. destruct (is_ValidationError e).
    + rewrite interp_bind, interp_widget.
      destruct (w (Widget St "error" _ _)); cbn [run_then interp];
        destruct (w (WithExit cm)); (split; [reflexivity|left; reflexivity]).
    + destruct (w (WithExit cm)); (split; [reflexivity|left; reflexivity]).
Qed.

Lemma execute_operation_invokes_once (w : env) (opyrator : Opyrator) (s : SessionState) :
  (List.length (invocations (trace_of (interp w (execute_operation opyrator) s))) <= 1)%nat.
Proof.
  destruct (execute_operation_cases w opyrator s)
    as [[_ [-> | (obj & e & _ & _ & ->)]] | (obj & out & _ & _ & _ & ->)]; simpl; lia.
Qed.

(** X8. The block under [if execute_selected:] is all or nothing, over
    every outside (an operation that raises, a spinner that fails, ...):
    either it leaves the session exactly as it was, or the input data
    parsed, the operation was invoked once on the parsed input and
    returned, and both the result and the parsed input are in the
    session. It never stores the one without the other, and never invokes
    the operation twice. *)
Theorem execute_operation_all_or_nothing (w : env) (opyrator : Opyrator)
        (s : SessionState) :
  (List.length (invocations (trace_of (interp w (execute_operation opyrator) s))) <= 1)%nat
  /\ (state_of (interp w (execute_operation opyrator) s) = s
      \/ exists obj out,
           parse_obj_as (input_type opyrator) (input_data s) = Ok obj
           /\ w (Invoke obj) = Ok out
           /\ state_of (interp w (execute_operation opyrator) s)
              = set_latest_operation_input (set_output_data s out) obj
           /\ invocations (trace_of (interp w (execute_operation opyrator) s))
              = [Invoke obj]).
Proof.
  split; [apply execute_operation_invokes_once|].
  destruct (execute_operation_cases w opyrator s) as [[Hs _]|Hdone]; [now left|now right].
Qed.

(** ** The whole run *)

(** What the buttons return is the answer of the Execute button. *)
Lemma clear_and_execute_buttons_answer `{Runtime} (w : env) (s s' : SessionState)
      (v : value) (t : list call) :
  interp w clear_and_execute_buttons s = (Ok v, s', t) -> w execute_button = Ok v.
Proof.
  unfold clear_and_execute_buttons, execute_button.
  rewrite interp_bind, interp_widget. cbn [run_then].
  destruct (w _) as [cols|e]; [|discriminate].
  rewrite interp_bind, interp_lift. cbn [run_then].
  destruct (unpack2 cols) as [[clear_col execute_col]|e]; [|discriminate].
  rewrite interp_bind, interp_with.
  destruct (w (WithEnter clear_col)) as [x|e]; [|discriminate].
  rewrite interp_bind, interp_widget. cbn [run_then].
  destruct (w (Widget St "button" [VStr "Clear"] [])) as [pressed|e].
  - destruct (truthy pressed).
    + rewrite interp_bind. cbn [interp run_then].
      rewrite interp_bind, interp_widget. cbn [run_then].
      destruct (w (Widget St "experimental_rerun" [] [])); cbn [interp];
        destruct (w (WithExit clear_col)); discriminate.
    + cbn [interp]. destruct (w (WithExit clear_col)); [|discriminate].
      cbn [run_then]. rewrite interp_with.
      destruct (w (WithEnter execute_col)); [|discriminate].
      rewrite interp_widget.
      destruct (w (WithExit execute_col)); [|discriminate].
      destruct (w (Widget St "button" [VStr "Execute"] [])); intros [= <- _ _]; reflexivity.
  - destruct (w (WithExit clear_col)); discriminate.
Qed.

Lemma not_invoke_widget (app : st_app) (m : string) (args : list value) (kw : dict) :
  not_invoke (Widget app m args kw) = true.
Proof. reflexivity. Qed.

Lemma not_invoke_enter (cm : value) : not_invoke (WithEnter cm) = true.
Proof. reflexivity. Qed.

Lemma not_invoke_exit (cm : value) : not_invoke (WithExit cm) = true.
Proof. reflexivity. Qed.

Lemma not_invoke_log (m : string) : not_invoke (Log m) = true.
Proof. reflexivity. Qed.

(** X9. The operation runs only on Execute, and once: in a run of
    [render_streamlit_ui] with the generated input form and custom output
    renderers that do not call the operation themselves, whatever the
    outside answers, the operation is invoked at most once, and only if
    the Execute button answered with a truthy value. Redrawing the page,
    a former output included, never runs the operation again. *)
Theorem operation_invoked_only_on_execute `{SchemaUtils} `{Runtime} (w : env)
        (fuel : nat) (opyrator : Opyrator) (s : SessionState) :
  render_input_ui (input_type opyrator) = None ->
  (forall x r app i, render_output_ui x = Some r ->
                     calls_only not_invoke (render_output r app i)) ->
  (List.length (invocations (trace_of (interp w (render_streamlit_ui fuel opyrator) s)))
   <= 1)%nat
  /\ (invocations (trace_of (interp w (render_streamlit_ui fuel opyrator) s)) <> [] ->
      exists v, w execute_button = Ok v /\ truthy v = true).
Proof.
  intros Hnone Hcustom.
  unfold render_streamlit_ui. rewrite interp_bind.
  pose proof (calls_render_inputs not_invoke not_invoke_widget not_invoke_enter
                not_invoke_exit fuel opyrator Hnone w s) as H1.
  destruct (interp w (render_inputs fuel opyrator) s) as [[r1 s1] t1].
  unfold trace_of in *. cbn [snd] in H1. apply invocations_none in H1.
  destruct r1 as [[]|e1]; cbn [run_then].
  2:{ cbn [snd]. rewrite H1. split; [simpl; lia|simpl; intros Hne; now elim Hne]. }
  rewrite interp_bind.
  pose proof (calls_clear_and_execute_buttons not_invoke not_invoke_widget
                not_invoke_enter not_invoke_exit w s1) as H2.
  destruct (interp w clear_and_execute_buttons s1) as [[r2 s2] t2] eqn:E2.
  unfold trace_of in *. cbn [snd] in H2. apply invocations_none in H2.
  destruct r2 as [v|e2]; cbn [run_then].
  2:{ cbn [snd]. rewrite invocations_app, H1, H2. split; [simpl; lia|simpl; intros Hne; now elim Hne]. }
  apply clear_and_execute_buttons_answer in E2.
  rewrite interp_bind.
  pose proof (execute_operation_invokes_once w opyrator s2) as H3.
  destruct (truthy v) eqn:Hv.
  - destruct (interp w (execute_operation opyrator) s2) as [[r3 s3] t3].
    unfold trace_of in *. cbn [snd] in H3.
    destruct r3 as [[]|e3]; cbn [run_then].
    + assert (H4 : calls_only not_invoke (render_output_section fuel))
        by (apply calls_render_output_section;
            auto using not_invoke_widget, not_invoke_enter, not_invoke_exit, not_invoke_log).
      specialize (H4 w s3).
      destruct (interp w (render_output_section fuel) s3) as [[r4 s4] t4].
      unfold trace_of in *. cbn [snd] in *. apply invocations_none in H4.
      rewrite !invocations_app, H1, H2, H4, app_nil_r. cbn [app].
      split; [exact H3|]. intros _. now exists v.
    + cbn [snd]. rewrite !invocations_app, H1, H2. cbn [app].
      split; [exact H3|]. intros _. now exists v.
  - cbn [interp run_then].
    assert (H4 : calls_only not_invoke (render_output_section fuel))
      by (apply calls_render_output_section;
          auto using not_invoke_widget, not_invoke_enter, not_invoke_exit, not_invoke_log).
    specialize (H4 w s2).
    destruct (interp w (render_output_section fuel) s2) as [[r4 s4] t4].
    unfold trace_of in *. cbn [snd] in *. apply invocations_none in H4.
    rewrite !invocations_app, H1, H2, H4. split; [simpl; lia|]. simpl. intros Hne; now elim Hne.
Qed.

Lemma operation_invoked_only_on_execute_witness :
  (List.length
     (invocations
        (trace_of (interp sample_env
                     (@render_streamlit_ui sample_schema_utils sample_runtime 5
                        sample_opyrator) sample_state))) <= 1)%nat
  /\ (invocations
        (trace_of (interp sample_env
                     (@render_streamlit_ui sample_schema_utils sample_runtime 5
                        sample_opyrator) sample_state)) <> [] ->
      exists v, sample_env execute_button = Ok v /\ truthy v = true).
Proof.
  apply (@operation_invoked_only_on_execute sample_schema_utils sample_runtime
           sample_env 5 sample_opyrator sample_state).
  - reflexivity.
  - intros x r app i Hr. discriminate Hr.
Defined.

(** X10. Clear. When the Clear button answers with a truthy value, the
    run clears the session and calls [st.experimental_rerun], which stops
    the script by raising (streamlit raises its RerunException there):
    the run leaves the column and ends with that exception, the session
    cleared; the Execute button is not drawn, the operation is not
    invoked and no output is rendered. *)
Theorem clear_resets_session_and_reruns `{SchemaUtils} `{Runtime} (w : env)
        (fuel : nat) (opyrator : Opyrator) (s0 s1 : SessionState) (t1 : list call)
        (cols clear_col execute_col x1 x3 pressed : value) (e : exn) :
  interp w (render_inputs fuel opyrator) s0 = (Ok tt, s1, t1) ->
  w (Widget St "beta_columns" [VList [VInt 1; VInt 2]] []) = Ok cols ->
  unpack2 cols = Ok (clear_col, execute_col) ->
  w (WithEnter clear_col) = Ok x1 ->
  w clear_button = Ok pressed ->
  truthy pressed = true ->
  w (Widget St "experimental_rerun" [] []) = Err e ->
  w (WithExit clear_col) = Ok x3 ->
  interp w (render_streamlit_ui fuel opyrator) s0
  = (Err e, session_clear s1,
     t1 ++ [Widget St "beta_columns" [VList [VInt 1; VInt 2]] [];
            WithEnter clear_col; clear_button;
            Widget St "experimental_rerun" [] []; WithExit clear_col]).
Proof.
  intros Hin Hcols Hun Henter Hclear Htruthy Hrerun Hexit.
  unfold render_streamlit_ui. rewrite interp_bind, Hin. cbn [run_then].
  rewrite interp_bind. unfold clear_and_execute_buttons.
  rewrite interp_bind, interp_widget, Hcols. cbn [run_then].
  rewrite interp_bind, interp_lift, Hun. cbn [run_then].
  rewrite interp_bind, interp_with, Henter.
  rewrite interp_bind, interp_widget. fold clear_button. rewrite Hclear. cbn [run_then].
  rewrite Htruthy. rewrite interp_bind. cbn [interp run_then].
  rewrite interp_bind, interp_widget, Hrerun. cbn [run_then interp].
  rewrite Hexit. cbn [run_then app]. reflexivity.
Qed.

Lemma clear_resets_session_and_reruns_witness :
  let x := interp clear_env (@render_inputs sample_schema_utils sample_runtime 5
                               sample_opyrator) sample_state in
  interp clear_env (@render_streamlit_ui sample_schema_utils sample_runtime 5
                      sample_opyrator) sample_state
  = (Err (Exn RerunException "rerun"), @session_clear sample_runtime (state_of x),
     trace_of x ++ [Widget St "beta_columns" [VList [VInt 1; VInt 2]] [];
                    WithEnter (VOpaque "column" [VInt 0]); clear_button;
                    Widget St "experimental_rerun" [] [];
                    WithExit (VOpaque "column" [VInt 0])]).
Proof.
  intros x.
  apply (@clear_resets_session_and_reruns sample_schema_utils sample_runtime clear_env 5
           sample_opyrator sample_state (state_of x) (trace_of x)
           sample_columns (VOpaque "column" [VInt 0]) (VOpaque "column" [VInt 1])
           VNone VNone (VBool true) (Exn RerunException "rerun"));
    reflexivity.
Defined.

(** X11. An operation that raises. When the block under
    [if execute_selected:] runs, the input data parses and the operation
    raises [e]: the session is left exactly as it was (the former output
    stays). If [e] is a ValidationError it is shown with [st.error], as
    for invalid input, and the run goes on; any other exception leaves
    the spinner and the block, so that a run of [render_streamlit_ui]
    ends with [e] and renders no output section. *)
Theorem execute_operation_that_raises `{SchemaUtils} `{Runtime} (w : env)
        (opyrator : Opyrator) (s : SessionState) (cm x1 x2 obj : value) (e : exn) :
  w spinner_call = Ok cm ->
  w (WithEnter cm) = Ok x1 ->
  w (WithExit cm) = Ok x2 ->
  parse_obj_as (input_type opyrator) (input_data s) = Ok obj ->
  w (Invoke obj) = Err e ->
  interp w (execute_operation opyrator) s
  = (if is_ValidationError e
     then (match w (Widget St "error" [VExn e] []) with
           | Ok _ => Ok tt
           | Err e' => Err e'
           end, s,
           [spinner_call; WithEnter cm; Invoke obj; Widget St "error" [VExn e] [];
            WithExit cm])
     else (Err e, s, [spinner_call; WithEnter cm; Invoke obj; WithExit cm]))
  /\ (is_ValidationError e = false ->
      forall fuel s0 t1 s' t2 execute_selected,
        interp w (render_inputs fuel opyrator) s0 = (Ok tt, s, t1) ->
        interp w clear_and_execute_buttons s = (Ok execute_selected, s', t2) ->
        truthy execute_selected = true ->
        interp w (render_streamlit_ui fuel opyrator) s0
        = (Err e, s, t1 ++ t2 ++ [spinner_call; WithEnter cm; Invoke obj; WithExit cm])).
Proof.
  intros Hspin Henter Hexit Hparse Hinv.
  assert (Hblock : interp w (execute_operation opyrator) s
    = (if is_ValidationError e
       then (match w (Widget St "error" [VExn e] []) with
             | Ok _ => Ok tt
             | Err e' => Err e'
             end, s,
             [spinner_call; WithEnter cm; Invoke obj; Widget St "error" [VExn e] [];
              WithExit cm])
       else (Err e, s, [spinner_call; WithEnter cm; Invoke obj; WithExit cm]))).
  { unfold execute_operation. fold spinner_call.
    rewrite interp_bind. unfold spinner_call at 1. rewrite interp_widget.
    fold spinner_call. rewrite Hspin. cbn [run_then].
    rewrite interp_with, Henter, interp_try_except_ValidationError.
    cbn [interp]. rewrite interp_bind, interp_lift, Hparse. cbn [run_then].
    rewrite interp_bind, interp_ext, Hinv. cbn [run_then].
    destruct (is_ValidationError e).
    - rewrite interp_bind, interp_widget.
      destruct (w (Widget St "error" [VExn e] [])); cbn [run_then interp];
        rewrite Hexit; reflexivity.
    - rewrite Hexit. reflexivity. }
  split; [exact Hblock|].
  intros Hnot fuel s0 t1 s' t2 execute_selected Hin Hbuttons Hsel.
  rewrite (interp_render_streamlit_ui w fuel opyrator s0 s s' t1 t2 execute_selected
             Hin Hbuttons).
  rewrite Hsel, Hblock, Hnot. reflexivity.
Qed.

Lemma execute_operation_that_raises_witness :
  let s := set_input_data sample_state (VDict [("text", VStr "hello")]) in
  let obj := VModel "Input" [("text", VStr "hello")] in
  let e := Exn ValueError "operation failed" in
  interp failing_env (execute_operation sample_opyrator) s
  = (Err e, s, [spinner_call; WithEnter VNone; Invoke obj; WithExit VNone]).
Proof.
  intros s obj e.
  apply (@execute_operation_that_raises sample_schema_utils sample_runtime failing_env
           sample_opyrator s VNone VNone VNone obj e); reflexivity.
Defined.

(** ** No Exception leaves the input form *)

Lemma dict_get_in_keys (k : string) (d : dict) :
  In k (dict_keys d) -> exists v, dict_get k d = Some v /\ In v (map snd d).
Proof.
  unfold dict_keys. induction d as [|[k0 v0] d IH]; simpl; [contradiction|].
  intros Hin. destruct (String.eqb k k0) eqn:Hk.
  - exists v0. split; [reflexivity|now left].
  - destruct Hin as [Heq|Hin].
    + subst k0. rewrite String.eqb_refl in Hk. discriminate.
    + destruct (IH Hin) as (v & Hv & Hiv). exists v. split; [exact Hv|now right].
Qed.

Lemma render_ui_property_no_exception `{SchemaUtils} `{Runtime} (w : env)
      (self : InputUI) (fuel : nat) (required_properties : value) (l : list value)
      (property_key : string) (property : dict) (s : SessionState) (e : exn) :
  py_getitem (_schema_properties self) property_key = Ok (VDict property) ->
  required_properties = VList l ->
  outcome_of (interp w (render_ui_property self fuel required_properties property_key) s)
  = Err e ->
  is_Exception e = false.
Proof.
  intros Hp ->. unfold render_ui_property.
  rewrite interp_bind, interp_lift, Hp. cbn [run_then as_dict].
  rewrite interp_bind, interp_lift. cbn [run_then].
  rewrite interp_bind, interp_lift. cbn [py_contains run_then].
  rewrite interp_try_except.
  destruct (interp w (render_and_store _ _ _ _ _) s) as [[r s1] t1].
  destruct r as [[]|e0]; cbn [app outcome_of fst]; [discriminate|].
  destruct (is_Exception e0) eqn:He0; cbn [interp outcome_of fst]; [discriminate|].
  intros [= <-]. exact He0.
Qed.

(** X12. No Exception leaves the generated input form. With a schema
    whose [properties] is a dict of dicts and whose [required] is a list,
    whatever the properties hold and whatever the widgets answer,
    [InputUI.render_ui] returns, or ends with an exception that is not an
    Exception (a script-control exception of streamlit): every property
    that fails is passed over, and a run never stops at the form because
    of a property it cannot render. *)
Theorem input_ui_lets_no_exception_out `{SchemaUtils} `{Runtime} (w : env)
        (self : InputUI) (fuel : nat) (properties : dict) (l : list value)
        (s : SessionState) :
  render_input_ui (_input_class self) = None ->
  _schema_properties self = VDict properties ->
  (forall p, In p (map snd properties) -> is_dict p = true) ->
  required_properties_of self = VList l ->
  match outcome_of (interp w (InputUI_render_ui self fuel) s) with
  | Ok _ => True
  | Err e => is_Exception e = false
  end.
Proof.
  intros Hnone Hprops Hdicts Hreq. unfold InputUI_render_ui. rewrite Hnone.
  rewrite interp_bind, interp_lift, Hprops. cbn [as_dict run_then].
  assert (Hkeys : forall k, In k (dict_keys properties) ->
                            exists d, py_getitem (_schema_properties self) k = Ok (VDict d)).
  { intros k Hin. destruct (dict_get_in_keys k properties Hin) as (v & Hv & Hiv).
    specialize (Hdicts v Hiv). destruct v; try discriminate.
    eexists. rewrite Hprops. cbn [py_getitem]. rewrite Hv. reflexivity. }
  clear Hdicts. unfold render_ui_loop. revert s Hkeys.
  generalize (dict_keys properties) as keys.
  induction keys as [|k keys IH]; intros s Hkeys; [exact I|].
  cbn [foldM]. rewrite interp_bind.
  destruct (Hkeys k (or_introl eq_refl)) as (d & Hd).
  pose proof (render_ui_property_no_exception w self fuel (required_properties_of self) l
                k d s) as Hturn.
  destruct (interp w (render_ui_property self fuel (required_properties_of self) k) s)
    as [[r s1] t1].
  destruct r as [[]|e0]; cbn [run_then].
  - specialize (IH s1 (fun k' Hin => Hkeys k' (or_intror Hin))).
    destruct (interp w (foldM _ keys tt) s1) as [[r2 s2] t2].
    cbn [outcome_of fst] in *. exact IH.
  - cbn [outcome_of fst] in *. now apply Hturn.
Qed.

Lemma input_ui_lets_no_exception_out_witness :
  match outcome_of (interp rerun_env
                      (@InputUI_render_ui sample_schema_utils sample_runtime
                         (InputUI_init sample_input) 5) sample_state) with
  | Ok _ => True
  | Err e => is_Exception e = false
  end.
Proof.
  apply (@input_ui_lets_no_exception_out sample_schema_utils sample_runtime rerun_env
           (InputUI_init sample_input) 5
           [("text", VDict [("type", VStr "string")]);
            ("mystery", VDict [("type", VStr "null")]);
            ("count", VDict [("type", VStr "integer"); ("minimum", VInt 0);
                             ("maximum", VInt 10)])]
           [VStr "text"] sample_state).
  - reflexivity.
  - reflexivity.
  - intros p Hin. simpl in Hin.
    repeat (destruct Hin as [<-|Hin]; [reflexivity|]). contradiction.
  - reflexivity.
Defined.

(** The run against [rerun_env] does end with the RerunException. *)
Example input_ui_rerun_leaves :
  outcome_of (interp rerun_env
                (@InputUI_render_ui sample_schema_utils sample_runtime
                   (InputUI_init sample_input) 5) sample_state)
  = Err (Exn RerunException "rerun").
Proof. reflexivity. Qed.

(** ** The output of a list *)

Section ListOutput.

Context `{SchemaUtils} `{Runtime}.

(** The loop of [_render_list_output] over items without a renderer of
    their own: it collects their dicts in order and makes no call. *)
Lemma list_output_rows (w : env) (app : st_app) (items rows : list value) :
  Forall (fun item => render_output_ui item = None) items ->
  Forall2 (fun item row => model_dict item = Ok row) items rows ->
  forall (acc : list value) (s : SessionState),
    interp w
      (foldM (fun (data_items : list value) data_item =>
                match render_output_ui data_item with
                | Some renderer =>
                    render_output renderer app None ;;
                    Ret data_items
                | None =>
                    d <- lift (model_dict data_item) ;;
                    Ret (data_items ++ [d])%list
                end)
             items acc) s
    = (Ok (acc ++ rows), s, []).
Proof.
  intros Hnone Hrows. induction Hrows as [|item row items rows Hrow Hrows IH];
    intros acc s.
  - simpl. now rewrite app_nil_r.
  - inversion Hnone as [|? ? Hitem Hrest]; subst.
    cbn [foldM]. rewrite interp_bind, Hitem.
    rewrite interp_bind, interp_lift, Hrow. cbn [run_then interp].
    rewrite (IH Hrest). rewrite <- app_assoc. reflexivity.
Qed.

(** The loop stops at the first item whose [dict()] raises. *)
Lemma list_output_rows_fail (w : env) (app : st_app) (pre post rows : list value)
      (item : value) (e : exn) :
  Forall (fun item => render_output_ui item = None) pre ->
  Forall2 (fun item row => model_dict item = Ok row) pre rows ->
  render_output_ui item = None ->
  model_dict item = Err e ->
  forall (acc : list value) (s : SessionState),
    interp w
      (foldM (fun (data_items : list value) data_item =>
                match render_output_ui data_item with
                | Some renderer =>
                    render_output renderer app None ;;
                    Ret data_items
                | None =>
                    d <- lift (model_dict data_item) ;;
                    Ret (data_items ++ [d])%list
                end)
             (pre ++ item :: post) acc) s
    = (Err e, s, []).
Proof.
  intros Hnone Hrows Hitem Herr.
  induction Hrows as [|item0 row items rows Hrow Hrows IH]; intros acc s.
  - cbn [List.app foldM]. rewrite interp_bind, Hitem.
    rewrite interp_bind, interp_lift, Herr. reflexivity.
  - inversion Hnone as [|? ? Hitem0 Hrest]; subst.
    cbn [List.app foldM]. rewrite interp_bind, Hitem0.
    rewrite interp_bind, interp_lift, Hrow. cbn [run_then interp].
    rewrite (IH Hrest). reflexivity.
Qed.

(** X13. A list of models is one table. For a list whose items have no
    [render_output_ui] of their own and give a dict each,
    [_render_list_output] makes exactly one call: [table], on the
    DataFrame of the items' dicts in the order of the list; the session
    is left as it was. *)
Theorem list_output_is_one_table (w : env) (app : st_app) (items rows : list value)
        (frame x : value) (s : SessionState) :
  Forall (fun item => render_output_ui item = None) items ->
  Forall2 (fun item row => model_dict item = Ok row) items rows ->
  DataFrame (VList rows) = Ok frame ->
  w (Widget app "table" [frame] []) = Ok x ->
  interp w (_render_list_output app (VList items)) s
  = (Ok tt, s, [Widget app "table" [frame] []]).
Proof.
  intros Hnone Hrows Hframe Htable. unfold _render_list_output.
  rewrite interp_try_except.
  rewrite interp_bind, interp_lift. cbn [py_iter run_then].
  rewrite interp_bind, (list_output_rows w app items rows Hnone Hrows). cbn [run_then List.app].
  rewrite interp_bind, interp_lift, Hframe. cbn [run_then].
  rewrite interp_bind, interp_widget, Htable. cbn [run_then interp List.app]. reflexivity.
Qed.

(** X14. One bad item turns the table into JSON. When an item of the
    list has no dict to give (its [dict()] raises an Exception), the rows
    collected before it are dropped: [_render_list_output] shows no
    table and makes one call, [json], on the whole list as
    [jsonable_encoder] gives it. *)
Theorem list_output_falls_back_to_json (w : env) (app : st_app)
        (pre post rows : list value) (item j x : value) (e : exn) (s : SessionState) :
  Forall (fun item => render_output_ui item = None) pre ->
  Forall2 (fun item row => model_dict item = Ok row) pre rows ->
  render_output_ui item = None ->
  model_dict item = Err e ->
  is_Exception e = true ->
  jsonable_encoder (VList (pre ++ item :: post)) = Ok j ->
  w (Widget app "json" [j] []) = Ok x ->
  interp w (_render_list_output app (VList (pre ++ item :: post))) s
  = (Ok tt, s, [Widget app "json" [j] []]).
Proof.
  intros Hnone Hrows Hitem Herr Hexc Hjson Hcall. unfold _render_list_output.
  rewrite interp_try_except.
  rewrite interp_bind, interp_lift. cbn [py_iter run_then].
  rewrite interp_bind,
    (list_output_rows_fail w app pre post rows item e Hnone Hrows Hitem Herr).
  cbn [run_then]. rewrite Hexc.
  rewrite interp_bind, interp_lift, Hjson. cbn [run_then].
  rewrite interp_bind, interp_widget, Hcall. cbn [run_then interp List.app]. reflexivity.
Qed.

(** X15. The output never stops the run with an Exception. Against an
    outside whose calls do not raise, and with output data that
    [jsonable_encoder] encodes as [j]: when the renderer of the output (of
    a model, of a list) returns, [OutputUI.render_ui] returns after the
    same calls; when it raises an Exception [e], [render_ui] adds two
    calls, [st.exception(e)] and [st.json(j)], and returns; what is not
    an Exception goes through. So [render_ui] returns or ends with an
    exception that is not an Exception. *)
Theorem output_ui_lets_no_exception_out (h : call -> value) (self : OutputUI)
        (fuel : nat) (s : SessionState) (j : value) :
  jsonable_encoder (_output_data self) = Ok j ->
  let renderer :=
    if is_model (_output_data self) then
      _render_single_output self fuel St (_output_data self)
    else if is_list (_output_data self) then
      _render_list_output St (_output_data self)
    else Ret tt in
  interp (calm h) (OutputUI_render_ui self fuel) s
  = (let '(r, s1, t1) := interp (calm h) renderer s in
     match r with
     | Ok _ => (Ok tt, s1, t1)
     | Err e =>
         if is_Exception e
         then (Ok tt, s1,
               t1 ++ [Widget St "exception" [VExn e] []; Widget St "json" [j] []])
         else (Err e, s1, t1)
     end)
  /\ match outcome_of (interp (calm h) (OutputUI_render_ui self fuel) s) with
     | Ok _ => True
     | Err e => is_Exception e = false
     end.
Proof.
  intros Hjson renderer.
  assert (Hrun : interp (calm h) (OutputUI_render_ui self fuel) s
                 = (let '(r, s1, t1) := interp (calm h) renderer s in
                    match r with
                    | Ok _ => (Ok tt, s1, t1)
                    | Err e =>
                        if is_Exception e
                        then (Ok tt, s1,
                              t1 ++ [Widget St "exception" [VExn e] [];
                                     Widget St "json" [j] []])
                        else (Err e, s1, t1)
                    end)).
  { unfold OutputUI_render_ui. fold renderer. rewrite interp_try_except.
    destruct (interp (calm h) renderer s) as [[r s1] t1].
    destruct r as [[]|e]; [reflexivity|].
    destruct (is_Exception e); [|reflexivity].
    unfold render_ui_fallback.
    rewrite interp_bind, interp_widget. unfold calm at 1. cbn [run_then].
    rewrite interp_bind, interp_lift, Hjson. cbn [run_then].
    rewrite interp_bind, interp_widget. unfold calm at 1. cbn [run_then interp].
    reflexivity. }
  split; [exact Hrun|]. rewrite Hrun.
  destruct (interp (calm h) renderer s) as [[r s1] t1].
  destruct r as [[]|e]; cbn [outcome_of fst]; [exact I|].
  destruct (is_Exception e) eqn:He; cbn [outcome_of fst]; [exact I|exact He].
Qed.

End ListOutput.

Lemma list_output_is_one_table_witness :
  interp sample_env (@_render_list_output sample_runtime St (VList sample_rows)) sample_state
  = (Ok tt, sample_state,
     [Widget St "table" [VList [VDict [("n", VInt 1)]; VDict [("n", VInt 2)]]] []]).
Proof.
  apply (@list_output_is_one_table sample_runtime sample_env St sample_rows
           [VDict [("n", VInt 1)]; VDict [("n", VInt 2)]]
           (VList [VDict [("n", VInt 1)]; VDict [("n", VInt 2)]]) VNone sample_state).
  - repeat constructor.
  - repeat constructor.
  - reflexivity.
  - reflexivity.
Defined.

Lemma list_output_falls_back_to_json_witness :
  interp sample_env
    (@_render_list_output sample_runtime St (VList (sample_rows ++ [VInt 3; VInt 4])))
    sample_state
  = (Ok tt, sample_state, [Widget St "json" [VList (sample_rows ++ [VInt 3; VInt 4])] []]).
Proof.
  apply (@list_output_falls_back_to_json sample_runtime sample_env St sample_rows
           [VInt 4] [VDict [("n", VInt 1)]; VDict [("n", VInt 2)]] (VInt 3)
           (VList (sample_rows ++ [VInt 3; VInt 4])) VNone
           (Exn AttributeError "dict") sample_state).
  - repeat constructor.
  - repeat constructor.
  - reflexivity.
  - reflexivity.
  - reflexivity.
  - reflexivity.
  - reflexivity.
Defined.

Lemma output_ui_lets_no_exception_out_witness :
  let out := VModel "Output" [("text", VStr "hello")] in
  interp (calm (fun _ => VNone))
    (@OutputUI_render_ui sample_schema_utils broken_schema_runtime
       {| _output_data := out; _input_data := VNone |} 5)
    sample_state
  = (Ok tt, sample_state,
     [Widget St "exception" [VExn (Exn ValueError "no schema")] [];
      Widget St "json" [out] []]).
Proof.
  intros out.
  apply (proj1 (@output_ui_lets_no_exception_out sample_schema_utils broken_schema_runtime
                  (fun _ => VNone) {| _output_data := out; _input_data := VNone |}
                  5 sample_state out eq_refl)).
Defined.

(** ** The buttons under a list input *)

Section ListButtons.

Context `{SchemaUtils} `{Runtime}.

(** X16. The buttons under a list input, against an outside whose calls
    do not raise. The list the renderer goes on with is the current list,
    emptied first if [Clear Items] is pressed, with the new item appended
    last if [Add Item] is pressed and there is an item to add: both
    pressed give the list of that one item, none pressed the current
    list. The session is touched only when an item is appended to the
    list that is stored in it (the list is then changed in place, before
    the renderer returns). *)
Theorem list_buttons_clear_then_add (h : call -> value) (streamlit_app : st_app)
        (key : string) (aliased : bool) (l : list value) (item : value)
        (addable : bool) (s : SessionState) (clear_col add_col : value) :
  unpack2 (h (Widget streamlit_app "beta_columns" [VList [VInt 1; VInt 2]] []))
  = Ok (clear_col, add_col) ->
  let cleared :=
    truthy (h (Widget streamlit_app "button" [VStr "Clear Items"]
                 [("key", VStr (key ++ "-clear-items"))])) in
  let added :=
    truthy (h (Widget streamlit_app "button" [VStr "Add Item"]
                 [("key", VStr (key ++ "-add-item"))])) && addable in
  let result :=
    VList ((if cleared then [] else l) ++ (if added then [item] else [])) in
  outcome_of (interp (calm h)
                (clear_or_add streamlit_app key aliased (VList l) item addable) s)
  = Ok result
  /\ state_of (interp (calm h)
                 (clear_or_add streamlit_app key aliased (VList l) item addable) s)
     = (if aliased && negb cleared && added
        then set_input_data s (snd (store_elements (split_dot key) result (input_data s)))
        else s).
Proof.
  intros Hun cleared added result.
  enough (exists t,
             interp (calm h)
               (clear_or_add streamlit_app key aliased (VList l) item addable) s
             = (Ok result,
                (if aliased && negb cleared && added
                 then set_input_data s
                        (snd (store_elements (split_dot key) result (input_data s)))
                 else s), t)) as [t ->] by (split; reflexivity).
  subst cleared added result.
  unfold clear_or_add.
  rewrite interp_bind, interp_widget. unfold calm at 1. cbn [run_then].
  rewrite interp_with. unfold calm at 1.
  rewrite interp_bind, interp_widget. unfold calm at 1. cbn [run_then].
  rewrite interp_bind, interp_lift, Hun. cbn [run_then].
  rewrite interp_bind, interp_with. unfold calm at 1.
  rewrite interp_widget. unfold calm at 1 2. cbn [run_then].
  rewrite interp_with. unfold calm at 1.
  rewrite interp_bind, interp_widget. unfold calm at 1. cbn [run_then].
  destruct (truthy (h (Widget streamlit_app "button" [VStr "Clear Items"] _))) eqn:Hc;
    destruct (truthy (h (Widget streamlit_app "button" [VStr "Add Item"] _))) eqn:Ha;
    destruct addable; destruct aliased;
    cbn [andb negb py_append lift bind interp update_stored];
    unfold calm; cbn [List.app]; rewrite ?app_nil_r; eexists; reflexivity.
Qed.

End ListButtons.

Lemma list_buttons_clear_then_add_witness :
  let h := fun c =>
    match c with
    | Widget _ "beta_columns" _ _ => sample_columns
    | Widget _ "button" _ _ => VBool true
    | _ => VNone
    end in
  outcome_of (interp (calm h)
                (@clear_or_add St "tags" true (VList [VStr "a"; VStr "b"]) (VStr "c") true)
                sample_state)
  = Ok (VList [VStr "c"]).
Proof.
  intros h.
  apply (@list_buttons_clear_then_add h St "tags" true [VStr "a"; VStr "b"] (VStr "c") true
           sample_state (VOpaque "column" [VInt 0]) (VOpaque "column" [VInt 1])).
  reflexivity.
Defined.

(** ** The upload of one file *)

Section FileInput.

Context `{SchemaUtils} `{Runtime}.

(** The three kinds of media exclude each other. *)
Lemma compatible_media_exclusive (mime_type : value) :
  is_compatible_audio mime_type && is_compatible_image mime_type = false
  /\ is_compatible_audio mime_type && is_compatible_video mime_type = false
  /\ is_compatible_image mime_type && is_compatible_video mime_type = false.
Proof.
  unfold is_compatible_audio, is_compatible_image, is_compatible_video, in_strs.
  destruct mime_type as [| b | z | f | m | m | l | d | cls fields | content | ex | tag payload];
    try (repeat split; reflexivity).
  cbn [existsb str_is].
  repeat match goal with
         | |- context [String.eqb m ?c] =>
             destruct (String.eqb_spec m c); [subst m; repeat split; reflexivity|]
         end.
  repeat split; reflexivity.
Qed.

Lemma calm_eq (h : call -> value) (c : call) : calm h c = Ok (h c).
Proof. reflexivity. Qed.

(** The run of [_render_single_file_input] against an outside whose calls
    do not raise, in closed form. *)
Lemma single_file_input_run (h : call -> value) (streamlit_app : st_app)
      (key : string) (property : dict) (s : SessionState) (ext : value) :
  (if dict_mem "mime_type" property
   then guess_extension (dict_get_default "mime_type" property)
   else Ok VNone) = Ok ext ->
  let uploader :=
    Widget streamlit_app "file_uploader" []
      (default_streamlit_input_kwargs (run_id s) key property
       ++ [("accept_multiple_files", VBool false); ("type", ext)]) in
  let mime_type := dict_get_default "mime_type" property in
  interp (calm h) (_render_single_file_input streamlit_app key property) s
  = if is_None (h uploader) then (Ok VNone, s, [uploader])
    else match file_bytes (h uploader) with
         | Err e => (Err e, s, [uploader])
         | Ok bytes =>
             (Ok bytes, s,
              uploader ::
              (if truthy mime_type
               then (if is_compatible_audio mime_type
                     then [Widget streamlit_app "audio" [bytes] [("format", mime_type)]]
                     else [])
                    ++ (if is_compatible_image mime_type
                        then [Widget streamlit_app "image" [bytes] []]
                        else [])
                    ++ (if is_compatible_video mime_type
                        then [Widget streamlit_app "video" [bytes] [("format", mime_type)]]
                        else [])
               else []))
         end.
Proof.
  intros Hext uploader mime_type.
  assert (Hfe : interp (calm h) (file_extension_of property) s = (Ok ext, s, [])).
  { unfold file_extension_of. destruct (dict_mem "mime_type" property).
    - now rewrite interp_lift, Hext.
    - now injection Hext as <-. }
  unfold _render_single_file_input.
  rewrite interp_bind. unfold _get_default_streamlit_input_kwargs.
  cbn [interp run_then].
  rewrite interp_bind, Hfe. cbn [run_then].
  rewrite interp_bind, interp_widget, calm_eq. cbn [run_then]. fold uploader.
  destruct (is_None (h uploader)); [reflexivity|].
  rewrite interp_bind, interp_lift.
  destruct (file_bytes (h uploader)) as [bytes|e]; [|reflexivity].
  cbn [run_then]. fold mime_type. rewrite interp_bind.
  destruct (truthy mime_type); [|reflexivity].
  rewrite interp_bind, interp_when, interp_widget, calm_eq.
  destruct (is_compatible_audio mime_type); cbn [run_then];
    rewrite interp_bind, interp_when, interp_widget, calm_eq;
    destruct (is_compatible_image mime_type); cbn [run_then];
    rewrite interp_when, interp_widget, calm_eq;
    destruct (is_compatible_video mime_type); reflexivity.
Qed.

(** X17. The upload of one file, against an outside whose calls do not
    raise: when the uploader hands back a file, [_render_single_file_input]
    returns the bytes of that file and leaves the session as it was; after
    the uploader it draws at most one preview of these bytes (an audio
    player, an image or a video: the three kinds of mime type exclude
    each other), and none unless the property has a mime type of one of
    them. When the uploader hands back nothing it returns [None] and
    draws nothing more. *)
Theorem single_file_input_returns_upload (h : call -> value) (streamlit_app : st_app)
        (key : string) (property : dict) (s : SessionState) (ext : value) :
  (if dict_mem "mime_type" property
   then guess_extension (dict_get_default "mime_type" property)
   else Ok VNone) = Ok ext ->
  let uploader :=
    Widget streamlit_app "file_uploader" []
      (default_streamlit_input_kwargs (run_id s) key property
       ++ [("accept_multiple_files", VBool false); ("type", ext)]) in
  let mime_type := dict_get_default "mime_type" property in
  (forall content, h uploader = VFile content ->
     exists previews,
       interp (calm h) (_render_single_file_input streamlit_app key property) s
       = (Ok (VBytes content), s, uploader :: previews)
       /\ (List.length previews <= 1)%nat
       /\ (previews <> [] ->
           truthy mime_type = true
           /\ is_compatible_audio mime_type || is_compatible_image mime_type
              || is_compatible_video mime_type = true))
  /\ (h uploader = VNone ->
      interp (calm h) (_render_single_file_input streamlit_app key property) s
      = (Ok VNone, s, [uploader])).
Proof.
  intros Hext uploader mime_type.
  pose proof (single_file_input_run h streamlit_app key property s ext Hext) as Hrun.
  cbv zeta in Hrun. fold uploader mime_type in Hrun. rewrite Hrun. clear Hrun. split.
  - intros content ->. cbn [is_None file_bytes].
    destruct (compatible_media_exclusive mime_type) as (Hai & Hav & Hiv).
    eexists. split; [reflexivity|].
    destruct (truthy mime_type);
      destruct (is_compatible_audio mime_type);
      destruct (is_compatible_image mime_type);
      destruct (is_compatible_video mime_type);
      try discriminate;
      (split; [simpl; lia|]);
      intros Hne; try (now elim Hne); split; reflexivity.
  - intros ->. reflexivity.
Qed.

End FileInput.

Lemma single_file_input_returns_upload_witness :
  let property := [("title", VStr "Photo"); ("mime_type", VStr "image/png")] in
  let h := fun c =>
    match c with
    | Widget _ "file_uploader" _ _ => VFile "png bytes"
    | _ => VNone
    end in
  exists previews,
    interp (calm h) (@_render_single_file_input sample_runtime St "photo" property)
      sample_state
    = (Ok (VBytes "png bytes"), sample_state,
       Widget St "file_uploader" []
         (@default_streamlit_input_kwargs sample_runtime (VInt 0) "photo" property
          ++ [("accept_multiple_files", VBool false); ("type", VNone)]) :: previews)
    /\ (List.length previews <= 1)%nat
    /\ (previews <> [] ->
        truthy (dict_get_default "mime_type" property) = true
        /\ is_compatible_audio (dict_get_default "mime_type" property)
           || is_compatible_image (dict_get_default "mime_type" property)
           || is_compatible_video (dict_get_default "mime_type" property) = true).
Proof.
  intros property h.
  apply (proj1 (@single_file_input_returns_upload sample_runtime h St "photo" property
                  sample_state VNone eq_refl) "png bytes").
  reflexivity.
Defined.

(** ** The page title and the keys of the widgets *)

Lemma lower_app (a b : string) : lower (a ++ b)%string = (lower a ++ lower b)%string.
Proof. induction a as [|c a IH]; [reflexivity|]. simpl. now rewrite IH. Qed.

Lemma is_substring_app_r (p a b : string) :
  is_substring p b = true -> is_substring p (a ++ b)%string = true.
Proof.
  intros Hb. induction a as [|c a IH]; [exact Hb|].
  change ((String c a ++ b)%string) with (String c (a ++ b)%string).
  cbn [is_substring]. rewrite IH. apply orb_true_r.
Qed.

(** X18. The title of the page. The first call of a run of
    [render_streamlit_ui] is [st.title], on a title that contains
    "opyrator" whatever the case of its letters: the name of the
    operation as it is when it has the word already, and with
    " - Opyrator" put after it otherwise. *)
Theorem page_title_names_opyrator `{SchemaUtils} `{Runtime} (w : env) (fuel : nat)
        (opyrator : Opyrator) (s : SessionState) :
  exists title rest,
    trace_of (interp w (render_streamlit_ui fuel opyrator) s)
    = Widget St "title" [VStr title] [] :: rest
    /\ is_substring "opyrator" (lower title) = true
    /\ title = (if is_substring "opyrator" (lower (name opyrator))
                then name opyrator
                else name opyrator ++ " - Opyrator")%string.
Proof.
  unfold render_streamlit_ui, render_inputs.
  set (title := if negb (is_substring "opyrator" (lower (name opyrator)))
                then (name opyrator ++ " - Opyrator")%string
                else name opyrator).
  assert (Htitle : is_substring "opyrator" (lower title) = true
                   /\ title = (if is_substring "opyrator" (lower (name opyrator))
                               then name opyrator
                               else name opyrator ++ " - Opyrator")%string).
  { subst title. destruct (is_substring "opyrator" (lower (name opyrator))) eqn:Hn;
      cbn [negb]; (split; [|reflexivity]); [exact Hn|].
    rewrite lower_app. apply is_substring_app_r. reflexivity. }
  clearbody title.
  rewrite interp_bind, interp_bind, interp_widget.
  destruct (w (Widget St "title" [VStr title] [])) as [x|e]; cbn [run_then].
  - match goal with
    | |- context [interp w ?p s] => destruct (interp w p s) as [[r1 s1] t1]
    end.
    destruct r1 as [[]|e1]; cbn [run_then].
    + match goal with
      | |- context [interp w ?p s1] => destruct (interp w p s1) as [[r2 s2] t2]
      end.
      exists title. eexists. split; [reflexivity|exact Htitle].
    + exists title. eexists. split; [reflexivity|exact Htitle].
  - exists title. eexists. split; [reflexivity|exact Htitle].
Qed.

Lemma append_inj_r (a b c : string) : (a ++ b)%string = (a ++ c)%string -> b = c.
Proof. induction a as [|x a IH]; simpl; [auto|]. intros [= Heq]. now apply IH. Qed.

Lemma default_kwargs_key `{Runtime} (run_id : value) (key : string) (property : dict) :
  dict_get "key" (default_streamlit_input_kwargs run_id key property)
  = Some (VStr (py_str run_id ++ "-" ++ key)).
Proof.
  unfold default_streamlit_input_kwargs.
  destruct (truthy (dict_get_default "description" property)); reflexivity.
Qed.

(** X19. The keys of the widgets. The [key] that
    [_get_default_streamlit_input_kwargs] gives a widget is the run id
    and the property key joined by a dash; so within one run (one run
    id) two properties get the same widget key only if they have the same
    property key, whatever their schemas. *)
Theorem default_widget_keys_distinct `{Runtime} (w : env) (s s1 s2 : SessionState)
        (key1 key2 : string) (property1 property2 : dict) (kw1 kw2 : dict)
        (t1 t2 : list call) :
  interp w (_get_default_streamlit_input_kwargs key1 property1) s = (Ok kw1, s1, t1) ->
  interp w (_get_default_streamlit_input_kwargs key2 property2) s = (Ok kw2, s2, t2) ->
  dict_get "key" kw1 = Some (VStr (py_str (run_id s) ++ "-" ++ key1))
  /\ (dict_get "key" kw1 = dict_get "key" kw2 -> key1 = key2).
Proof.
  unfold _get_default_streamlit_input_kwargs. cbn [interp].
  intros [= <- _ _] [= <- _ _]. rewrite !default_kwargs_key. split; [reflexivity|].
  intros [= Heq]. apply append_inj_r in Heq. now injection Heq.
Qed.

Lemma default_widget_keys_distinct_witness :
  dict_get "key" (@default_streamlit_input_kwargs sample_runtime (VInt 0) "text" [])
  = Some (VStr (@py_str sample_runtime (run_id sample_state) ++ "-" ++ "text"))
  /\ (dict_get "key" (@default_streamlit_input_kwargs sample_runtime (VInt 0) "text" [])
      = dict_get "key" (@default_streamlit_input_kwargs sample_runtime (VInt 0) "count"
                          [("description", VStr "how many")]) ->
      "text" = "count").
Proof.
  apply (@default_widget_keys_distinct sample_runtime quiet_env sample_state
           sample_state sample_state "text" "count" [] [("description", VStr "how many")]
           _ _ [] []); reflexivity.
Defined.

(** ** The default of an enum *)

Lemma index_of_some (x : value) (l : list value) :
  forall (i0 i : Z),
    index_of x l i0 = Some i ->
    exists (n : nat) (o : value),
      i = (i0 + Z.of_nat n)%Z
      /\ nth_error l n = Some o
      /\ py_eqb o x = true
      /\ forall (m : nat) (o' : value),
           (m < n)%nat -> nth_error l m = Some o' -> py_eqb o' x = false.
Proof.
  induction l as [|y r IH]; intros i0 i; [discriminate|].
  cbn [index_of]. destruct (py_eqb y x) eqn:Hy.
  - intros [= <-]. exists 0%nat, y. repeat split; [lia|exact Hy|]. intros m o' Hm. lia.
  - intros Hi. destruct (IH _ _ Hi) as (n & o & -> & Hn & Ho & Hbefore).
    exists (S n), o. repeat split; [lia|exact Hn|exact Ho|].
    intros [|m] o' Hm; cbn [nth_error].
    + now intros [= <-].
    + apply Hbefore. lia.
Qed.

Lemma index_of_none (x : value) (l : list value) :
  forall i0, index_of x l i0 = None -> forall o, In o l -> py_eqb o x = false.
Proof.
  induction l as [|y r IH]; intros i0 Hi o Hin; [contradiction|].
  cbn [index_of] in Hi. destruct (py_eqb y x) eqn:Hy; [discriminate|].
  destruct Hin as [<-|Hin]; [exact Hy|]. now apply (IH _ Hi).
Qed.

Lemma default_kwargs_no_index `{Runtime} (run_id : value) (key : string) (property : dict) :
  dict_get "index" (default_streamlit_input_kwargs run_id key property) = None.
Proof.
  unfold default_streamlit_input_kwargs.
  destruct (truthy (dict_get_default "description" property)); reflexivity.
Qed.

(** X20. The default of an enum. With the reference resolved to an item
    whose [enum] is the list [options], [_render_single_enum_input] makes
    one call, [selectbox], on these options, and returns its answer. If
    the property has a default that Python finds equal to an option, the
    [index] passed is the position of the first such option; if it has no
    default, or a default that equals none of the options, no [index] is
    passed (the failure of [list.index] is passed over) and the widget
    starts at its own first option. The other arguments are the default
    ones. *)
Theorem single_enum_preselects_default `{SchemaUtils} `{Runtime} (w : env)
        (self : InputUI) (streamlit_app : st_app) (key : string) (property : dict)
        (s : SessionState) (reference_item : value) (options : list value) :
  get_single_reference_item property (_schema_references self) = Ok reference_item ->
  py_getitem reference_item "enum" = Ok (VList options) ->
  exists kw,
    interp w (_render_single_enum_input self streamlit_app key property) s
    = (w (Widget streamlit_app "selectbox" [] (kw ++ [("options", VList options)])), s,
       [Widget streamlit_app "selectbox" [] (kw ++ [("options", VList options)])])
    /\ (forall k, k <> "index" ->
                  dict_get k kw
                  = dict_get k (default_streamlit_input_kwargs (run_id s) key property))
    /\ match dict_get "index" kw with
       | Some i =>
           exists (n : nat) (o : value),
             i = VInt (Z.of_nat n)
             /\ nth_error options n = Some o
             /\ py_eqb o (dict_get_default "default" property) = true
             /\ forall (m : nat) (o' : value),
                  (m < n)%nat -> nth_error options m = Some o' ->
                  py_eqb o' (dict_get_default "default" property) = false
       | None =>
           is_None (dict_get_default "default" property) = true
           \/ forall o, In o options ->
                        py_eqb o (dict_get_default "default" property) = false
       end.
Proof.
  intros Href Henum. unfold _render_single_enum_input.
  rewrite interp_bind. unfold _get_default_streamlit_input_kwargs.
  cbn [interp run_then].
  rewrite interp_bind, interp_lift, Href. cbn [run_then].
  rewrite interp_bind.
  set (kw0 := default_streamlit_input_kwargs (run_id s) key property).
  assert (Hrest : forall kw,
    interp w
      (options0 <- lift (py_getitem reference_item "enum") ;;
       widget streamlit_app "selectbox" [] (kw ++ [("options", options0)])) s
    = (w (Widget streamlit_app "selectbox" [] (kw ++ [("options", VList options)])), s,
       [Widget streamlit_app "selectbox" [] (kw ++ [("options", VList options)])])).
  { intros kw. rewrite interp_bind, interp_lift, Henum. cbn [run_then].
    rewrite interp_widget. reflexivity. }
  destruct (is_None (dict_get_default "default" property)) eqn:Hnone; cbn [negb].
  2: rewrite interp_try_except, interp_bind, interp_lift, Henum; cbn [run_then];
     rewrite interp_bind, interp_lift; cbn [py_index];
     destruct (index_of (dict_get_default "default" property) options 0) as [i|] eqn:Hi;
     cbn [run_then interp is_Exception exn_cls List.app].
  - exists kw0. cbn [interp run_then]. rewrite Hrest.
    split; [reflexivity|]. split; [reflexivity|].
    unfold kw0. rewrite default_kwargs_no_index. now left.
  - exists (dict_set "index" (VInt i) kw0).
    rewrite interp_bind, interp_lift. cbn [run_then]. rewrite interp_widget.
    split; [reflexivity|]. split.
    + intros k Hk. apply dict_get_set_ne. congruence.
    + rewrite dict_get_set_eq.
      destruct (index_of_some _ _ _ _ Hi) as (n & o & -> & Hn & Ho & Hbefore).
      exists n, o. repeat split; assumption.
  - exists kw0.
    rewrite interp_bind, interp_lift. cbn [run_then]. rewrite interp_widget.
    split; [reflexivity|]. split; [reflexivity|].
    unfold kw0. rewrite default_kwargs_no_index. right.
    now apply (index_of_none _ _ _ Hi).
Qed.

Lemma single_enum_preselects_default_witness :
  exists kw,
    interp sample_env
      (@_render_single_enum_input colour_schema_utils sample_runtime
         (InputUI_init sample_input) St "colour" [("default", VStr "green")])
      sample_state
    = (sample_env (Widget St "selectbox" []
                     (kw ++ [("options", VList [VStr "red"; VStr "green"; VStr "blue"])])),
       sample_state,
       [Widget St "selectbox" []
          (kw ++ [("options", VList [VStr "red"; VStr "green"; VStr "blue"])])])
    /\ (forall k, k <> "index" ->
                  dict_get k kw
                  = dict_get k (@default_streamlit_input_kwargs sample_runtime
                                  (run_id sample_state) "colour"
                                  [("default", VStr "green")]))
    /\ match dict_get "index" kw with
       | Some i =>
           exists (n : nat) (o : value),
             i = VInt (Z.of_nat n)
             /\ nth_error [VStr "red"; VStr "green"; VStr "blue"] n = Some o
             /\ py_eqb o (dict_get_default "default" [("default", VStr "green")]) = true
             /\ forall (m : nat) (o' : value),
                  (m < n)%nat ->
                  nth_error [VStr "red"; VStr "green"; VStr "blue"] m = Some o' ->
                  py_eqb o' (dict_get_default "default" [("default", VStr "green")]) = false
       | None =>
           is_None (dict_get_default "default" [("default", VStr "green")]) = true
           \/ forall o, In o [VStr "red"; VStr "green"; VStr "blue"] ->
                        py_eqb o (dict_get_default "default" [("default", VStr "green")])
                        = false
       end.
Proof.
  apply (@single_enum_preselects_default colour_schema_utils sample_runtime sample_env
           (InputUI_init sample_input) St "colour" [("default", VStr "green")]
           sample_state (VDict [("enum", VList [VStr "red"; VStr "green"; VStr "blue"])])
           [VStr "red"; VStr "green"; VStr "blue"]); reflexivity.
Defined.

(** ** Several files, and the object of nested inputs *)

Section MultiFile.

Context `{SchemaUtils} `{Runtime}.

Lemma read_files (w : env) (contents : list string) :
  forall (acc : list value) (s : SessionState),
    interp w
      (foldM (fun (acc : list value) uploaded_file =>
                b <- lift (file_bytes uploaded_file) ;; Ret (acc ++ [b])%list)
             (map VFile contents) acc) s
    = (Ok (acc ++ map VBytes contents), s, []).
Proof.
  induction contents as [|c contents IH]; intros acc s.
  - simpl. now rewrite app_nil_r.
  - cbn [map foldM]. rewrite interp_bind, interp_bind, interp_lift.
    cbn [file_bytes run_then interp]. rewrite IH, <- app_assoc. reflexivity.
Qed.

(** X21. The upload of several files, against an outside whose calls do
    not raise: [_render_multi_file_input] makes one call, the uploader
    with [accept_multiple_files] set, and returns the list of the bytes
    of the files it hands back, one entry a file, in the order of the
    upload; the empty list when it hands back no file. The session is
    left as it was. *)
Theorem multi_file_input_returns_uploads (h : call -> value) (streamlit_app : st_app)
        (key : string) (property : dict) (s : SessionState) (ext : value)
        (contents : list string) :
  (if dict_mem "mime_type" property
   then guess_extension (dict_get_default "mime_type" property)
   else Ok VNone) = Ok ext ->
  let uploader :=
    Widget streamlit_app "file_uploader" []
      (default_streamlit_input_kwargs (run_id s) key property
       ++ [("accept_multiple_files", VBool true); ("type", ext)]) in
  h uploader = VList (map VFile contents) ->
  interp (calm h) (_render_multi_file_input streamlit_app key property) s
  = (Ok (VList (map VBytes contents)), s, [uploader]).
Proof.
  intros Hext uploader Hfiles.
  assert (Hfe : interp (calm h) (file_extension_of property) s = (Ok ext, s, [])).
  { unfold file_extension_of. destruct (dict_mem "mime_type" property).
    - now rewrite interp_lift, Hext.
    - now injection Hext as <-. }
  unfold _render_multi_file_input.
  rewrite interp_bind. unfold _get_default_streamlit_input_kwargs.
  cbn [interp run_then].
  rewrite interp_bind, Hfe. cbn [run_then].
  rewrite interp_bind, interp_widget, calm_eq. cbn [run_then]. fold uploader.
  rewrite Hfiles. destruct contents as [|c contents]; [reflexivity|].
  change (truthy (VList (map VFile (c :: contents)))) with true. cbv iota.
  rewrite interp_bind, interp_lift. cbn [py_iter run_then].
  rewrite interp_bind, read_files. reflexivity.
Qed.

End MultiFile.

Lemma multi_file_input_returns_uploads_witness :
  let h := fun c =>
    match c with
    | Widget _ "file_uploader" _ _ => VList [VFile "first"; VFile "second"]
    | _ => VNone
    end in
  interp (calm h) (@_render_multi_file_input sample_runtime St "scans" []) sample_state
  = (Ok (VList [VBytes "first"; VBytes "second"]), sample_state,
     [Widget St "file_uploader" []
        (@default_streamlit_input_kwargs sample_runtime (VInt 0) "scans" []
         ++ [("accept_multiple_files", VBool true); ("type", VNone)])]).
Proof.
  intros h.
  apply (@multi_file_input_returns_uploads sample_runtime h St "scans" [] sample_state
           VNone ["first"; "second"]); reflexivity.
Defined.

Section ObjectInput.

Context `{SchemaUtils} `{Runtime}.
Variable render : st_app -> string -> dict -> prog value.

Lemma dict_mem_set_iff (k k' : string) (v : value) (d : dict) :
  dict_mem k' (dict_set k v d) = true <-> k' = k \/ dict_mem k' d = true.
Proof.
  destruct (String.eqb_spec k k') as [->|Hne].
  - rewrite dict_mem_set. split; auto.
  - rewrite (dict_mem_set_ne k k' v d Hne). split; [auto|].
    intros [->|Hm]; [congruence|exact Hm].
Qed.

Lemma dict_mem_keys (k : string) (d : dict) :
  dict_mem k d = true <-> In k (dict_keys d).
Proof.
  unfold dict_mem, dict_keys. induction d as [|[k0 v0] d IH]; simpl.
  - split; [discriminate|contradiction].
  - destruct (String.eqb_spec k k0) as [->|Hne].
    + split; auto.
    + rewrite IH. split; [auto|]. intros [Heq|Hin]; [congruence|exact Hin].
Qed.

(** The loop of [_render_object_input]: when it returns, the object holds
    what it held and an entry for each key of the loop. *)
Lemma object_input_loop (w : env) (streamlit_app : st_app) (key : string)
      (properties : value) (keys : list string) :
  forall (acc d : dict) (s s' : SessionState) (t : list call),
    interp w
      (foldM (fun (object_inputs : dict) property_key =>
                match property_key with
                | VStr property_key =>
                    p <- lift (py_getitem properties property_key) ;;
                    property <- lift (as_dict p) ;;
                    let property := with_fallback_title property_key property in
                    let full_key := (key ++ "." ++ property_key)%string in
                    v <- render streamlit_app full_key property ;;
                    Ret (dict_set property_key v object_inputs)
                | _ => Raise (Exn TypeError "indices must be integers")
                end)
             (map VStr keys) acc) s
    = (Ok d, s', t) ->
    forall k, dict_mem k d = true <-> dict_mem k acc = true \/ In k keys.
Proof.
  induction keys as [|k0 keys IH]; intros acc d s s' t.
  - cbn [map foldM interp]. intros [= <- _ _] k. split; [auto|]. intros [Hm|[]]. exact Hm.
  - cbn [map foldM]. rewrite interp_bind.
    rewrite interp_bind, interp_lift.
    destruct (py_getitem properties k0) as [p|e]; cbn [run_then]; [|discriminate].
    rewrite interp_bind, interp_lift.
    destruct (as_dict p) as [property|e]; cbn [run_then]; [|discriminate].
    rewrite interp_bind.
    destruct (interp w (render streamlit_app (key ++ "." ++ k0)%string
                          (with_fallback_title k0 property)) s) as [[r1 s1] t1].
    destruct r1 as [v|e]; cbn [run_then interp]; [|discriminate].
    destruct (interp w (foldM _ (map VStr keys) (dict_set k0 v acc)) s1)
      as [[r2 s2] t2] eqn:Hloop.
    destruct r2 as [d2|e]; [|discriminate].
    intros [= <- _ _] k. rewrite (IH _ _ _ _ _ Hloop k), dict_mem_set_iff.
    cbn [In]. intuition congruence.
Qed.

(** X22. The object of nested inputs is whole or not at all. When
    [_render_object_input] returns, on a schema whose [properties] is a
    dict, what it returns is a dict with an entry for each property of
    the schema and no other: unlike the form, which passes over a
    property that fails, the nested object has no [try] of its own, and a
    property that fails ends the whole object. *)
Theorem object_input_has_every_property (w : env) (streamlit_app : st_app)
        (key : string) (property : value) (properties : dict) (s s' : SessionState)
        (v : value) (t : list call) :
  py_getitem property "properties" = Ok (VDict properties) ->
  interp w (_render_object_input render streamlit_app key property) s = (Ok v, s', t) ->
  exists d, v = VDict d /\ forall k, dict_mem k d = true <-> dict_mem k properties = true.
Proof.
  intros Hprops. unfold _render_object_input.
  rewrite interp_bind, interp_lift, Hprops. cbn [run_then].
  rewrite interp_bind, interp_lift. cbn [py_iter run_then].
  rewrite interp_bind.
  replace (map (fun kv : string * value => VStr (fst kv)) properties)
    with (map VStr (dict_keys properties))
    by (unfold dict_keys; now rewrite map_map).
  match goal with
  | |- context [interp w ?p s] => destruct (interp w p s) as [[r1 s1] t1] eqn:Hloop
  end.
  destruct r1 as [d|e]; cbn [run_then interp]; [|discriminate].
  intros Heq. inversion Heq; subst. exists d. split; [reflexivity|].
  intros k. rewrite (object_input_loop _ _ _ _ _ _ _ _ _ _ Hloop k), (dict_mem_keys k properties).
  cbn [dict_mem dict_get].
  split; [intros [Hf|Hin]; [discriminate|exact Hin]|intros Hin; now right].
Qed.

End ObjectInput.

Lemma object_input_has_every_property_witness :
  let property :=
    VDict [("properties", VDict [("street", VDict [("type", VStr "string")]);
                                  ("city", VDict [("type", VStr "string")])])] in
  exists d,
    VDict [("street", VStr "hello"); ("city", VStr "hello")] = VDict d
    /\ forall k, dict_mem k d = true
                 <-> dict_mem k [("street", VDict [("type", VStr "string")]);
                                 ("city", VDict [("type", VStr "string")])] = true.
Proof.
  intros property.
  apply (@object_input_has_every_property sample_runtime
           (@_render_property sample_schema_utils sample_runtime
              (InputUI_init sample_input) 3)
           sample_env St "address" property
           [("street", VDict [("type", VStr "string")]);
            ("city", VDict [("type", VStr "string")])]
           sample_state
           (state_of (interp sample_env
                        (@_render_object_input sample_runtime
                           (@_render_property sample_schema_utils sample_runtime
                              (InputUI_init sample_input) 3)
                           St "address" property) sample_state))
           (VDict [("street", VStr "hello"); ("city", VStr "hello")])
           (trace_of (interp sample_env
                        (@_render_object_input sample_runtime
                           (@_render_property sample_schema_utils sample_runtime
                              (InputUI_init sample_input) 3)
                           St "address" property) sample_state)));
    reflexivity.
Defined.

(** The last of two stores under ["a.b"] is the one a lookup finds. *)
Lemma store_value_last_write_wins_witness :
  interp quiet_env (_store_value "a.b" (VInt 1) ;; _store_value "a.b" (VInt 2)) sample_state
  = interp quiet_env (_store_value "a.b" (VInt 2)) sample_state
  /\ interp quiet_env (_get_value "a.b")
       (set_input_data sample_state (VDict [("a", VDict [("b", VInt 2)])]))
     = (Ok (VInt 2),
        set_input_data sample_state (VDict [("a", VDict [("b", VInt 2)])]), []).
Proof.
  split.
  - apply (proj1 (store_value_last_write_wins quiet_env "a.b" (VInt 1) (VInt 2)
                    sample_state)).
  - apply (proj2 (store_value_last_write_wins quiet_env "a.b" (VInt 1) (VInt 2)
                    sample_state)).
    reflexivity.
Defined.

(** ** A run without Execute *)

Lemma render_inputs_results `{SchemaUtils} `{Runtime} (w : env) (fuel : nat)
      (opyrator : Opyrator) (s : SessionState) :
  render_input_ui (input_type opyrator) = None ->
  same_results s (state_of (interp w (render_inputs fuel opyrator) s)).
Proof.
  intros Hnone. unfold render_inputs.
  rewrite interp_bind, interp_widget.
  destruct (w (Widget St "title" _ _)); cbn [run_then]; [|apply same_results_refl].
  rewrite interp_bind, interp_widget.
  destruct (w (Widget St "markdown" _ _)); cbn [run_then]; [|apply same_results_refl].
  rewrite interp_bind, interp_when, interp_widget.
  assert (Hdesc : forall b,
    (if b : bool
     then let '(r, s', t) := (w (Widget St "markdown" [description opyrator] []), s,
                              [Widget St "markdown" [description opyrator] []]) in
          (match r with Ok _ => Ok tt | Err e => Err e end, s', t)
     else (Ok tt, s, []))
    = (if b then match w (Widget St "markdown" [description opyrator] []) with
                 | Ok _ => Ok tt
                 | Err e => Err e
                 end
       else Ok tt, s,
       if b then [Widget St "markdown" [description opyrator] []] else [])).
  { now intros []. }
  rewrite Hdesc. clear Hdesc.
  destruct (if truthy (description opyrator) then _ else Ok tt) as [[]|e];
    cbn [run_then]; [|apply same_results_refl].
  rewrite interp_bind. unfold InputUI_render_ui.
  cbn [InputUI_init _input_class]. rewrite Hnone.
  rewrite interp_bind, interp_lift.
  destruct (as_dict _) as [properties|e]; cbn [run_then]; [|apply same_results_refl].
  match goal with
  | |- context [interp w (render_ui_loop ?self ?f ?r ?k) s] =>
      pose proof (render_ui_loop_results w self f r k s) as Hloop;
      destruct (interp w (render_ui_loop self f r k) s) as [[r1 s1] t1]
  end.
  unfold state_of in *. cbn [fst snd] in Hloop.
  destruct r1 as [[]|e]; cbn [run_then fst snd]; [|exact Hloop].
  rewrite interp_bind, interp_widget.
  destruct (w (Widget St "markdown" [VStr "---"] [])); cbn [run_then interp fst snd];
    exact Hloop.
Qed.

(** X23. The output stays. In a run of [render_streamlit_ui] with the
    generated input form in which neither Clear nor Execute is selected,
    the operation is not invoked and the output section is rendered from
    the output data and the latest operation input the session had when
    the run began: the result of the last execution is drawn again,
    whatever the input widgets show by now. *)
Theorem former_output_is_drawn_again `{SchemaUtils} `{Runtime} (w : env) (fuel : nat)
        (opyrator : Opyrator) (s0 s1 s1' : SessionState) (t1 t2 : list call)
        (execute_selected : value) :
  render_input_ui (input_type opyrator) = None ->
  interp w (render_inputs fuel opyrator) s0 = (Ok tt, s1, t1) ->
  interp w clear_and_execute_buttons s1 = (Ok execute_selected, s1', t2) ->
  truthy execute_selected = false ->
  interp w (render_streamlit_ui fuel opyrator) s0
  = (let '(r, s3, t4) := interp w (render_output_section fuel) s1 in
     (r, s3, t1 ++ t2 ++ t4))
  /\ output_data s1 = output_data s0
  /\ latest_operation_input s1 = latest_operation_input s0
  /\ invocations (t1 ++ t2) = [].
Proof.
  intros Hnone Hin Hbuttons Hsel.
  split; [|split; [|split]].
  - rewrite (interp_render_streamlit_ui w fuel opyrator s0 s1 s1' t1 t2 execute_selected
               Hin Hbuttons).
    rewrite Hsel. cbn [interp].
    destruct (interp w (render_output_section fuel) s1) as [[r s3] t4]. reflexivity.
  - pose proof (render_inputs_results w fuel opyrator s0 Hnone) as Hs.
    rewrite Hin in Hs. now destruct Hs as (_ & Ho & _).
  - pose proof (render_inputs_results w fuel opyrator s0 Hnone) as Hs.
    rewrite Hin in Hs. now destruct Hs as (_ & _ & Hl).
  - pose proof (calls_render_inputs not_invoke not_invoke_widget not_invoke_enter
                  not_invoke_exit fuel opyrator Hnone w s0) as H1.
    pose proof (calls_clear_and_execute_buttons not_invoke not_invoke_widget
                  not_invoke_enter not_invoke_exit w s1) as H2.
    rewrite Hin in H1. rewrite Hbuttons in H2. unfold trace_of in *. cbn [snd] in *.
    rewrite invocations_app, (invocations_none _ H1), (invocations_none _ H2).
    reflexivity.
Qed.

Lemma former_output_is_drawn_again_witness :
  let x := interp idle_env (@render_inputs sample_schema_utils sample_runtime 5
                              sample_opyrator) executed_state in
  interp idle_env (@render_streamlit_ui sample_schema_utils sample_runtime 5
                     sample_opyrator) executed_state
  = (let '(r, s3, t4) :=
       interp idle_env (@render_output_section sample_schema_utils sample_runtime 5)
         (state_of x) in
     (r, s3,
      trace_of x
      ++ trace_of (interp idle_env (@clear_and_execute_buttons sample_runtime) (state_of x))
      ++ t4))
  /\ output_data (state_of x) = output_data executed_state
  /\ latest_operation_input (state_of x) = latest_operation_input executed_state
  /\ invocations
       (trace_of x
        ++ trace_of (interp idle_env (@clear_and_execute_buttons sample_runtime)
                       (state_of x))) = [].
Proof.
  intros x.
  apply (@former_output_is_drawn_again sample_schema_utils sample_runtime idle_env
           5 sample_opyrator executed_state (state_of x) (state_of x) (trace_of x)
           (trace_of (interp idle_env (@clear_and_execute_buttons sample_runtime)
                        (state_of x)))
           VNone); reflexivity.
Defined.

(** ** What the form passes over *)


(** ** Numbers given as strings *)

(** [int] and [float] read a string as Python does: an integer step and
    a lower bound given as strings give the numbers they spell, and so
    does a float given with a point or an exponent. *)
Example number_input_reads_strings :
  let integer_property :=
    [("type", VStr "integer"); ("multipleOf", VStr "5"); ("minimum", VStr " 10 ")] in
  let float_property :=
    [("type", VStr "number"); ("multipleOf", VStr "0.5"); ("maximum", VStr "1e1")] in
  @number_input_kwargs integer_property
    (@default_streamlit_input_kwargs sample_runtime (VInt 0) "n" integer_property)
  = Ok [("label", VNone); ("key", VStr "0-n"); ("step", VInt 5);
        ("min_value", VInt 10); ("value", VInt 10)]
  /\ @number_input_kwargs float_property
       (@default_streamlit_input_kwargs sample_runtime (VInt 0) "x" float_property)
     = Ok [("label", VNone); ("key", VStr "0-x"); ("format", VStr "%f");
           ("step", VFloat 0.5); ("max_value", VFloat 10); ("value", VFloat 0.5)].
Proof. split; vm_compute; reflexivity. Qed.

Example literals_are_read :
  py_int (VStr "1_000") = Ok (VInt 1000)
  /\ py_int (VStr "-7") = Ok (VInt (-7))
  /\ py_int (VStr "5.0") = Err (Exn ValueError "invalid literal for int() with base 10")
  /\ py_float (VStr "0.1") = Ok (VFloat 0.1)
  /\ py_float (VStr "9007199254740993") = Ok (VFloat 9007199254740992)
  /\ py_float (VStr "4.9e-324") = Ok (VFloat 4.9e-324)
  /\ py_float (VStr "1e400") = Ok (VFloat infinity)
  /\ py_float (VStr "-inf") = Ok (VFloat neg_infinity)
  /\ py_float (VStr "1e") = Err (Exn ValueError "could not convert string to float").
Proof. repeat split; vm_compute; reflexivity. Qed.

(** ** What a renderer may touch, key by key *)

Lemma same_apart_refl (ks : list string) (s : SessionState) : same_apart ks s s.
Proof. unfold same_apart. auto. Qed.

Lemma same_apart_trans (ks : list string) (s1 s2 s3 : SessionState) :
  same_apart ks s1 s2 -> same_apart ks s2 s3 -> same_apart ks s1 s3.
Proof.
  intros (A1 & A2 & A3 & A4) (B1 & B2 & B3 & B4).
  unfold same_apart. repeat split; try congruence.
  intros q Hq. rewrite B4, A4; auto.
Qed.

(** What parts from a path parts from every path that goes on from it. *)
Lemma parts_longer (q ks more : list string) : parts q ks -> parts q (ks ++ more).
Proof.
  intros (p & a & b & r & r' & -> & -> & Hab).
  exists p, a, b, (r ++ more), r'. rewrite <- app_assoc. auto.
Qed.

Lemma same_apart_longer (ks more : list string) (s s' : SessionState) :
  same_apart (ks ++ more) s s' -> same_apart ks s s'.
Proof.
  intros (A1 & A2 & A3 & A4). unfold same_apart. repeat split; try assumption.
  intros q Hq. apply A4. now apply parts_longer.
Qed.

Lemma split_dot_app (key property_key : string) :
  split_dot (key ++ "." ++ property_key)%string = split_dot key ++ split_dot property_key.
Proof.
  induction key as [|c key IH].
  - reflexivity.
  - change ((String c key ++ "." ++ property_key)%string)
      with (String c (key ++ "." ++ property_key)%string).
    cbn [split_dot]. rewrite IH.
    destruct (Ascii.eqb c "."%char); [reflexivity|].
    pose proof (split_dot_nonempty key).
    destruct (split_dot key); [congruence|reflexivity].
Qed.

Lemma apart_ret {A : Type} (ks : list string) (a : A) : touches_apart ks (Ret a).
Proof. intros w s. apply same_apart_refl. Qed.

Lemma apart_raise {A : Type} (ks : list string) (e : exn) : touches_apart ks (@Raise A e).
Proof. intros w s. apply same_apart_refl. Qed.

Lemma apart_lift {A : Type} (ks : list string) (r : outcome A) : touches_apart ks (lift r).
Proof. destruct r; [apply apart_ret|apply apart_raise]. Qed.

Lemma apart_Ext {A : Type} (ks : list string) (c : call) (k : outcome value -> prog A) :
  (forall r, touches_apart ks (k r)) -> touches_apart ks (Ext c k).
Proof.
  intros Hk w s. specialize (Hk (w c) w s). unfold state_of in *. simpl.
  now destruct (interp w (k (w c)) s) as [[r s'] t].
Qed.

Lemma apart_Get {A : Type} (ks : list string) (k : SessionState -> prog A) :
  (forall s, touches_apart ks (k s)) -> touches_apart ks (Get k).
Proof. intros Hk w s. apply (Hk s w s). Qed.

Lemma apart_widget (ks : list string) (app : st_app) (m : string) (args : list value)
      (kw : dict) :
  touches_apart ks (widget app m args kw).
Proof. apply apart_Ext. intros r. apply apart_lift. Qed.

Lemma apart_bind {A B : Type} (ks : list string) (p : prog A) (f : A -> prog B) :
  touches_apart ks p -> (forall a, touches_apart ks (f a)) -> touches_apart ks (bind p f).
Proof.
  intros Hp Hf w s. rewrite interp_bind. specialize (Hp w s). unfold state_of in *.
  destruct (interp w p s) as [[r s1] t1]. simpl in *. destruct r as [a|e]; [|exact Hp].
  specialize (Hf a w s1). destruct (interp w (f a) s1) as [[r2 s2] t2]. simpl in *.
  eapply same_apart_trans; eassumption.
Qed.

Lemma apart_reify {A : Type} (ks : list string) (p : prog A) :
  touches_apart ks p -> touches_apart ks (reify p).
Proof.
  intros Hp w s. rewrite interp_reify. specialize (Hp w s). unfold state_of in *.
  now destruct (interp w p s) as [[r s1] t1].
Qed.

Lemma apart_try_except {A : Type} (ks : list string) (p : prog A)
      (handler : exn -> prog A) :
  touches_apart ks p -> (forall e, touches_apart ks (handler e)) ->
  touches_apart ks (try_except p handler).
Proof.
  intros Hp Hh. unfold try_except. apply apart_bind; [now apply apart_reify|].
  intros [a|e]; [apply apart_ret|].
  destruct (is_Exception e); [apply Hh|apply apart_raise].
Qed.

Lemma apart_with {A : Type} (ks : list string) (cm : value) (body : prog A) :
  touches_apart ks body -> touches_apart ks (with_ cm body).
Proof.
  intros Hb. unfold with_, ext.
  apply apart_bind; [apply apart_Ext; intros; apply apart_lift|]. intros _.
  apply apart_bind; [now apply apart_reify|]. intros r.
  apply apart_bind; [apply apart_Ext; intros; apply apart_lift|]. intros _.
  apply apart_lift.
Qed.

Lemma apart_when (ks : list string) (b : bool) (p : prog value) :
  touches_apart ks p -> touches_apart ks (when b p).
Proof.
  intros Hp. unfold when. destruct b; [|apply apart_ret].
  apply apart_bind; [exact Hp|]. intros _. apply apart_ret.
Qed.

Lemma apart_foldM {A B : Type} (ks : list string) (f : B -> A -> prog B) (l : list A) :
  (forall acc x, touches_apart ks (f acc x)) -> forall acc, touches_apart ks (foldM f l acc).
Proof.
  intros Hf. induction l as [|x l IH]; intros acc; simpl; [apply apart_ret|].
  apply apart_bind; [apply Hf|]. intros acc'. apply IH.
Qed.

Lemma apart_longer {A : Type} (ks more : list string) (p : prog A) :
  touches_apart (ks ++ more) p -> touches_apart ks p.
Proof. intros Hp w s. eapply same_apart_longer. apply Hp. Qed.

Lemma apart_get_value (key : string) : touches_apart (split_dot key) (_get_value key).
Proof.
  intros w s. unfold _get_value, state_of. cbn [interp].
  destruct (get_elements (split_dot key) (input_data s)) as [r d] eqn:Hg.
  cbn [interp]. rewrite interp_lift. cbn [fst snd].
  unfold same_apart. cbn [run_id output_data latest_operation_input input_data set_input_data].
  repeat split.
  intros q (p & a & b & r0 & r' & Hk & -> & Hab). rewrite Hk in Hg.
  pose proof (get_elements_apart p a b r0 r' Hab (input_data s)) as Hap.
  now rewrite Hg in Hap.
Qed.

Lemma apart_store_value (key : string) (v : value) :
  touches_apart (split_dot key) (_store_value key v).
Proof.
  intros w s. unfold _store_value, state_of. cbn [interp].
  destruct (store_elements (split_dot key) v (input_data s)) as [r d] eqn:Hg.
  cbn [interp]. rewrite interp_lift. cbn [fst snd].
  unfold same_apart. cbn [run_id output_data latest_operation_input input_data set_input_data].
  repeat split.
  intros q (p & a & b & r0 & r' & Hk & -> & Hab). rewrite Hk in Hg.
  pose proof (store_elements_apart p a b r0 r' v Hab (input_data s)) as Hap.
  now rewrite Hg in Hap.
Qed.

Lemma apart_update_stored (key : string) (v : value) :
  touches_apart (split_dot key) (update_stored key v).
Proof.
  intros w s. unfold update_stored, state_of. cbn [interp fst snd].
  unfold same_apart. cbn [run_id output_data latest_operation_input input_data set_input_data].
  repeat split.
  intros q (p & a & b & r0 & r' & Hk & -> & Hab). rewrite Hk.
  apply (store_elements_apart p a b r0 r' v Hab (input_data s)).
Qed.

Lemma apart_view_stored (ks : list string) (key : string) (stored : value) :
  touches_apart ks (view_stored key stored).
Proof. intros w s. apply same_apart_refl. Qed.

Lemma apart_default_kwargs `{Runtime} (ks : list string) (key : string) (property : dict) :
  touches_apart ks (_get_default_streamlit_input_kwargs key property).
Proof. intros w s. apply same_apart_refl. Qed.

Ltac apart_step :=
  match goal with
  | |- touches_apart _ (bind _ _) => apply apart_bind; [|intros]
  | |- touches_apart _ (Ret _) => apply apart_ret
  | |- touches_apart _ (Raise _) => apply apart_raise
  | |- touches_apart _ (lift _) => apply apart_lift
  | |- touches_apart _ (widget _ _ _ _) => apply apart_widget
  | |- touches_apart _ (when _ _) => apply apart_when
  | |- touches_apart _ (with_ _ _) => apply apart_with
  | |- touches_apart _ (try_except _ _) => apply apart_try_except; [|intros]
  | |- touches_apart _ (foldM _ _ _) => apply apart_foldM; intros
  | |- touches_apart _ (_get_default_streamlit_input_kwargs _ _) =>
      apply apart_default_kwargs
  | |- touches_apart _ (_get_value _) => apply apart_get_value
  | |- touches_apart _ (update_stored _ _) => apply apart_update_stored
  | |- touches_apart _ (view_stored _ _) => apply apart_view_stored
  | |- touches_apart _ (if ?b then _ else _) => destruct b
  | |- touches_apart _ (match ?x with _ => _ end) => destruct x
  | |- touches_apart _ _ => progress cbv beta zeta
  end.

Ltac apart := repeat apart_step.

Section Apart.

Context `{SchemaUtils} `{Runtime}.
Variable self : InputUI.

Lemma apart_single_datetime (app : st_app) (key : string) (property : dict) :
  touches_apart (split_dot key) (_render_single_datetime_input app key property).
Proof. unfold _render_single_datetime_input, default_from. apart. Qed.

Lemma apart_single_file (app : st_app) (key : string) (property : dict) :
  touches_apart (split_dot key) (_render_single_file_input app key property).
Proof. unfold _render_single_file_input, file_extension_of. apart. Qed.

Lemma apart_single_string (app : st_app) (key : string) (property : dict) :
  touches_apart (split_dot key) (_render_single_string_input app key property).
Proof. unfold _render_single_string_input. apart. Qed.

Lemma apart_multi_enum (app : st_app) (key : string) (property : dict) :
  touches_apart (split_dot key) (_render_multi_enum_input self app key property).
Proof. unfold _render_multi_enum_input. apart. Qed.

Lemma apart_single_enum (app : st_app) (key : string) (property : dict) :
  touches_apart (split_dot key) (_render_single_enum_input self app key property).
Proof. unfold _render_single_enum_input. apart. Qed.

Lemma apart_single_dict (app : st_app) (key : string) (property : dict) :
  touches_apart (split_dot key) (_render_single_dict_input app key property).
Proof. unfold _render_single_dict_input, new_value_input. apart. Qed.

Lemma apart_multi_file (app : st_app) (key : string) (property : dict) :
  touches_apart (split_dot key) (_render_multi_file_input app key property).
Proof. unfold _render_multi_file_input, file_extension_of. apart. Qed.

Lemma apart_single_boolean (app : st_app) (key : string) (property : dict) :
  touches_apart (split_dot key) (_render_single_boolean_input app key property).
Proof. unfold _render_single_boolean_input. apart. Qed.

Lemma apart_single_number (app : st_app) (key : string) (property : dict) :
  touches_apart (split_dot key) (_render_single_number_input app key property).
Proof. unfold _render_single_number_input. apart. Qed.

Lemma apart_property_list (app : st_app) (key : string) (property : dict) :
  touches_apart (split_dot key) (_render_property_list_input app key property).
Proof. unfold _render_property_list_input, new_value_input, clear_or_add. apart. Qed.

Section ApartDescend.

Variable render : st_app -> string -> dict -> prog value.
Hypothesis apart_render :
  forall app key property, touches_apart (split_dot key) (render app key property).

Lemma apart_object_input (app : st_app) (key : string) (property : value) :
  touches_apart (split_dot key) (_render_object_input render app key property).
Proof.
  unfold _render_object_input. apart.
  apply (apart_longer (split_dot key) (split_dot s)).
  rewrite <- split_dot_app. apply apart_render.
Qed.

Lemma apart_single_reference (app : st_app) (key : string) (property : dict) :
  touches_apart (split_dot key) (_render_single_reference self render app key property).
Proof. unfold _render_single_reference. apart. apply apart_render. Qed.

Lemma apart_single_object (app : st_app) (key : string) (property : dict) :
  touches_apart (split_dot key) (_render_single_object_input self render app key property).
Proof. unfold _render_single_object_input. apart. apply apart_object_input. Qed.

Lemma apart_object_list (app : st_app) (key : string) (property : dict) :
  touches_apart (split_dot key) (_render_object_list_input self render app key property).
Proof.
  unfold _render_object_list_input, clear_or_add. apart;
    apply apart_object_input.
Qed.

End ApartDescend.

(** Rendering a property reaches the input data only on the path of its
    key and below it. *)
Lemma apart_render_property (fuel : nat) :
  forall app key property,
    touches_apart (split_dot key) (_render_property self fuel app key property).
Proof.
  induction fuel as [|fuel IH]; intros app key property; cbn [_render_property].
  - apply apart_raise.
  - destruct (is_single_enum_property _ _); [apply apart_single_enum|].
    destruct (is_multi_enum_property _ _); [apply apart_multi_enum|].
    destruct (is_single_file_property _); [apply apart_single_file|].
    destruct (is_multi_file_property _); [apply apart_multi_file|].
    destruct (is_single_datetime_property _); [apply apart_single_datetime|].
    destruct (is_single_boolean_property _); [apply apart_single_boolean|].
    destruct (is_single_dict_property _); [apply apart_single_dict|].
    destruct (is_single_number_property _); [apply apart_single_number|].
    destruct (is_single_string_property _); [apply apart_single_string|].
    destruct (is_single_object _ _); [now apply apart_single_object|].
    destruct (is_object_list_property _ _); [now apply apart_object_list|].
    destruct (is_property_list _); [apply apart_property_list|].
    destruct (is_single_reference _); [now apply apart_single_reference|].
    apart.
Qed.

Lemma apart_render_and_store (fuel : nat) (app : st_app) (key : string) (property : dict) :
  touches_apart (split_dot key) (render_and_store self fuel app key property).
Proof.
  unfold render_and_store. apply apart_bind; [apply apart_render_property|].
  intros v. apply apart_store_value.
Qed.

End Apart.

(** ** C9 *)

Section FailureIsolation.

Context `{SchemaUtils} `{Runtime}.

(** The loop over two lists of keys in a row is the loop over the first,
    then the loop over the second from the state the first left. *)
Lemma render_ui_loop_app (w : env) (self : InputUI) (fuel : nat)
      (required_properties : value) (before after : list string) :
  forall s,
    interp w (render_ui_loop self fuel required_properties (before ++ after)) s
    = run_then (interp w (render_ui_loop self fuel required_properties before) s)
        (fun _ s1 => interp w (render_ui_loop self fuel required_properties after) s1).
Proof.
  unfold render_ui_loop. induction before as [|k before IH]; intros s.
  - cbn [List.app foldM interp run_then].
    now destruct (interp w (foldM _ after tt) s) as [[r s1] t1].
  - cbn [List.app foldM]. rewrite !interp_bind.
    destruct (interp w (render_ui_property self fuel required_properties k) s)
      as [[r s1] t1].
    destruct r as [[]|e]; cbn [run_then]; [|reflexivity].
    rewrite IH.
    destruct (interp w (foldM _ before tt) s1) as [[r2 s2] t2].
    destruct r2 as [[]|e]; cbn [run_then]; [|reflexivity].
    destruct (interp w (foldM _ after tt) s2) as [[r3 s3] t3].
    now rewrite app_assoc.
Qed.


End FailureIsolation.



(** ** What a run depends on *)

Lemma blind_ret {A : Type} (a : A) : log_blind (Ret a).
Proof. intros w w' s _. reflexivity. Qed.

Lemma blind_raise {A : Type} (e : exn) : log_blind (@Raise A e).
Proof. intros w w' s _. reflexivity. Qed.

Lemma blind_lift {A : Type} (r : outcome A) : log_blind (lift r).
Proof. destruct r; [apply blind_ret|apply blind_raise]. Qed.

Lemma blind_Get {A : Type} (k : SessionState -> prog A) :
  (forall s, log_blind (k s)) -> log_blind (Get k).
Proof. intros Hk w w' s Hw. cbn [interp]. now apply Hk. Qed.

Lemma blind_Put {A : Type} (s0 : SessionState) (k : prog A) :
  log_blind k -> log_blind (Put s0 k).
Proof. intros Hk w w' s Hw. cbn [interp]. now apply Hk. Qed.

Lemma blind_Ext {A : Type} (c : call) (k : outcome value -> prog A) :
  is_log c = false -> (forall r, log_blind (k r)) -> log_blind (Ext c k).
Proof.
  intros Hc Hk w w' s Hw. cbn [interp]. rewrite <- (Hw c Hc).
  now rewrite (Hk (w c) w w' s Hw).
Qed.

(** The logger is called for its effect: what it returns is dropped. *)
Lemma blind_log (m : string) : log_blind (log m).
Proof. intros w w' s Hw. reflexivity. Qed.

Lemma blind_widget (app : st_app) (m : string) (args : list value) (kw : dict) :
  log_blind (widget app m args kw).
Proof. apply blind_Ext; [reflexivity|]. intros r. apply blind_lift. Qed.

Lemma blind_bind {A B : Type} (p : prog A) (f : A -> prog B) :
  log_blind p -> (forall a, log_blind (f a)) -> log_blind (bind p f).
Proof.
  intros Hp Hf w w' s Hw. rewrite !interp_bind, (Hp w w' s Hw).
  destruct (interp w' p s) as [[r s1] t1]. destruct r as [a|e]; [|reflexivity].
  cbn [run_then]. now rewrite (Hf a w w' s1 Hw).
Qed.

Lemma blind_reify {A : Type} (p : prog A) : log_blind p -> log_blind (reify p).
Proof. intros Hp w w' s Hw. now rewrite !interp_reify, (Hp w w' s Hw). Qed.

Lemma blind_try_except {A : Type} (p : prog A) (handler : exn -> prog A) :
  log_blind p -> (forall e, log_blind (handler e)) -> log_blind (try_except p handler).
Proof.
  intros Hp Hh. unfold try_except. apply blind_bind; [now apply blind_reify|].
  intros [a|e]; [apply blind_ret|].
  destruct (is_Exception e); [apply Hh|apply blind_raise].
Qed.

Lemma blind_try_except_ValidationError {A : Type} (p : prog A) (handler : exn -> prog A) :
  log_blind p -> (forall e, log_blind (handler e)) ->
  log_blind (try_except_ValidationError p handler).
Proof.
  intros Hp Hh. unfold try_except_ValidationError.
  apply blind_bind; [now apply blind_reify|].
  intros [a|e]; [apply blind_ret|].
  destruct (is_ValidationError e); [apply Hh|apply blind_raise].
Qed.

Lemma blind_with {A : Type} (cm : value) (body : prog A) :
  log_blind body -> log_blind (with_ cm body).
Proof.
  intros Hb. unfold with_, ext.
  apply blind_bind; [apply blind_Ext; [reflexivity|intros; apply blind_lift]|]. intros _.
  apply blind_bind; [now apply blind_reify|]. intros r.
  apply blind_bind; [apply blind_Ext; [reflexivity|intros; apply blind_lift]|]. intros _.
  apply blind_lift.
Qed.

Lemma blind_when (b : bool) (p : prog value) : log_blind p -> log_blind (when b p).
Proof.
  intros Hp. unfold when. destruct b; [|apply blind_ret].
  apply blind_bind; [exact Hp|]. intros _. apply blind_ret.
Qed.

Lemma blind_foldM {A B : Type} (f : B -> A -> prog B) (l : list A) :
  (forall acc x, log_blind (f acc x)) -> forall acc, log_blind (foldM f l acc).
Proof.
  intros Hf. induction l as [|x l IH]; intros acc; simpl; [apply blind_ret|].
  apply blind_bind; [apply Hf|]. intros acc'. apply IH.
Qed.

Lemma blind_get_value (key : string) : log_blind (_get_value key).
Proof. intros w w' s Hw. unfold _get_value. cbn [interp].
  destruct (get_elements _ _) as [r d]. cbn [interp]. now rewrite !interp_lift. Qed.

Lemma blind_store_value (key : string) (v : value) : log_blind (_store_value key v).
Proof. intros w w' s Hw. unfold _store_value. cbn [interp].
  destruct (store_elements _ _ _) as [r d]. cbn [interp]. now rewrite !interp_lift. Qed.

Lemma blind_update_stored (key : string) (v : value) : log_blind (update_stored key v).
Proof. intros w w' s Hw. reflexivity. Qed.

Lemma blind_view_stored (key : string) (stored : value) : log_blind (view_stored key stored).
Proof. intros w w' s Hw. reflexivity. Qed.

Lemma blind_default_kwargs `{Runtime} (key : string) (property : dict) :
  log_blind (_get_default_streamlit_input_kwargs key property).
Proof. intros w w' s Hw. reflexivity. Qed.

Ltac blind_step :=
  match goal with
  | |- log_blind (bind _ _) => apply blind_bind; [|intros]
  | |- log_blind (Ret _) => apply blind_ret
  | |- log_blind (Raise _) => apply blind_raise
  | |- log_blind (lift _) => apply blind_lift
  | |- log_blind (log _) => apply blind_log
  | |- log_blind (widget _ _ _ _) => apply blind_widget
  | |- log_blind (when _ _) => apply blind_when
  | |- log_blind (with_ _ _) => apply blind_with
  | |- log_blind (try_except _ _) => apply blind_try_except; [|intros]
  | |- log_blind (try_except_ValidationError _ _) =>
      apply blind_try_except_ValidationError; [|intros]
  | |- log_blind (foldM _ _ _) => apply blind_foldM; intros
  | |- log_blind (Get _) => apply blind_Get; intros
  | |- log_blind (Put _ _) => apply blind_Put
  | |- log_blind (_get_default_streamlit_input_kwargs _ _) => apply blind_default_kwargs
  | |- log_blind (_get_value _) => apply blind_get_value
  | |- log_blind (_store_value _ _) => apply blind_store_value
  | |- log_blind (update_stored _ _) => apply blind_update_stored
  | |- log_blind (view_stored _ _) => apply blind_view_stored
  | |- log_blind (if ?b then _ else _) => destruct b
  | |- log_blind (match ?x with _ => _ end) => destruct x
  | |- log_blind _ => progress cbv beta zeta
  end.

Ltac blind := repeat blind_step.

Section Blind.

Context `{SchemaUtils} `{Runtime}.

Lemma blind_single_datetime (app : st_app) (key : string) (property : dict) :
  log_blind (_render_single_datetime_input app key property).
Proof. unfold _render_single_datetime_input, default_from. blind. Qed.

Lemma blind_single_file (app : st_app) (key : string) (property : dict) :
  log_blind (_render_single_file_input app key property).
Proof. unfold _render_single_file_input, file_extension_of. blind. Qed.

Lemma blind_single_string (app : st_app) (key : string) (property : dict) :
  log_blind (_render_single_string_input app key property).
Proof. unfold _render_single_string_input. blind. Qed.

Lemma blind_multi_enum (self : InputUI) (app : st_app) (key : string) (property : dict) :
  log_blind (_render_multi_enum_input self app key property).
Proof. unfold _render_multi_enum_input. blind. Qed.

Lemma blind_single_enum (self : InputUI) (app : st_app) (key : string) (property : dict) :
  log_blind (_render_single_enum_input self app key property).
Proof. unfold _render_single_enum_input. blind. Qed.

Lemma blind_single_dict (app : st_app) (key : string) (property : dict) :
  log_blind (_render_single_dict_input app key property).
Proof. unfold _render_single_dict_input, new_value_input. blind. Qed.

Lemma blind_multi_file (app : st_app) (key : string) (property : dict) :
  log_blind (_render_multi_file_input app key property).
Proof. unfold _render_multi_file_input, file_extension_of. blind. Qed.

Lemma blind_single_boolean (app : st_app) (key : string) (property : dict) :
  log_blind (_render_single_boolean_input app key property).
Proof. unfold _render_single_boolean_input. blind. Qed.

Lemma blind_single_number (app : st_app) (key : string) (property : dict) :
  log_blind (_render_single_number_input app key property).
Proof. unfold _render_single_number_input. blind. Qed.

Lemma blind_property_list (app : st_app) (key : string) (property : dict) :
  log_blind (_render_property_list_input app key property).
Proof. unfold _render_property_list_input, new_value_input, clear_or_add. blind. Qed.

Section BlindDescend.

Variable self : InputUI.
Variable render : st_app -> string -> dict -> prog value.
Hypothesis blind_render : forall app key property, log_blind (render app key property).

Lemma blind_object_input (app : st_app) (key : string) (property : value) :
  log_blind (_render_object_input render app key property).
Proof. unfold _render_object_input. blind. apply blind_render. Qed.

Lemma blind_single_reference (app : st_app) (key : string) (property : dict) :
  log_blind (_render_single_reference self render app key property).
Proof. unfold _render_single_reference. blind. apply blind_render. Qed.

Lemma blind_single_object (app : st_app) (key : string) (property : dict) :
  log_blind (_render_single_object_input self render app key property).
Proof. unfold _render_single_object_input. blind. apply blind_object_input. Qed.

Lemma blind_object_list (app : st_app) (key : string) (property : dict) :
  log_blind (_render_object_list_input self render app key property).
Proof.
  unfold _render_object_list_input, clear_or_add. blind;
    apply blind_object_input.
Qed.

End BlindDescend.

Lemma blind_render_property (self : InputUI) (fuel : nat) :
  forall app key property, log_blind (_render_property self fuel app key property).
Proof.
  induction fuel as [|fuel IH]; intros app key property; cbn [_render_property].
  - apply blind_raise.
  - destruct (is_single_enum_property _ _); [apply blind_single_enum|].
    destruct (is_multi_enum_property _ _); [apply blind_multi_enum|].
    destruct (is_single_file_property _); [apply blind_single_file|].
    destruct (is_multi_file_property _); [apply blind_multi_file|].
    destruct (is_single_datetime_property _); [apply blind_single_datetime|].
    destruct (is_single_boolean_property _); [apply blind_single_boolean|].
    destruct (is_single_dict_property _); [apply blind_single_dict|].
    destruct (is_single_number_property _); [apply blind_single_number|].
    destruct (is_single_string_property _); [apply blind_single_string|].
    destruct (is_single_object _ _); [now apply blind_single_object|].
    destruct (is_object_list_property _ _); [now apply blind_object_list|].
    destruct (is_property_list _); [apply blind_property_list|].
    destruct (is_single_reference _); [now apply blind_single_reference|].
    blind.
Qed.

Section BlindRun.

Variable opyrator : Opyrator.
Hypothesis blind_custom_input :
  forall render, render_input_ui (input_type opyrator) = Some render ->
                 forall app d, log_blind (render app d).
Hypothesis blind_custom_output :
  forall x r app i, render_output_ui x = Some r -> log_blind (render_output r app i).

Ltac blind_out_step :=
  match goal with
  | |- log_blind (render_output _ _ _) => eapply blind_custom_output; eassumption
  | |- log_blind (match render_output_ui ?v with _ => _ end) =>
      destruct (render_output_ui v) eqn:?
  | |- _ => blind_step
  end.

Ltac blind_out := repeat blind_out_step.

Lemma blind_render_inputs (fuel : nat) : log_blind (render_inputs fuel opyrator).
Proof.
  unfold render_inputs, InputUI_render_ui, render_ui_loop, render_ui_property,
    render_and_store.
  cbn [InputUI_init _input_class].
  destruct (render_input_ui (input_type opyrator)) as [render|] eqn:Hr.
  - blind. now apply blind_custom_input.
  - blind. apply blind_render_property.
Qed.

Lemma blind_clear_and_execute_buttons : log_blind clear_and_execute_buttons.
Proof. unfold clear_and_execute_buttons. blind. Qed.

Lemma blind_execute_operation : log_blind (execute_operation opyrator).
Proof.
  unfold execute_operation, ext. blind.
  apply blind_Ext; [reflexivity|]. intros r. apply blind_lift.
Qed.

Lemma blind_subheader_and_description (app : st_app) (property_schema : dict) :
  log_blind (subheader_and_description app property_schema).
Proof. unfold subheader_and_description. blind. Qed.

Lemma blind_single_text_property (app : st_app) (property_schema : dict) (v : value) :
  log_blind (_render_single_text_property app property_schema v).
Proof.
  unfold _render_single_text_property.
  apply blind_bind; [apply blind_subheader_and_description|]. intros _. blind.
Qed.

Lemma blind_single_file_property (app : st_app) (property_schema : dict) (v : value) :
  log_blind (_render_single_file_property app property_schema v).
Proof.
  unfold _render_single_file_property.
  apply blind_bind; [apply blind_subheader_and_description|]. intros _. blind.
Qed.

Lemma blind_single_complex_property (app : st_app) (property_schema : dict) (v : value) :
  log_blind (_render_single_complex_property app property_schema v).
Proof.
  unfold _render_single_complex_property.
  apply blind_bind; [apply blind_subheader_and_description|]. intros _. blind.
Qed.

Lemma blind_render_output_field (render_single_output : st_app -> value -> prog unit)
      (app : st_app) (model_properties definitions : value) (property_key : string)
      (v : value) :
  (forall app' x, log_blind (render_single_output app' x)) ->
  log_blind (render_output_field render_single_output app model_properties
               definitions property_key v).
Proof.
  intros Hrec. unfold render_output_field.
  blind_out;
    try apply blind_subheader_and_description;
    try apply blind_single_file_property;
    try apply blind_single_text_property;
    try apply blind_single_complex_property;
    try apply Hrec.
Qed.

Lemma blind_single_output (out : OutputUI) (fuel : nat) :
  forall app x, log_blind (_render_single_output out fuel app x).
Proof.
  induction fuel as [|fuel IH]; intros app x; cbn [_render_single_output].
  - apply blind_raise.
  - blind_out. apply blind_render_output_field. exact IH.
Qed.

Lemma blind_list_output (app : st_app) (x : value) : log_blind (_render_list_output app x).
Proof. unfold _render_list_output. blind_out. Qed.

Lemma blind_render_output_section (fuel : nat) : log_blind (render_output_section fuel).
Proof.
  unfold render_output_section, OutputUI_render_ui, render_ui_fallback, show_json_section.
  blind; [apply blind_single_output|apply blind_list_output].
Qed.

Lemma blind_render_streamlit_ui (fuel : nat) : log_blind (render_streamlit_ui fuel opyrator).
Proof.
  unfold render_streamlit_ui.
  apply blind_bind; [apply blind_render_inputs|]. intros _.
  apply blind_bind; [apply blind_clear_and_execute_buttons|]. intros sel.
  apply blind_bind; [|intros _; apply blind_render_output_section].
  destruct (truthy sel); [apply blind_execute_operation|apply blind_ret].
Qed.

End BlindRun.

End Blind.

(** ** C7 *)



(** The run of the witness does call the logger, which the two outsides
    answer differently. *)
Example deterministic_witness_logs :
  existsb is_log
    (trace_of (interp sample_env
                 (@render_streamlit_ui sample_schema_utils failing_renderer_runtime 5
                    sample_opyrator) sample_state)) = true
  /\ sample_env (Log "Failed to execute custom render_output_ui function. Using auto-generation instead")
     <> other_env (Log "Failed to execute custom render_output_ui function. Using auto-generation instead").
Proof. split; [reflexivity|discriminate]. Qed.

